(** * conda_forge_tick.lazy_json_backends: a shallow embedding

    The module [lazy_json_backends.py] keeps JSON documents in two
    interchangeable stores (a sharded file tree and a MongoDB database),
    synchronises them by content hash and exposes each document through the
    lazily loaded, hash tracked [LazyJson] mapping.

    Python strings are [string] (code points below 256), dictionaries whose
    order is irrelevant are [gmap string _], documents are trees, and every
    function that touches the disk or the database is a computation in the
    state-and-exception monad [M] over the [World]. *)

From Stdlib Require Import ZArith Ascii String.
From Stdlib Require DecimalZ.
From stdpp Require Import base tactics option list strings gmap sorting.

Local Open Scope Z_scope.

(** ** Exceptions and the state-and-exception monad

    [OutOfFuel] is no Python exception: a loop of the embedding that is
    given too little fuel ends with it. *)

Inductive exn : Type :=
  | AssertionError
  | KeyError (k : string)
  | TypeError (msg : string)
  | IndexError
  | FileNotFoundError (path : string)
  | JSONDecodeError
  | AttributeError
  | InvalidOperation
  | NotImplementedError
  | RuntimeError (msg : string)
  | CalledProcessError (returncode : Z) (cmd : string)
  | OSError (msg : string)
  | OutOfFuel.

Inductive result (A : Type) : Type :=
  | Ok (a : A)
  | Raise (e : exn).
Arguments Ok {A} a.
Arguments Raise {A} e.

Definition is_ok {A} (r : result A) : bool :=
  match r with Ok _ => true | Raise _ => false end.

Definition rbind {A B} (r : result A) (f : A → result B) : result B :=
  match r with Ok a => f a | Raise e => Raise e end.

Definition rmapM {A B} (f : A → result B) : list A → result (list B) :=
  fix go (l : list A) : result (list B) :=
    match l with
    | [] => Ok []
    | x :: l' => rbind (f x) (λ y, rbind (go l') (λ ys, Ok (y :: ys)))
    end.

(** ** [os.path] on POSIX *)

Module os_path.

Definition is_sep (c : ascii) : bool := Ascii.eqb c "/"%char.

Fixpoint has_sep (p : string) : bool :=
  match p with
  | EmptyString => false
  | String c r => is_sep c || has_sep r
  end.

(** [i = p.rfind("/") + 1; head, tail = p[:i], p[i:]] *)
Fixpoint rsplit (p : string) : string * string :=
  match p with
  | EmptyString => (EmptyString, EmptyString)
  | String c r =>
      if has_sep r then (String c (rsplit r).1, (rsplit r).2)
      else if is_sep c then (String c EmptyString, r)
      else (EmptyString, String c r)
  end.

(** [head == "/" * len(head)] *)
Fixpoint all_sep (p : string) : bool :=
  match p with
  | EmptyString => true
  | String c r => is_sep c && all_sep r
  end.

(** [head.rstrip("/")] *)
Fixpoint rstrip_sep (p : string) : string :=
  match p with
  | EmptyString => EmptyString
  | String c r =>
      match rstrip_sep r with
      | EmptyString => if is_sep c then EmptyString else String c EmptyString
      | r' => String c r'
      end
  end.

(** [os.path.split] of posixpath.py. *)
Definition split (p : string) : string * string :=
  let '(head, tail) := rsplit p in
  let head :=
    if negb (String.eqb head "") && negb (all_sep head)
    then rstrip_sep head else head in
  (head, tail).

Definition basename (p : string) : string := (rsplit p).2.

Definition startswith_sep (p : string) : bool :=
  match p with String c _ => is_sep c | EmptyString => false end.

Fixpoint endswith_sep (p : string) : bool :=
  match p with
  | EmptyString => false
  | String c EmptyString => is_sep c
  | String _ r => endswith_sep r
  end.

(** One round of the loop of [os.path.join]. *)
Definition join2 (path b : string) : string :=
  if startswith_sep b then b
  else if String.eqb path "" || endswith_sep path then path +:+ b
  else path +:+ "/" +:+ b.

Definition join (a : string) (ps : list string) : string :=
  foldl join2 a ps.

End os_path.

(** ** Hex digests

    [hashlib] is outside the module: a digest function is a parameter that
    sends a string to a number, and [hexdigest] prints the low [4 * n] bits
    of that number as [n] lower-case hexadecimal characters. *)

Definition hex_char (d : N) : ascii :=
  match d with
  | 0 => "0" | 1 => "1" | 2 => "2" | 3 => "3" | 4 => "4" | 5 => "5"
  | 6 => "6" | 7 => "7" | 8 => "8" | 9 => "9" | 10 => "a" | 11 => "b"
  | 12 => "c" | 13 => "d" | 14 => "e" | _ => "f"
  end%N%char.

Fixpoint hexdigest_go (n : nat) (d : N) (acc : string) : string :=
  match n with
  | O => acc
  | S n' => hexdigest_go n' (d / 16)%N (String (hex_char (d mod 16)%N) acc)
  end.

Definition hexdigest (n : nat) (d : N) : string := hexdigest_go n d "".

Definition is_hex (c : ascii) : bool :=
  let n := N_of_ascii c in
  ((48 <=? n) && (n <=? 57) || (97 <=? n) && (n <=? 102))%N.

(** [s[i]] *)
Fixpoint str_index (s : string) (i : nat) : result ascii :=
  match s, i with
  | EmptyString, _ => Raise IndexError
  | String c _, O => Ok c
  | String _ r, S i' => str_index r i'
  end.

(** [s[0:n]] *)
Fixpoint str_take (n : nat) (s : string) : string :=
  match n, s with
  | S n', String c r => String c (str_take n' r)
  | _, _ => EmptyString
  end.

(** [s[:-n]] *)
Definition str_drop_end (n : nat) (s : string) : string :=
  str_take (String.length s - n) s.

Definition str1 (c : ascii) : string := String c EmptyString.

Section sharding.

Variable sha1 : string → N.

Definition sha1_hexdigest (s : string) : string := hexdigest 40 (sha1 s).

(** [get_sharded_path(file_path, n_dirs=5)] *)
Definition get_sharded_path_n (file_path : string) (n_dirs : nat) : result string :=
  let '(top_dir, file_name) := os_path.split file_path in
  if (String.length top_dir =? 0)%nat || String.eqb top_dir "lazy_json" then
    Ok file_name
  else
    let hx := str_take n_dirs (sha1_hexdigest file_name) in
    rbind (rmapM (λ i, rbind (str_index hx i) (λ c, Ok (str1 c))) (seq 0 n_dirs))
      (λ shards, Ok (os_path.join top_dir (shards ++ [file_name]))).

End sharding.

(** ** JSON trees and in-memory document values *)

(** What [rapidjson] reads and writes.  Numbers are integers: floating
    point is outside the embedding. *)
#[warnings="-register-all"]
Inductive json : Type :=
  | JNull
  | JBool (b : bool)
  | JInt (n : Z)
  | JStr (s : string)
  | JArr (l : list json)
  | JObj (kvs : list (string * json)).

(** What a loaded document holds in memory.  A [PDict] lists its items in
    insertion order, a [PSet] lists its elements in iteration order, and
    [PLazy] is a [LazyJson] handle, of which only [file_name] matters to the
    codec. *)
#[warnings="-register-all"]
Inductive pyval : Type :=
  | PNone
  | PBool (b : bool)
  | PInt (n : Z)
  | PStr (s : string)
  | PList (l : list pyval)
  | PDict (kvs : list (string * pyval))
  | PSet (elts : list pyval)
  | PLazy (file_name : string).

(** *** Dictionaries in insertion order *)

Section assoc.
Context {V : Type}.

(** [k in d] *)
Definition dict_mem (k : string) (d : list (string * V)) : bool :=
  bool_decide (k ∈ d.*1).

(** [d[k]] *)
Fixpoint dict_get (k : string) (d : list (string * V)) : result V :=
  match d with
  | [] => Raise (KeyError k)
  | (k', v) :: d' => if String.eqb k k' then Ok v else dict_get k d'
  end.

(** [d[k] = v]: an existing key keeps its position. *)
Fixpoint dict_set (k : string) (v : V) (d : list (string * V)) : list (string * V) :=
  match d with
  | [] => [(k, v)]
  | (k', v') :: d' =>
      if String.eqb k k' then (k, v) :: d' else (k', v') :: dict_set k v d'
  end.

(** [del d[k]] *)
Fixpoint dict_del (k : string) (d : list (string * V)) : result (list (string * V)) :=
  match d with
  | [] => Raise (KeyError k)
  | (k', v') :: d' =>
      if String.eqb k k' then Ok d'
      else rbind (dict_del k d') (λ d'', Ok ((k', v') :: d''))
  end.

(** The dictionary built from a sequence of items. *)
Definition dict_of_items (items : list (string * V)) : list (string * V) :=
  foldl (λ d kv, dict_set kv.1 kv.2 d) [] items.

Definition key_le (a b : string * V) : Prop := String.le a.1 b.1.

Global Instance key_le_dec : RelDecision key_le.
Proof. intros a b. unfold key_le. apply _. Defined.

(** [sort_keys=True] *)
Definition sort_items (d : list (string * V)) : list (string * V) :=
  merge_sort key_le d.

End assoc.

(** *** [sorted] and [set] on document values *)

(** The hashable scalars, up to Python's equality ([True == 1]). *)
Inductive hkey : Type :=
  | HNone
  | HNum (n : Z)
  | HStr (s : string).

Global Instance hkey_eq_dec : EqDecision hkey.
Proof. solve_decision. Defined.

Definition py_hash (v : pyval) : result hkey :=
  match v with
  | PNone => Ok HNone
  | PBool b => Ok (HNum (if b then 1 else 0))
  | PInt n => Ok (HNum n)
  | PStr s => Ok (HStr s)
  | PList _ => Raise (TypeError "unhashable type: 'list'")
  | PDict _ => Raise (TypeError "unhashable type: 'dict'")
  | PSet _ => Raise (TypeError "unhashable type: 'set'")
  | PLazy _ => Raise (TypeError "unhashable type: 'LazyJson'")
  end.

(** Insertion into a set: an element equal to one already there is dropped. *)
Fixpoint set_of_list (seen : list hkey) (l : list pyval) : result (list pyval) :=
  match l with
  | [] => Ok []
  | x :: l' =>
      rbind (py_hash x) (λ h,
        if bool_decide (h ∈ seen) then set_of_list seen l'
        else rbind (set_of_list (h :: seen) l') (λ s, Ok (x :: s)))
  end.

Fixpoint chars (s : string) : list string :=
  match s with
  | EmptyString => []
  | String c r => str1 c :: chars r
  end.

(** [set(v)].  Iterating a [LazyJson] handle would load that other
    document from the backends, which the codec alone cannot do: the
    embedding reports it as [NotImplementedError]. *)
Definition py_set (v : pyval) : result pyval :=
  match v with
  | PList l => rbind (set_of_list [] l) (λ s, Ok (PSet s))
  | PStr s => rbind (set_of_list [] (PStr <$> chars s)) (λ s, Ok (PSet s))
  | PDict kvs => rbind (set_of_list [] (PStr <$> kvs.*1)) (λ s, Ok (PSet s))
  | PSet elts => Ok (PSet elts)
  | PLazy _ => Raise NotImplementedError
  | PNone => Raise (TypeError "'NoneType' object is not iterable")
  | PBool _ => Raise (TypeError "'bool' object is not iterable")
  | PInt _ => Raise (TypeError "'int' object is not iterable")
  end.

Definition is_str (v : pyval) : bool :=
  match v with PStr _ => true | _ => false end.
Definition is_num (v : pyval) : bool :=
  match v with PInt _ | PBool _ => true | _ => false end.

Definition str_of (v : pyval) : string :=
  match v with PStr s => s | _ => "" end.
Definition num_of (v : pyval) : Z :=
  match v with PInt n => n | PBool true => 1 | _ => 0 end.

Definition str_le (a b : pyval) : Prop := String.le (str_of a) (str_of b).
Definition num_le (a b : pyval) : Prop := num_of a ≤ num_of b.

Global Instance str_le_dec : RelDecision str_le.
Proof. intros a b. unfold str_le. apply _. Defined.
Global Instance num_le_dec : RelDecision num_le.
Proof. intros a b. unfold num_le. apply _. Defined.

(** [sorted(obj)]: strings compare with strings and numbers with numbers;
    a sequence of at most one element is never compared; anything else is
    a [TypeError]. *)
Definition py_sorted (l : list pyval) : result (list pyval) :=
  if (length l <=? 1)%nat then Ok l
  else if forallb is_str l then Ok (merge_sort str_le l)
  else if forallb is_num l then Ok (merge_sort num_le l)
  else Raise (TypeError "'<' not supported").

(** *** [default], [object_hook] and the walk of the encoder and decoder *)

(** [default(obj)]: the dictionary that stands for a [LazyJson] or a set. *)
Definition default (obj : pyval) : result pyval :=
  match obj with
  | PLazy file_name => Ok (PDict [("__lazy_json__", PStr file_name)])
  | PSet elts =>
      rbind (py_sorted elts) (λ l,
        Ok (PDict [("__set__", PBool true); ("elements", PList l)]))
  | _ => Raise (TypeError "is not JSON serializable")
  end.

(** The tree of a set element.  Elements of a set are hashable, hence
    scalars here; a [PSet] holding anything else is not a Python value and
    building it would already have raised. *)
Definition encode_atom (obj : pyval) : result json :=
  match obj with
  | PNone => Ok JNull
  | PBool b => Ok (JBool b)
  | PInt n => Ok (JInt n)
  | PStr s => Ok (JStr s)
  | _ => rbind (py_hash obj) (λ _, Ok JNull)
  end.

(** The tree [json.dumps(obj, sort_keys=True, default=default)] writes:
    native values directly, a [LazyJson] or a set as the tree of the
    dictionary [default] returns for it. *)
Fixpoint encode (obj : pyval) : result json :=
  match obj with
  | PNone => Ok JNull
  | PBool b => Ok (JBool b)
  | PInt n => Ok (JInt n)
  | PStr s => Ok (JStr s)
  | PList l => rbind (rmapM encode l) (λ js, Ok (JArr js))
  | PDict kvs =>
      rbind (rmapM (λ kv, rbind (encode kv.2) (λ j, Ok (kv.1, j))) kvs)
        (λ items, Ok (JObj (sort_items items)))
  | PSet elts =>
      rbind (py_sorted elts) (λ l,
        rbind (rmapM encode_atom l) (λ js,
          Ok (JObj (sort_items [("__set__", JBool true); ("elements", JArr js)]))))
  | PLazy file_name =>
      Ok (JObj (sort_items [("__lazy_json__", JStr file_name)]))
  end.

(** [LazyJson(file_name)] needs a string: [os.path.split] rejects the rest. *)
Definition LazyJson_of (v : pyval) : result pyval :=
  match v with
  | PStr file_name => Ok (PLazy file_name)
  | _ => Raise (TypeError "expected str, bytes or os.PathLike object")
  end.

(** [object_hook(dct)] *)
Definition object_hook (dct : list (string * pyval)) : result pyval :=
  if dict_mem "__lazy_json__" dct then
    rbind (dict_get "__lazy_json__" dct) LazyJson_of
  else if dict_mem "__set__" dct then
    rbind (dict_get "elements" dct) py_set
  else Ok (PDict dct).

(** The value [json.loads(s, object_hook=hook)] builds from a parsed tree:
    the hook runs on every object once its members are decoded. *)
Definition decode_with (hook : list (string * pyval) → result pyval) : json → result pyval :=
  fix decode (j : json) : result pyval :=
    match j with
    | JNull => Ok PNone
    | JBool b => Ok (PBool b)
    | JInt n => Ok (PInt n)
    | JStr s => Ok (PStr s)
    | JArr l => rbind (rmapM decode l) (λ vs, Ok (PList vs))
    | JObj kvs =>
        rbind (rmapM (λ kv, rbind (decode kv.2) (λ v, Ok (kv.1, v))) kvs)
          (λ items, hook (dict_of_items items))
    end.

(** Without a hook every object stays a dictionary. *)
Definition plain_hook (dct : list (string * pyval)) : result pyval := Ok (PDict dct).

(** ** The text layer of [rapidjson]

    The writer is the pretty writer with [indent=1] and ASCII output; the
    reader accepts JSON text over integers and code points below 256.
    Both thread the text that follows as a continuation. *)

Module rapidjson.

Definition dquote : ascii := "034"%char.
Definition backslash : ascii := "092"%char.
Definition newline : ascii := "010"%char.

Definition hex_upper (d : N) : ascii :=
  match d with
  | 0 => "0" | 1 => "1" | 2 => "2" | 3 => "3" | 4 => "4" | 5 => "5"
  | 6 => "6" | 7 => "7" | 8 => "8" | 9 => "9" | 10 => "A" | 11 => "B"
  | 12 => "C" | 13 => "D" | 14 => "E" | _ => "F"
  end%N%char.

Definition hex_val (c : ascii) : option N :=
  let n := N_of_ascii c in
  if (48 <=? n)%N && (n <=? 57)%N then Some (n - 48)%N
  else if (65 <=? n)%N && (n <=? 70)%N then Some (n - 55)%N
  else if (97 <=? n)%N && (n <=? 102)%N then Some (n - 87)%N
  else None.

(** *** Writer *)

Definition write_char (c : ascii) (k : string) : string :=
  let n := N_of_ascii c in
  if Ascii.eqb c dquote then String backslash (String dquote k)
  else if Ascii.eqb c backslash then String backslash (String backslash k)
  else if (n =? 8)%N then String backslash (String "b" k)
  else if (n =? 12)%N then String backslash (String "f" k)
  else if (n =? 10)%N then String backslash (String "n" k)
  else if (n =? 13)%N then String backslash (String "r" k)
  else if (n =? 9)%N then String backslash (String "t" k)
  else if (n <? 32)%N || (127 <? n)%N then
    String backslash (String "u" (String "0" (String "0"
      (String (hex_upper (n / 16)) (String (hex_upper (n mod 16)) k)))))
  else String c k.

Fixpoint write_chars (s : string) (k : string) : string :=
  match s with
  | EmptyString => k
  | String c r => write_char c (write_chars r k)
  end.

Definition write_string (s : string) (k : string) : string :=
  String dquote (write_chars s (String dquote k)).

Fixpoint write_uint (d : Decimal.uint) (k : string) : string :=
  match d with
  | Decimal.Nil => k
  | Decimal.D0 d => String "0" (write_uint d k)
  | Decimal.D1 d => String "1" (write_uint d k)
  | Decimal.D2 d => String "2" (write_uint d k)
  | Decimal.D3 d => String "3" (write_uint d k)
  | Decimal.D4 d => String "4" (write_uint d k)
  | Decimal.D5 d => String "5" (write_uint d k)
  | Decimal.D6 d => String "6" (write_uint d k)
  | Decimal.D7 d => String "7" (write_uint d k)
  | Decimal.D8 d => String "8" (write_uint d k)
  | Decimal.D9 d => String "9" (write_uint d k)
  end.

Definition write_int (n : Z) (k : string) : string :=
  match Z.to_int n with
  | Decimal.Pos d => write_uint d k
  | Decimal.Neg d => String "-" (write_uint d k)
  end.

Fixpoint write_indent (lvl : nat) (k : string) : string :=
  match lvl with
  | O => k
  | S lvl' => String " " (write_indent lvl' k)
  end.

Definition write_nl (lvl : nat) (k : string) : string :=
  String newline (write_indent lvl k).

Fixpoint write (lvl : nat) (j : json) (k : string) {struct j} : string :=
  match j with
  | JNull => "null" +:+ k
  | JBool true => "true" +:+ k
  | JBool false => "false" +:+ k
  | JInt n => write_int n k
  | JStr s => write_string s k
  | JArr [] => "[]" +:+ k
  | JArr (x :: l) =>
      String "[" (write_nl (S lvl) (write (S lvl) x
        ((fix elems (l : list json) (k : string) : string :=
            match l with
            | [] => k
            | y :: l' =>
                String "," (write_nl (S lvl) (write (S lvl) y (elems l' k)))
            end) l (write_nl lvl (String "]" k)))))
  | JObj [] => "{}" +:+ k
  | JObj (kv :: kvs) =>
      String "{" (write_nl (S lvl) (write_string kv.1 (String ":" (String " "
        (write (S lvl) kv.2
          ((fix members (l : list (string * json)) (k : string) : string :=
              match l with
              | [] => k
              | kv :: l' =>
                  String "," (write_nl (S lvl) (write_string kv.1
                    (String ":" (String " "
                      (write (S lvl) kv.2 (members l' k))))))
              end) kvs (write_nl lvl (String "}" k))))))))
  end.

(** The two inner loops of [write], by name. *)
Fixpoint write_elems (lvl : nat) (l : list json) (k : string) : string :=
  match l with
  | [] => k
  | y :: l' =>
      String "," (write_nl (S lvl) (write (S lvl) y (write_elems lvl l' k)))
  end.

Fixpoint write_members (lvl : nat) (l : list (string * json)) (k : string) : string :=
  match l with
  | [] => k
  | kv :: l' =>
      String "," (write_nl (S lvl) (write_string kv.1
        (String ":" (String " "
          (write (S lvl) kv.2 (write_members lvl l' k))))))
  end.

(** [rapidjson.dumps(tree, indent=1)] *)
Definition dumps (j : json) : string := write 0 j "".

(** *** Reader *)

Definition is_ws (c : ascii) : bool :=
  let n := N_of_ascii c in
  (n =? 32)%N || (n =? 9)%N || (n =? 10)%N || (n =? 13)%N.

Fixpoint skip_ws (s : string) : string :=
  match s with
  | EmptyString => EmptyString
  | String c r => if is_ws c then skip_ws r else s
  end.

(** The rest of a literal such as [null]. *)
Fixpoint expect (lit s : string) : option string :=
  match lit, s with
  | EmptyString, _ => Some s
  | String a lit', String b s' => if Ascii.eqb a b then expect lit' s' else None
  | String _ _, EmptyString => None
  end.

Definition unescape (e : ascii) : option ascii :=
  if Ascii.eqb e dquote then Some dquote
  else if Ascii.eqb e backslash then Some backslash
  else if Ascii.eqb e "/" then Some "/"%char
  else if Ascii.eqb e "b" then Some "008"%char
  else if Ascii.eqb e "f" then Some "012"%char
  else if Ascii.eqb e "n" then Some "010"%char
  else if Ascii.eqb e "r" then Some "013"%char
  else if Ascii.eqb e "t" then Some "009"%char
  else None.

Definition unescape_u (a b c d : ascii) : option ascii :=
  match hex_val a, hex_val b, hex_val c, hex_val d with
  | Some 0%N, Some 0%N, Some h, Some l => Some (ascii_of_N (16 * h + l))
  | _, _, _, _ => None
  end.

(** The characters of a string up to its closing quote. *)
Fixpoint read_chars (s : string) : option (string * string) :=
  match s with
  | EmptyString => None
  | String c r =>
      if Ascii.eqb c dquote then Some (EmptyString, r)
      else if Ascii.eqb c backslash then
        match r with
        | String e r1 =>
            if Ascii.eqb e "u" then
              match r1 with
              | String a (String b (String c' (String d r2))) =>
                  match unescape_u a b c' d, read_chars r2 with
                  | Some x, Some (str, rest) => Some (String x str, rest)
                  | _, _ => None
                  end
              | _ => None
              end
            else
              match unescape e, read_chars r1 with
              | Some x, Some (str, rest) => Some (String x str, rest)
              | _, _ => None
              end
        | EmptyString => None
        end
      else if (N_of_ascii c <? 32)%N then None
      else
        match read_chars r with
        | Some (str, rest) => Some (String c str, rest)
        | None => None
        end
  end.

Definition digit (c : ascii) : option (Decimal.uint → Decimal.uint) :=
  if Ascii.eqb c "0" then Some Decimal.D0
  else if Ascii.eqb c "1" then Some Decimal.D1
  else if Ascii.eqb c "2" then Some Decimal.D2
  else if Ascii.eqb c "3" then Some Decimal.D3
  else if Ascii.eqb c "4" then Some Decimal.D4
  else if Ascii.eqb c "5" then Some Decimal.D5
  else if Ascii.eqb c "6" then Some Decimal.D6
  else if Ascii.eqb c "7" then Some Decimal.D7
  else if Ascii.eqb c "8" then Some Decimal.D8
  else if Ascii.eqb c "9" then Some Decimal.D9
  else None.

Fixpoint read_uint (s : string) : Decimal.uint * string :=
  match s with
  | EmptyString => (Decimal.Nil, EmptyString)
  | String c r =>
      match digit c with
      | Some mk => (mk (read_uint r).1, (read_uint r).2)
      | None => (Decimal.Nil, s)
      end
  end.

(** A fraction or an exponent would make the number a float. *)
Definition float_follows (s : string) : bool :=
  match s with
  | String c _ => Ascii.eqb c "." || Ascii.eqb c "e" || Ascii.eqb c "E"
  | EmptyString => false
  end.

Definition read_number (s : string) : option (json * string) :=
  match s with
  | String c r =>
      if Ascii.eqb c "-" then
        match read_uint r with
        | (Decimal.Nil, _) => None
        | (d, rest) =>
            if float_follows rest then None
            else Some (JInt (Z.of_int (Decimal.Neg d)), rest)
        end
      else
        match read_uint s with
        | (Decimal.Nil, _) => None
        | (d, rest) =>
            if float_follows rest then None
            else Some (JInt (Z.of_int (Decimal.Pos d)), rest)
        end
  | EmptyString => None
  end.

Definition starts_with (c : ascii) (s : string) : option string :=
  match s with
  | String c' r => if Ascii.eqb c c' then Some r else None
  | EmptyString => None
  end.

Fixpoint read_value (fuel : nat) (s : string) : option (json * string) :=
  match fuel with
  | O => None
  | S fuel =>
      match skip_ws s with
      | EmptyString => None
      | String c r =>
          if Ascii.eqb c "n" then
            match expect "ull" r with Some r' => Some (JNull, r') | None => None end
          else if Ascii.eqb c "t" then
            match expect "rue" r with Some r' => Some (JBool true, r') | None => None end
          else if Ascii.eqb c "f" then
            match expect "alse" r with Some r' => Some (JBool false, r') | None => None end
          else if Ascii.eqb c dquote then
            match read_chars r with
            | Some (str, r') => Some (JStr str, r')
            | None => None
            end
          else if Ascii.eqb c "[" then
            match starts_with "]" (skip_ws r) with
            | Some r' => Some (JArr [], r')
            | None =>
                match read_elems fuel r with
                | Some (l, r') => Some (JArr l, r')
                | None => None
                end
            end
          else if Ascii.eqb c "{" then
            match starts_with "}" (skip_ws r) with
            | Some r' => Some (JObj [], r')
            | None =>
                match read_members fuel r with
                | Some (l, r') => Some (JObj l, r')
                | None => None
                end
            end
          else read_number (String c r)
      end
  end
with read_elems (fuel : nat) (s : string) : option (list json * string) :=
  match fuel with
  | O => None
  | S fuel =>
      match read_value fuel s with
      | Some (v, r) =>
          match skip_ws r with
          | String c r' =>
              if Ascii.eqb c "," then
                match read_elems fuel r' with
                | Some (l, r'') => Some (v :: l, r'')
                | None => None
                end
              else if Ascii.eqb c "]" then Some ([v], r')
              else None
          | EmptyString => None
          end
      | None => None
      end
  end
with read_members (fuel : nat) (s : string) : option (list (string * json) * string) :=
  match fuel with
  | O => None
  | S fuel =>
      match starts_with dquote (skip_ws s) with
      | Some r =>
          match read_chars r with
          | Some (key, r1) =>
              match starts_with ":" (skip_ws r1) with
              | Some r2 =>
                  match read_value fuel r2 with
                  | Some (v, r3) =>
                      match skip_ws r3 with
                      | String c r4 =>
                          if Ascii.eqb c "," then
                            match read_members fuel r4 with
                            | Some (l, r5) => Some ((key, v) :: l, r5)
                            | None => None
                            end
                          else if Ascii.eqb c "}" then Some ([(key, v)], r4)
                          else None
                      | EmptyString => None
                      end
                  | None => None
                  end
              | None => None
              end
          | None => None
          end
      | None => None
      end
  end.

(** The tree of a whole text; only white space may follow the value. *)
Definition parse (s : string) : result json :=
  match read_value (S (String.length s)) s with
  | Some (j, r) =>
      match skip_ws r with
      | EmptyString => Ok j
      | String _ _ => Raise JSONDecodeError
      end
  | None => Raise JSONDecodeError
  end.

(** [rapidjson.loads(s, object_hook=hook)] *)
Definition loads_with (hook : list (string * pyval) → result pyval) (s : string) : result pyval :=
  rbind (parse s) (decode_with hook).

(** [rapidjson.loads(s)] *)
Definition loads (s : string) : result pyval := loads_with plain_hook s.

End rapidjson.

(** ** The codec of the module: [dumps] and [loads] *)

(** [dumps(obj)]: [json.dumps(obj, sort_keys=True, default=default, indent=1)] *)
Definition dumps (obj : pyval) : result string :=
  rbind (encode obj) (λ j, Ok (rapidjson.dumps j)).

(** [loads(s)]: [json.loads(s, object_hook=object_hook)] *)
Definition loads (s : string) : result pyval :=
  rapidjson.loads_with object_hook s.

Definition sample_doc : pyval :=
  PDict [("b", PList [PInt 1; PInt (-20)]); ("a", PSet [PStr "y"; PStr "x"]);
         ("c", PLazy "pr_json/7.json"); ("d", PDict []); ("e", PStr "q")].

(** ** The world: the working tree, the database and the calls made *)

(** A document of a MongoDB collection: [{"node": _, "value": _, "sha256": _}],
    filed under its [node]. *)
Record mongo_doc : Type := MongoDoc {
  doc_value : pyval;
  doc_sha256 : string;
}.

(** A call a client of the backends made, for counting reads and writes. *)
Inductive op : Type :=
  | OpHexists (name key : string)
  | OpHset (name key value : string)
  | OpHsetnx (name key value : string)
  | OpHmset (name : string) (mapping : gmap string string)
  | OpHmget (name : string) (keys : list string)
  | OpHdel (name : string) (keys : list string)
  | OpHkeys (name : string)
  | OpHget (name key : string)
  | OpHgetall (name : string) (hashval : bool).

(** What [subprocess.run(cmd, shell=True, capture_output=True)] comes
    back with: the completed process, with its return code and its
    captured output and errors as text, or the [OSError] of a shell that
    could not be started, with its message.  The captured bytes are taken
    to be UTF-8, so that [decode] gives their text. *)
Inductive completed : Type :=
  | CompletedProcess (returncode : Z) (stdout stderr : string)
  | NotStarted (msg : string).

(** What the system answers when a command line is handed to the shell:
    from the command lines run before, the command line and the files,
    what [subprocess.run] comes back with and what the command did to the
    files, path by path: the text written, or [None] for a file removed.
    What the programs keep beside the files, as the index of a repository,
    shows only through the answers; the earlier command lines are there
    for that. *)
Definition System : Type :=
  list string → string → gmap string string →
  completed * list (string * option string).

(** The files after the changes [changes], made in order. *)
Definition changed (changes : list (string * option string))
    (files : gmap string string) : gmap string string :=
  foldl (λ files change,
           match change.2 with
           | Some text => <[change.1 := text]> files
           | None => delete change.1 files
           end) files changes.

(** - [fs]: the regular files below the working directory, by relative path
      (directories are implicit: [os.makedirs] has nothing to record);
    - [cf_graph]: the collections of the database [cf_graph];
    - [_session]: the class attribute [MongoDBLazyJsonBackend._session];
    - [live_sessions]: the client sessions started and not yet ended;
    - [ended_sessions]: the sessions ended, with [true] for a commit;
    - [calls]: the backend calls made so far, oldest first;
    - [subprocess]: the system behind [subprocess.run(..., shell=True)];
    - [commands]: the command lines run so far, oldest first. *)
Record World : Type := mkWorld {
  fs : gmap string string;
  cf_graph : gmap string (gmap string mongo_doc);
  _session : option nat;
  live_sessions : list nat;
  ended_sessions : list (nat * bool);
  next_session : nat;
  calls : list (string * op);
  subprocess : System;
  commands : list string;
}.

Definition set_fs (f : gmap string string → gmap string string) (w : World) : World :=
  mkWorld (f (fs w)) (cf_graph w) (_session w) (live_sessions w)
    (ended_sessions w) (next_session w) (calls w) (subprocess w) (commands w).

Definition set_cf_graph
    (f : gmap string (gmap string mongo_doc) → gmap string (gmap string mongo_doc))
    (w : World) : World :=
  mkWorld (fs w) (f (cf_graph w)) (_session w) (live_sessions w)
    (ended_sessions w) (next_session w) (calls w) (subprocess w) (commands w).

Definition set_session (s : option nat) (w : World) : World :=
  mkWorld (fs w) (cf_graph w) s (live_sessions w)
    (ended_sessions w) (next_session w) (calls w) (subprocess w) (commands w).

Definition add_call (c : string * op) (w : World) : World :=
  mkWorld (fs w) (cf_graph w) (_session w) (live_sessions w)
    (ended_sessions w) (next_session w) (calls w ++ [c]) (subprocess w) (commands w).

Definition add_command (cmd : string) (w : World) : World :=
  mkWorld (fs w) (cf_graph w) (_session w) (live_sessions w)
    (ended_sessions w) (next_session w) (calls w) (subprocess w) (commands w ++ [cmd]).

(** The words of a command line that holds nothing but words and
    spaces. *)
Definition sh_word (cur : string) (words : list string) : list string :=
  match cur with
  | EmptyString => words
  | _ => String.rev cur :: words
  end.

Fixpoint sh_words_go (cur : string) (s : string) : list string :=
  match s with
  | EmptyString => sh_word cur []
  | String c r =>
      if Ascii.eqb c " " then sh_word cur (sh_words_go EmptyString r)
      else sh_words_go (String c cur) r
  end.
Definition sh_words (s : string) : list string := sh_words_go EmptyString s.

(** A stand-in system for the worked examples: a working directory that
    is no repository, and an [rm] that removes the files its words name. *)
Definition demo_system : System :=
  λ _ cmd _,
    match sh_words cmd with
    | "git" :: _ =>
        (CompletedProcess 128 ""
           "fatal: not a git repository (or any of the parent directories): .git", [])
    | "rm" :: "-f" :: paths => (CompletedProcess 0 "" "", (λ path, (path, None)) <$> paths)
    | _ => (CompletedProcess 127 "" "command not found", [])
    end.

Definition empty_world : World := mkWorld ∅ ∅ None [] [] 0 [] demo_system [].

(** Computations over a state [S] that return or raise; the state survives
    a raise, as the effects of a Python call survive its exception. *)
Definition ST (S A : Type) : Type := S → result A * S.

Definition ret {S A} (a : A) : ST S A := λ s, (Ok a, s).

Definition raise {S A} (e : exn) : ST S A := λ s, (Raise e, s).

Definition bind {S A B} (m : ST S A) (f : A → ST S B) : ST S B :=
  λ s, match m s with
       | (Ok a, s') => f a s'
       | (Raise e, s') => (Raise e, s')
       end.

Definition lift {S A} (r : result A) : ST S A := λ s, (r, s).

Definition modify {S} (f : S → S) : ST S unit := λ s, (Ok tt, f s).

Definition gets {S A} (f : S → A) : ST S A := λ s, (Ok (f s), s).

Declare Scope st_scope.
Delimit Scope st_scope with st.
Notation "'let*' x := m 'in' k" := (bind m (λ x, k))
  (at level 10, x pattern, m at level 100, k at level 200) : st_scope.
Notation "m >> k" := (bind m (λ _, k))
  (at level 90, right associativity) : st_scope.
Local Open Scope st_scope.

(** [for x in l: body x] *)
Definition for_each {S A} (body : A → ST S unit) : list A → ST S unit :=
  fix go (l : list A) : ST S unit :=
    match l with
    | [] => ret tt
    | x :: l' => body x >> go l'
    end.

(** [[f x for x in l]] *)
Definition map_each {S A B} (f : A → ST S B) : list A → ST S (list B) :=
  fix go (l : list A) : ST S (list B) :=
    match l with
    | [] => ret []
    | x :: l' => let* y := f x in let* ys := go l' in ret (y :: ys)
    end.

(** [for x in l: acc = body acc x] *)
Definition fold_each {S A B} (body : B → A → ST S B) : list A → B → ST S B :=
  fix go (l : list A) (acc : B) : ST S B :=
    match l with
    | [] => ret acc
    | x :: l' => let* acc' := body acc x in go l' acc'
    end.

Definition M (A : Type) : Type := ST World A.

(** ** The backends *)

(** An instance of a subclass of [LazyJsonBackend]: its methods. *)
Record LazyJsonBackend : Type := mkBackend {
  hexists : string → string → M bool;
  hset : string → string → string → M unit;
  hmset : string → gmap string string → M unit;
  hmget : string → list string → M (list string);
  hdel : string → list string → M unit;
  hkeys : string → M (list string);
  hget : string → string → M string;
  hgetall : string → bool → M (gmap string string);
}.

(** [LazyJsonBackend.hsetnx], inherited by both backends. *)
Definition hsetnx (self : LazyJsonBackend) (name key value : string) : M bool :=
  let* e := hexists self name key in
  if (e : bool) then ret false
  else hset self name key value >> ret true.

Definition CF_TICK_GRAPH_DATA_HASHMAPS : list string :=
  ["pr_json"; "pr_info"; "version_pr_info"; "versions"; "node_attrs"].

(** The components [parts] below a directory, each behind a separator. *)
Fixpoint slashed (parts : list string) : string :=
  match parts with
  | [] => ""
  | b :: parts' => String "/" (b +:+ slashed parts')
  end.

(** [f"{name}/{key}.json"] *)
Definition node_file (name key : string) : string :=
  name +:+ "/" +:+ key +:+ ".json".

Fixpoint str_startswith (pre s : string) : bool :=
  match pre, s with
  | EmptyString, _ => true
  | String a pre', String b s' => Ascii.eqb a b && str_startswith pre' s'
  | String _ _, EmptyString => false
  end.

(** [sub in s] *)
Fixpoint str_contains (sub s : string) : bool :=
  str_startswith sub s
  || match s with
     | EmptyString => false
     | String _ r => str_contains sub r
     end.

(** [sep.join(parts)] *)
Fixpoint str_join (sep : string) (parts : list string) : string :=
  match parts with
  | [] => ""
  | [part] => part
  | part :: rest => part +:+ sep +:+ str_join sep rest
  end.

(** [s[len(pre):]] when [s] starts with [pre]. *)
Fixpoint str_strip_prefix (pre s : string) : option string :=
  match pre, s with
  | EmptyString, _ => Some s
  | String a pre', String b s' =>
      if Ascii.eqb a b then str_strip_prefix pre' s' else None
  | String _ _, EmptyString => None
  end.

Definition str_endswith (suf s : string) : bool :=
  String.eqb (String.substring (String.length s - String.length suf)
                (String.length suf) s) suf
  && (String.length suf <=? String.length s)%nat.

(** The components of a relative path. *)
Fixpoint path_parts_go (cur : string) (s : string) : list string :=
  match s with
  | EmptyString => [String.rev cur]
  | String c r =>
      if os_path.is_sep c then String.rev cur :: path_parts_go EmptyString r
      else path_parts_go (String c cur) r
  end.
Definition path_parts (s : string) : list string := path_parts_go EmptyString s.

(** [glob] never matches a name that starts with a dot against a
    wildcard. *)
Definition is_hidden (s : string) : bool := str_startswith "." s.

(** [fnmatch(base, "*.json")] under the hidden-file rule of [glob]. *)
Definition matches_json (base : string) : bool :=
  negb (is_hidden base) && str_endswith ".json" base.

(** [glob.glob("*.json")]: the files of the working directory itself. *)
Definition glob_top (files : gmap string string) : list string :=
  filter (λ p, negb (os_path.has_sep p) && matches_json p) (map_to_list files).*1.

(** A path below [prefix] that the pattern [**/*.json] matches: through
    directories that are not hidden, down to a file that matches. *)
Definition matches_rec (prefix p : string) : bool :=
  match str_strip_prefix prefix p with
  | Some rel =>
      forallb (λ d, negb (is_hidden d) && negb (String.eqb d ""))
        (removelast (path_parts rel))
      && matches_json (from_option id "" (last (path_parts rel)))
  | None => false
  end.

(** [glob.glob(os.path.join(name, "**/*.json"), recursive=True)] *)
Definition glob_rec (name : string) (files : gmap string string) : list string :=
  let prefix := str_drop_end 9 (os_path.join name ["**/*.json"]) in
  filter (λ p, matches_rec prefix p) (map_to_list files).*1.

Definition reserved_names : list string :=
  ["ranked_hubs_authorities.json"; "all_feedstocks.json"].

Section lazy_json_backends.

(** [hashlib.sha1(s.encode("utf-8"))] as a number and
    [hashlib.sha256(s.encode("utf-8")).hexdigest()]. *)
Variable sha1 : string → N.
Variable sha256 : string → string.

(** [CF_TICK_GRAPH_DATA_BACKENDS]: [str.split] never returns an empty
    list, so the tuple is its first element and the rest. *)
Variable CF_TICK_GRAPH_DATA_PRIMARY_BACKEND : string.
Variable secondary_backends : list string.

Definition CF_TICK_GRAPH_DATA_BACKENDS : list string :=
  CF_TICK_GRAPH_DATA_PRIMARY_BACKEND :: secondary_backends.

(** [get_sharded_path(file_path)] with the default [n_dirs=5] *)
Definition get_sharded_path (file_path : string) : result string :=
  get_sharded_path_n sha1 file_path 5.

(** *** [FileLazyJsonBackend] *)

Definition file_hexists (name key : string) : M bool :=
  let* path := lift (get_sharded_path (node_file name key)) in
  gets (λ w, bool_decide (is_Some (fs w !! path))).

Definition file_hset (name key value : string) : M unit :=
  let* sharded_path := lift (get_sharded_path (node_file name key)) in
  modify (set_fs (λ files, <[sharded_path := value]> files)).

Definition file_hmset (name : string) (mapping : gmap string string) : M unit :=
  for_each (λ kv, file_hset name kv.1 kv.2) (map_to_list mapping).

Definition file_hget (name key : string) : M string :=
  let* sharded_path := lift (get_sharded_path (node_file name key)) in
  let* content := gets (λ w, fs w !! sharded_path) in
  match content with
  | Some data_str => ret data_str
  | None => raise (FileNotFoundError sharded_path)
  end.

Definition file_hmget (name : string) (keys : list string) : M (list string) :=
  map_each (file_hget name) keys.

(** [hkeys]: the catch-all hashmap lists the top of the working tree
    without the two reserved documents. *)
Definition file_hkeys (name : string) : M (list string) :=
  let jlen := String.length ".json" in
  let* fnames :=
    if String.eqb name "lazy_json" then
      gets (λ w, filter (λ f, f ∉ reserved_names) (glob_top (fs w)))
    else
      gets (λ w, glob_rec name (fs w)) in
  ret ((λ fname, str_drop_end jlen (os_path.basename fname)) <$> fnames).

Definition file_hgetall (name : string) (hashval : bool) : M (gmap string string) :=
  let* keys := file_hkeys name in
  let* items :=
    map_each (λ key,
      let* data_str := file_hget name key in
      ret (key, if hashval then sha256 data_str else data_str)) keys in
  ret (list_to_map (reverse items)).

(** [subprocess.run(cmd, shell=True, capture_output=True)] *)
Definition subprocess_run (cmd : string) : M (Z * string * string) :=
  λ w, let '(res, changes) := subprocess w (commands w) cmd (fs w) in
       let w' := add_command cmd (set_fs (changed changes) w) in
       match res with
       | CompletedProcess returncode stdout stderr => (Ok (returncode, stdout, stderr), w')
       | NotStarted msg => (Raise (OSError msg), w')
       end.

(** [str(e)] for the exceptions that the first command of [hdel] can
    meet. *)
Definition exn_str (e : exn) : string :=
  match e with
  | RuntimeError msg | OSError msg => msg
  | _ => ""
  end.

(** [hdel]: [git rm -f] on the sharded paths joined by spaces, whose
    failure is let through when its message speaks of no repository, and
    then [rm -f] on them with [check=True].  The locks around the first
    command have nothing to do in a single thread. *)
Definition file_hdel (name : string) (keys : list string) : M unit :=
  let* paths :=
    map_each (λ key, lift (get_sharded_path (node_file name key))) keys in
  let lzj_names := str_join " " paths in
  (λ w, match (let* res := subprocess_run ("git rm -f " +:+ lzj_names) in
               if res.1.1 =? 0 then ret tt
               else raise (RuntimeError (res.1.2 +:+ res.2))) w with
        | (Ok _, w') => (Ok tt, w')
        | (Raise e, w') =>
            if str_contains "not a git repository" (exn_str e) then (Ok tt, w')
            else (Raise e, w')
        end) >>
  let* res := subprocess_run ("rm -f " +:+ lzj_names) in
  if res.1.1 =? 0 then ret tt
  else raise (CalledProcessError res.1.1 ("rm -f " +:+ lzj_names)).

Definition FileLazyJsonBackend : LazyJsonBackend :=
  mkBackend file_hexists file_hset file_hmset file_hmget file_hdel
    file_hkeys file_hget file_hgetall.

(** *** [MongoDBLazyJsonBackend] *)

(** [assert name in CF_TICK_GRAPH_DATA_HASHMAPS or name == "lazy_json"] *)
Definition assert_hashmap (name : string) : M unit :=
  if bool_decide (name ∈ CF_TICK_GRAPH_DATA_HASHMAPS) || String.eqb name "lazy_json"
  then ret tt else raise AssertionError.

(** [self._get_collection(name)]: a collection that was never written
    is empty. *)
Definition _get_collection (name : string) : M (gmap string mongo_doc) :=
  gets (λ w, from_option id ∅ (cf_graph w !! name)).

Definition mongo_hgetall (name : string) (hashval : bool) : M (gmap string string) :=
  assert_hashmap name >>
  let* coll := _get_collection name in
  if hashval then ret (doc_sha256 <$> coll)
  else
    let* items :=
      map_each (λ d, let* s := lift (dumps (doc_value d.2)) in ret (d.1, s))
        (map_to_list coll) in
    ret (list_to_map items).

Definition mongo_hexists (name key : string) : M bool :=
  assert_hashmap name >>
  let* coll := _get_collection name in
  ret (bool_decide (is_Some (coll !! key))).

(** [$set] with [upsert=True] on the document whose [node] is [key]. *)
Definition upsert (name key : string) (d : mongo_doc) : World → World :=
  set_cf_graph (λ db, <[name := <[key := d]> (from_option id ∅ (db !! name))]> db).

Definition mongo_hset (name key value : string) : M unit :=
  assert_hashmap name >>
  let* v := lift (rapidjson.loads value) in
  modify (upsert name key (MongoDoc v (sha256 value))).

Definition mongo_hmset (name : string) (mapping : gmap string string) : M unit :=
  assert_hashmap name >>
  let* requests :=
    map_each (λ kv,
      let* v := lift (rapidjson.loads kv.2) in
      ret (kv.1, MongoDoc v (sha256 kv.2))) (map_to_list mapping) in
  match requests with
  | [] => raise InvalidOperation
  | _ => for_each (λ r, modify (upsert name r.1 r.2)) requests
  end.

Definition mongo_hmget (name : string) (keys : list string) : M (list string) :=
  assert_hashmap name >>
  let* coll := _get_collection name in
  let* odata :=
    map_each (λ d, let* s := lift (dumps (doc_value d.2)) in ret (d.1, s))
      (filter (λ d, d.1 ∈ keys) (map_to_list coll)) in
  map_each (λ k, lift (dict_get k odata)) keys.

Definition mongo_hdel (name : string) (keys : list string) : M unit :=
  assert_hashmap name >>
  for_each (λ key,
    modify (set_cf_graph (λ db, <[name := delete key (from_option id ∅ (db !! name))]> db)))
    keys.

Definition mongo_hkeys (name : string) : M (list string) :=
  assert_hashmap name >>
  let* coll := _get_collection name in
  ret (map_to_list coll).*1.

Definition mongo_hget (name key : string) : M string :=
  assert_hashmap name >>
  let* coll := _get_collection name in
  match coll !! key with
  | Some data => lift (dumps (doc_value data))
  | None => raise AssertionError
  end.

Definition MongoDBLazyJsonBackend : LazyJsonBackend :=
  mkBackend mongo_hexists mongo_hset mongo_hmset mongo_hmget mongo_hdel
    mongo_hkeys mongo_hget mongo_hgetall.

(** [LAZY_JSON_BACKENDS[backend_name]()] *)
Definition LAZY_JSON_BACKENDS (backend_name : string) : M LazyJsonBackend :=
  if String.eqb backend_name "file" then ret FileLazyJsonBackend
  else if String.eqb backend_name "mongodb" then ret MongoDBLazyJsonBackend
  else raise (KeyError backend_name).

(** A call through [LAZY_JSON_BACKENDS[backend_name]()], recorded. *)
Definition invoke {A} (backend_name : string) (o : op)
    (method : LazyJsonBackend → M A) : M A :=
  let* backend := LAZY_JSON_BACKENDS backend_name in
  modify (add_call (backend_name, o)) >> method backend.

(** *** [MongoDBLazyJsonBackend.transaction_context]

    The generator runs up to its [yield] on entry and from its [yield] on
    exit; a [frame] remembers in which branch it is suspended. *)

Inductive frame : Type :=
  | Opened (session : nat)
  | Reused.

Definition start_session (w : World) : World :=
  mkWorld (fs w) (cf_graph w) (_session w) (next_session w :: live_sessions w)
    (ended_sessions w) (S (next_session w)) (calls w) (subprocess w) (commands w).

(** Leaving [session.start_transaction()] commits or aborts, and leaving
    [client.start_session()] ends the session. *)
Definition end_session (session : nat) (commit : bool) (w : World) : World :=
  mkWorld (fs w) (cf_graph w) (_session w)
    (filter (λ s, s ≠ session) (live_sessions w))
    (ended_sessions w ++ [(session, commit)]) (next_session w) (calls w)
    (subprocess w) (commands w).

Definition transaction_enter : M frame :=
  let* current := gets _session in
  match current with
  | None =>
      let* session := gets next_session in
      modify start_session >>
      modify (set_session (Some session)) >>
      ret (Opened session)
  | Some _ => ret Reused
  end.

(** [raised] tells whether an exception came out of the body. *)
Definition transaction_exit (f : frame) (raised : bool) : M unit :=
  match f with
  | Opened session =>
      (if raised then ret tt else modify (set_session None)) >>
      modify (end_session session (negb raised)) >>
      modify (set_session None)
  | Reused => modify (set_session None)
  end.

(** One step of a program that only enters and leaves scopes. *)
Inductive scope_event : Type :=
  | Enter
  | Exit (raised : bool).

(** The scopes entered and not yet left, innermost first.  Leaving with
    no scope entered is no run of a program. *)
Fixpoint run_scopes (evs : list scope_event) (stack : list frame) (w : World)
    : option (list frame * World) :=
  match evs with
  | [] => Some (stack, w)
  | Enter :: evs' =>
      match transaction_enter w with
      | (Ok f, w') => run_scopes evs' (f :: stack) w'
      | (Raise _, _) => None
      end
  | Exit raised :: evs' =>
      match stack with
      | f :: stack' => run_scopes evs' stack' (transaction_exit f raised w).2
      | [] => None
      end
  end.

(** *** The synchronisation of the secondaries with the primary *)

(** [node not in backend_hashes or backend_hashes[node] != primary_hashes[node]],
    for a [node] of [primary_hashes]. *)
Definition out_of_sync (backend_hashes primary_hashes : gmap string string)
    (node : string) : bool :=
  match backend_hashes !! node with
  | None => true
  | Some h => bool_decide (Some h ≠ primary_hashes !! node)
  end.

(** [s.pop()]: some element, here the first in the order of [elements]. *)
Definition set_pop (s : gset string) : result (string * gset string) :=
  match elements s with
  | [] => Raise (KeyError "pop from an empty set")
  | x :: _ => Ok (x, s ∖ {[x]})
  end.

(** [[s.pop() for _ in range(n)]] *)
Fixpoint pop_n (n : nat) (s : gset string) : result (list string * gset string) :=
  match n with
  | O => Ok ([], s)
  | S n' =>
      rbind (set_pop s) (λ xs,
        rbind (pop_n n' xs.2) (λ ls, Ok (xs.1 :: ls.1, ls.2)))
  end.

(** The first loop over the secondaries: read the hashes, delete what the
    primary does not have, collect what is out of sync. *)
Definition scan_secondary (hashmap : string) (primary_hashes : gmap string string)
    (acc : gset string * gmap string (gmap string string)) (backend_name : string)
    : M (gset string * gmap string (gmap string string)) :=
  let* hashes :=
    invoke backend_name (OpHgetall hashmap true) (λ b, hgetall b hashmap true) in
  let backend_hashes := <[backend_name := hashes]> acc.2 in
  let curr_nodes := dom hashes in
  let del_nodes := curr_nodes ∖ dom primary_hashes in
  (if bool_decide (del_nodes = ∅) then ret tt
   else invoke backend_name (OpHdel hashmap (elements del_nodes))
          (λ b, hdel b hashmap (elements del_nodes))) >>
  ret (acc.1 ∪ filter (λ n, out_of_sync hashes primary_hashes n) (dom primary_hashes),
       backend_hashes).

(** The push of one batch to one secondary. *)
Definition push_batch (hashmap : string) (primary_hashes : gmap string string)
    (backend_hashes : gmap string (gmap string string))
    (batch : gmap string string) (backend_name : string) : M unit :=
  let* hashes :=
    lift (match backend_hashes !! backend_name with
          | Some h => Ok h
          | None => Raise (KeyError backend_name)
          end) in
  let _batch := filter (λ kv, out_of_sync hashes primary_hashes kv.1) batch in
  if bool_decide (_batch = ∅) then ret tt
  else invoke backend_name (OpHmset hashmap _batch) (λ b, hmset b hashmap _batch).

(** [while all_nodes_to_get: ...] *)
Fixpoint fetch_loop (fuel : nat) (hashmap : string) (n_per_batch : Z)
    (primary_backend : LazyJsonBackend)
    (primary_hashes : gmap string string)
    (backend_hashes : gmap string (gmap string string))
    (all_nodes_to_get : gset string) : M unit :=
  if bool_decide (all_nodes_to_get = ∅) then ret tt
  else
    match fuel with
    | O => raise OutOfFuel
    | S fuel' =>
        let* popped :=
          lift (pop_n (Z.to_nat (Z.min (Z.of_nat (size all_nodes_to_get)) n_per_batch))
                  all_nodes_to_get) in
        let nodes_to_get := popped.1 in
        let* values :=
          modify (add_call (CF_TICK_GRAPH_DATA_PRIMARY_BACKEND,
                            OpHmget hashmap nodes_to_get)) >>
          hmget primary_backend hashmap nodes_to_get in
        let batch := list_to_map (reverse (zip nodes_to_get values)) in
        for_each (push_batch hashmap primary_hashes backend_hashes batch)
          secondary_backends >>
        fetch_loop fuel' hashmap n_per_batch primary_backend primary_hashes
          backend_hashes popped.2
    end.

(** [_sync_hashmap(hashmap, n_per_batch, primary_backend)] *)
Definition _sync_hashmap (fuel : nat) (hashmap : string) (n_per_batch : Z)
    (primary_backend : LazyJsonBackend) : M unit :=
  let* primary_hashes :=
    modify (add_call (CF_TICK_GRAPH_DATA_PRIMARY_BACKEND, OpHgetall hashmap true)) >>
    hgetall primary_backend hashmap true in
  let* scanned :=
    fold_each (scan_secondary hashmap primary_hashes) secondary_backends (∅, ∅) in
  fetch_loop fuel hashmap n_per_batch primary_backend primary_hashes
    scanned.2 scanned.1.

Definition ordered_collections : list string :=
  ["lazy_json"; "node_attrs"; "pr_info"; "version_pr_info"; "pr_json"; "versions"].

(** [list(all_collections - set(ordered_collections))] *)
Definition rest_of_the_collections : list string :=
  filter (λ c, c ∉ ordered_collections)
    (elements (list_to_set (C := gset string)
                 (CF_TICK_GRAPH_DATA_HASHMAPS ++ ["lazy_json"]))).

(** [sync_lazy_json_across_backends(batch_size=5000)] *)
Definition sync_lazy_json_across_backends (fuel : nat) (batch_size : Z) : M unit :=
  if (1 <? length CF_TICK_GRAPH_DATA_BACKENDS)%nat then
    let* primary_backend := LAZY_JSON_BACKENDS CF_TICK_GRAPH_DATA_PRIMARY_BACKEND in
    for_each (λ hashmap, _sync_hashmap fuel hashmap batch_size primary_backend)
      (ordered_collections ++ rest_of_the_collections)
  else ret tt.

(** [remove_key_for_hashmap(name, node)] *)
Definition remove_key_for_hashmap (name node : string) : M unit :=
  for_each (λ backend_name,
    invoke backend_name (OpHdel name [node]) (λ b, hdel b name [node]))
    CF_TICK_GRAPH_DATA_BACKENDS.

(** [get_all_keys_for_hashmap(name)] *)
Definition get_all_keys_for_hashmap (name : string) : M (list string) :=
  invoke CF_TICK_GRAPH_DATA_PRIMARY_BACKEND (OpHkeys name) (λ b, hkeys b name).

(** *** [LazyJson] *)

Record LazyJson : Type := mkLazyJson {
  file_name : string;
  _data : option pyval;
  _data_hash_at_load : option string;
  _in_context : bool;
  hashmap : string;
  node : string;
  _override_backends : option (list string);
}.

Definition set_data (d : option pyval) (self : LazyJson) : LazyJson :=
  mkLazyJson (file_name self) d (_data_hash_at_load self) (_in_context self)
    (hashmap self) (node self) (_override_backends self).

Definition set_data_hash_at_load (h : option string) (self : LazyJson) : LazyJson :=
  mkLazyJson (file_name self) (_data self) h (_in_context self)
    (hashmap self) (node self) (_override_backends self).

Definition set_in_context (b : bool) (self : LazyJson) : LazyJson :=
  mkLazyJson (file_name self) (_data self) (_data_hash_at_load self) b
    (hashmap self) (node self) (_override_backends self).

Definition set_override_backends (o : option (list string)) (self : LazyJson) : LazyJson :=
  mkLazyJson (file_name self) (_data self) (_data_hash_at_load self)
    (_in_context self) (hashmap self) (node self) o.

(** A method: a computation over the object and the world. *)
Definition Method (A : Type) : Type := ST (LazyJson * World) A.

Definition self_get {A} (f : LazyJson → A) : Method A := gets (λ s, f s.1).

Definition self_set (f : LazyJson → LazyJson) : Method unit :=
  modify (λ s, (f s.1, s.2)).

(** A computation on the world alone, run from inside a method. *)
Definition world {A} (m : M A) : Method A :=
  λ s, let '(r, w) := m s.2 in (r, (s.1, w)).

(** [assert cond] *)
Definition assert {S} (cond : bool) : ST S unit :=
  if cond then ret tt else raise AssertionError.

(** [dumps({})] *)
Definition empty_document : result string := dumps (PDict []).

(** [LazyJson.__init__]: the fields, then the file kept for backward
    compatibility when the primary backend is the file backend. *)
Definition new_LazyJson (file_name : string) : LazyJson :=
  let fparts := os_path.split file_name in
  let jlen := String.length ".json" in
  if (0 <? String.length fparts.1)%nat then
    mkLazyJson file_name None None false fparts.1 (str_drop_end jlen fparts.2) None
  else
    mkLazyJson file_name None None false "lazy_json" (str_drop_end jlen file_name) None.

Definition LazyJson_init (file_name : string) : M LazyJson :=
  let self := new_LazyJson file_name in
  (if String.eqb CF_TICK_GRAPH_DATA_PRIMARY_BACKEND "file" then
     let* empty := lift empty_document in
     invoke CF_TICK_GRAPH_DATA_PRIMARY_BACKEND
       (OpHsetnx (hashmap self) (node self) empty)
       (λ b, hsetnx b (hashmap self) (node self) empty) >> ret tt
   else ret tt) >>
  ret self.

(** The file names [object_hook] hands to [LazyJson(...)] while a tree
    is decoded, in order; decoding stops at the first member that
    raises. *)
Definition lazy_inits : json → list string :=
  fix go (j : json) : list string :=
    match j with
    | JArr l =>
        (fix elems (l : list json) : list string :=
           match l with
           | [] => []
           | x :: l' =>
               go x ++ (if is_ok (decode_with object_hook x) then elems l' else [])
           end) l
    | JObj kvs =>
        (fix members (l : list (string * json)) : list string :=
           match l with
           | [] => []
           | kv :: l' =>
               go kv.2 ++
               (if is_ok (decode_with object_hook kv.2) then members l' else [])
           end) kvs ++
        match rmapM (λ kv, rbind (decode_with object_hook kv.2) (λ v, Ok (kv.1, v))) kvs with
        | Ok items =>
            match dict_get "__lazy_json__" (dict_of_items items) with
            | Ok (PStr f) => [f]
            | _ => []
            end
        | Raise _ => []
        end
    | _ => []
    end.

(** [loads(data_str)] inside a method: the value, and the constructor
    of every handle that the hook built.  The constructors of a text that
    does not parse are not replayed. *)
Definition loads_in_world (data_str : string) : M pyval :=
  let* j := lift (rapidjson.parse data_str) in
  for_each (λ f, LazyJson_init f >> ret tt) (lazy_inits j) >>
  lift (decode_with object_hook j).

(** [override[0]] *)
Definition first_backend (names : list string) : result string :=
  match names with
  | [] => Raise IndexError
  | n :: _ => Ok n
  end.

(** [LazyJson._load] *)
Definition _load : Method unit :=
  let* data := self_get _data in
  match data with
  | Some _ => ret tt
  | None =>
      let* name := self_get hashmap in
      let* key := self_get node in
      let* cached := world (invoke "file" (OpHexists name key) (λ b, hexists b name key)) in
      let* data_str :=
        if (cached : bool) then
          world (invoke "file" (OpHget name key) (λ b, hget b name key))
        else
          let* override := self_get _override_backends in
          let* primary_backend_name :=
            match override with
            | Some names => lift (first_backend names)
            | None => ret CF_TICK_GRAPH_DATA_PRIMARY_BACKEND
            end in
          let* empty := lift empty_document in
          let* _ := world (invoke primary_backend_name (OpHsetnx name key empty)
                             (λ b, hsetnx b name key empty)) in
          let* data_str :=
            world (invoke primary_backend_name (OpHget name key)
                     (λ b, hget b name key)) in
          (if negb (String.eqb primary_backend_name "file") then
             world (invoke "file" (OpHset name key data_str)
                      (λ b, hset b name key data_str))
           else ret tt) >>
          ret data_str in
      self_set (set_data_hash_at_load (Some (sha256 data_str))) >>
      let* v := world (loads_in_world data_str) in
      self_set (set_data (Some v))
  end.

(** [self._data] once [_load] has run; [assert self._data is not None]. *)
Definition loaded_data : Method pyval :=
  let* data := self_get _data in
  match data with
  | Some v => ret v
  | None => raise AssertionError
  end.

(** [LazyJson._dump(purge=False, force=False)] *)
Definition _dump (purge force : bool) : Method unit :=
  _load >>
  let* data := loaded_data in
  let* data_str := lift (dumps data) in
  let curr_hash := sha256 data_str in
  let* hash_at_load := self_get _data_hash_at_load in
  (if bool_decide (Some curr_hash ≠ hash_at_load) || force then
     self_set (set_data_hash_at_load (Some curr_hash)) >>
     let* name := self_get hashmap in
     let* key := self_get node in
     world (invoke "file" (OpHset name key data_str)
              (λ b, hset b name key data_str)) >>
     let* override := self_get _override_backends in
     let backend_names :=
       match override with
       | Some names => names
       | None => CF_TICK_GRAPH_DATA_BACKENDS
       end in
     for_each (λ backend_name,
       if String.eqb backend_name "file" then ret tt
       else world (invoke backend_name (OpHset name key data_str)
                     (λ b, hset b name key data_str)))
       backend_names
   else ret tt) >>
  (if purge then
     self_set (set_data None) >> self_set (set_data_hash_at_load None)
   else ret tt).


(** [self._data[key] = value], [del self._data[key]], [self._data.clear()]
    and [self._data[key]] on the value a document holds.  A value that is
    itself a handle forwards to a handle that is in no edit scope. *)
Definition py_setitem (key : string) (value : pyval) (d : pyval) : result pyval :=
  match d with
  | PDict kvs => Ok (PDict (dict_set key value kvs))
  | PLazy _ => Raise AssertionError
  | _ => Raise (TypeError "object does not support item assignment")
  end.

Definition py_delitem (key : string) (d : pyval) : result pyval :=
  match d with
  | PDict kvs => rbind (dict_del key kvs) (λ kvs', Ok (PDict kvs'))
  | PLazy _ => Raise AssertionError
  | _ => Raise (TypeError "object does not support item deletion")
  end.

Definition py_clear (d : pyval) : result pyval :=
  match d with
  | PDict _ => Ok (PDict [])
  | PList _ => Ok (PList [])
  | PSet _ => Ok (PSet [])
  | PLazy _ => Raise AssertionError
  | _ => Raise AttributeError
  end.

Definition py_getitem (key : string) (d : pyval) : result pyval :=
  match d with
  | PDict kvs => dict_get key kvs
  | PLazy _ => Raise NotImplementedError
  | _ => Raise (TypeError "indices must be integers")
  end.

(** [LazyJson.__setitem__] *)
Definition __setitem__ (key : string) (value : pyval) : Method unit :=
  let* ctx := self_get _in_context in
  assert ctx >>
  _load >>
  let* data := loaded_data in
  let* data' := lift (py_setitem key value data) in
  self_set (set_data (Some data')).

(** [LazyJson.__delitem__] *)
Definition __delitem__ (v : string) : Method unit :=
  let* ctx := self_get _in_context in
  assert ctx >>
  _load >>
  let* data := loaded_data in
  let* data' := lift (py_delitem v data) in
  self_set (set_data (Some data')).

(** [LazyJson.clear] *)
Definition clear : Method unit :=
  let* ctx := self_get _in_context in
  assert ctx >>
  _load >>
  let* data := self_get _data in
  match data with
  | Some d =>
      let* data' := lift (py_clear d) in
      self_set (set_data (Some data'))
  | None => raise AttributeError
  end.

(** [LazyJson.__getitem__] *)
Definition __getitem__ (item : string) : Method pyval :=
  _load >>
  let* data := loaded_data in
  lift (py_getitem item data).

(** [LazyJson.__enter__] *)
Definition __enter__ : Method unit := self_set (set_in_context true).

(** [LazyJson.__exit__] *)
Definition __exit__ : Method unit :=
  _dump true false >> self_set (set_in_context false).

(** [with self as lzj: body]: [__exit__] also runs when the body raises,
    and returns nothing, so the exception of the body goes on. *)
Definition edit_scope {A} (body : Method A) : Method A :=
  __enter__ >>
  λ s, match body s with
       | (Ok a, s') => (__exit__ >> ret a) s'
       | (Raise e, s') => (__exit__ >> raise e) s'
       end.

End lazy_json_backends.

(** ** Notions used in the statements *)

(** The scalars: what a set can hold. *)
Definition is_scalar (v : pyval) : bool :=
  match v with
  | PNone | PBool _ | PInt _ | PStr _ => true
  | _ => false
  end.

Definition hash_of (v : pyval) : hkey :=
  match v with
  | PBool b => HNum (if b then 1 else 0)
  | PInt n => HNum n
  | PStr s => HStr s
  | _ => HNone
  end.

(** A set of Python: scalars, pairwise different under [==], that
    [sorted] can compare. *)
Definition set_okb (elts : list pyval) : bool :=
  forallb is_scalar elts && bool_decide (NoDup (hash_of <$> elts))
  && ((length elts <=? 1)%nat || forallb is_str elts || forallb is_num elts).

(** A document value that comes back from its own text: dictionaries
    have distinct keys, none of them a marker of the codec, and sets are
    sets. *)
Fixpoint doc_okb (v : pyval) : bool :=
  match v with
  | PList l => forallb doc_okb l
  | PDict kvs =>
      bool_decide (NoDup kvs.*1)
      && negb (dict_mem "__lazy_json__" kvs) && negb (dict_mem "__set__" kvs)
      && forallb (λ kv, doc_okb kv.2) kvs
  | PSet elts => set_okb elts
  | _ => true
  end.

Definition doc_ok (v : pyval) : Prop := doc_okb v = true.

(** [sorted(obj)] when it does not raise. *)
Definition sorted_elts (elts : list pyval) : list pyval :=
  match py_sorted elts with
  | Ok l => l
  | Raise _ => elts
  end.

(** The normal form of a value: dictionaries by sorted key and sets by
    sorted element, which Python's [==] does not tell from the value. *)
Fixpoint canon (v : pyval) : pyval :=
  match v with
  | PList l => PList (canon <$> l)
  | PDict kvs => PDict (sort_items ((λ kv, (kv.1, canon kv.2)) <$> kvs))
  | PSet elts => PSet (sorted_elts elts)
  | _ => v
  end.

Definition atom_tree (v : pyval) : json :=
  match v with
  | PBool b => JBool b
  | PInt n => JInt n
  | PStr s => JStr s
  | _ => JNull
  end.

(** The tree that [encode] builds when it does not raise. *)
Fixpoint tree (v : pyval) : json :=
  match v with
  | PNone => JNull
  | PBool b => JBool b
  | PInt n => JInt n
  | PStr s => JStr s
  | PList l => JArr (tree <$> l)
  | PDict kvs => JObj (sort_items ((λ kv, (kv.1, tree kv.2)) <$> kvs))
  | PSet elts =>
      JObj [("__set__", JBool true); ("elements", JArr (atom_tree <$> sorted_elts elts))]
  | PLazy file_name => JObj [("__lazy_json__", JStr file_name)]
  end.

(** Equality of values as Python sees it: a dictionary is the map from
    its keys, a set is its elements, a handle is its file name. *)
#[warnings="-register-all"]
Inductive py_equiv : pyval → pyval → Prop :=
  | equiv_none : py_equiv PNone PNone
  | equiv_bool b : py_equiv (PBool b) (PBool b)
  | equiv_int n : py_equiv (PInt n) (PInt n)
  | equiv_str s : py_equiv (PStr s) (PStr s)
  | equiv_lazy f : py_equiv (PLazy f) (PLazy f)
  | equiv_list l1 l2 : Forall2 py_equiv l1 l2 → py_equiv (PList l1) (PList l2)
  | equiv_dict d1 d2 d2' :
      Forall2 (λ a b, a.1 = b.1 ∧ py_equiv a.2 b.2) d1 d2' → d2' ≡ₚ d2 →
      py_equiv (PDict d1) (PDict d2)
  | equiv_set e1 e2 : e1 ≡ₚ e2 → py_equiv (PSet e1) (PSet e2).

(** Every object of a tree has its keys in strictly increasing order. *)
Fixpoint keys_sorted (j : json) : Prop :=
  match j with
  | JArr l => foldr (λ y P, keys_sorted y ∧ P) True l
  | JObj kvs =>
      Sorted (strict String.le) kvs.*1
      ∧ foldr (λ kv P, keys_sorted kv.2 ∧ P) True kvs
  | _ => True
  end.

(** The number of nodes of a tree, each member counted once more: enough
    fuel to read it back. *)
Fixpoint jsize (j : json) : nat :=
  match j with
  | JArr l => S (foldr (λ y n, S (jsize y + n)) O l)
  | JObj kvs => S (foldr (λ kv n, S (jsize kv.2 + n)) O kvs)
  | _ => 1
  end.

(** The fuel that a list of elements or of members takes. *)
Definition lsize (l : list json) : nat := foldr (λ y n, S (jsize y + n)) O l.
Definition msize (l : list (string * json)) : nat :=
  foldr (λ kv n, S (jsize kv.2 + n)) O l.

(** A text whose first character is no white space. *)
Definition solid (s : string) : Prop :=
  match s with
  | EmptyString => False
  | String c _ => rapidjson.is_ws c = false
  end.

(** A text that cannot continue a number. *)
Definition number_end (k : string) : Prop :=
  match k with
  | EmptyString => True
  | String c _ =>
      rapidjson.digit c = None ∧ rapidjson.float_follows (String c EmptyString) = false
  end.

(** What reading a written tree back means, for one tree. *)
Definition reads_back (j : json) : Prop :=
  ∀ lvl k fuel, (jsize j ≤ fuel)%nat → number_end k →
    rapidjson.read_value fuel (rapidjson.write lvl j k) = Some (j, k).

Definition valid_hashmap (name : string) : bool :=
  bool_decide (name ∈ CF_TICK_GRAPH_DATA_HASHMAPS) || String.eqb name "lazy_json".

(** The collection [name] of the database. *)
Definition collection (name : string) (w : World) : gmap string mongo_doc :=
  from_option id ∅ (cf_graph w !! name).

(** A text that the database hands back as it received it: the text of a
    plain document, in the form [dumps] gives it. *)
Definition canonical_text (value : string) : Prop :=
  ∃ v, rapidjson.loads value = Ok v ∧ dumps v = Ok value.

(** The path of the file of a node ([""] stands for a path that cannot be
    built, of which there is none). *)
Definition sharded_file (sha1 : string → N) (name key : string) : string :=
  match get_sharded_path sha1 (node_file name key) with
  | Ok path => path
  | Raise _ => ""
  end.

(** The backends a flush of [self] writes to. *)
Definition active_backends (primary : string) (secondaries : list string)
    (self : LazyJson) : list string :=
  match _override_backends self with
  | Some names => names
  | None => CF_TICK_GRAPH_DATA_BACKENDS primary secondaries
  end.

(** A name of [LAZY_JSON_BACKENDS]. *)
Definition known_backend (backend_name : string) : Prop :=
  backend_name = "file" ∨ backend_name = "mongodb".

(** *** What a backend holds, as the synchronisation sees it *)

(** [os.path.basename(fname)[:-jlen]] *)
Definition key_of (fname : string) : string :=
  str_drop_end (String.length ".json") (os_path.basename fname).

(** The paths that [hkeys] of the file backend lists for a hashmap. *)
Definition listable (name p : string) : bool :=
  if String.eqb name "lazy_json" then
    negb (os_path.has_sep p) && matches_json p && bool_decide (p ∉ reserved_names)
  else matches_rec (str_drop_end 9 (os_path.join name ["**/*.json"])) p.

Definition listing (name : string) (files : gmap string string) : list string :=
  if String.eqb name "lazy_json" then
    filter (λ f, f ∉ reserved_names) (glob_top files)
  else glob_rec name files.

(** A key under which the file backend finds again the file it wrote. *)
Definition file_key (sha1 : string → N) (name key : string) : bool :=
  listable name (sharded_file sha1 name key)
  && String.eqb (key_of (sharded_file sha1 name key)) key.

(** Every file that [hkeys] lists stands where [get_sharded_path] puts
    the file of its key. *)
Definition tree_ok (sha1 : string → N) (name : string) (files : gmap string string) : Prop :=
  ∀ p, is_Some (files !! p) → listable name p = true →
    sharded_file sha1 name (key_of p) = p.

(** Every file that [hkeys] lists holds a JSON text. *)
Definition tree_json (name : string) (files : gmap string string) : Prop :=
  ∀ p s, files !! p = Some s → listable name p = true → is_ok (rapidjson.loads s) = true.

(** The map from the keys of the file backend to [f] of their texts. *)
Definition file_view (f : string → string) (name : string)
    (files : gmap string string) : gmap string string :=
  list_to_map (reverse ((λ p, (key_of p, f (from_option id "" (files !! p))))
                          <$> listing name files)).

(** Every document of the collection carries the hash of the text that
    [hget] returns for it. *)
Definition db_ok (sha256 : string → string) (name : string) (w : World) : Prop :=
  ∀ k d, collection name w !! k = Some d →
    ∃ s, dumps (doc_value d) = Ok s ∧ doc_sha256 d = sha256 s.

(** The map [{key: hash}] of a backend: what [hgetall(name, hashval=True)]
    returns when it returns. *)
Definition hashes_of (sha256 : string → string) (backend_name name : string)
    (w : World) : gmap string string :=
  if String.eqb backend_name "file" then file_view sha256 name (fs w)
  else doc_sha256 <$> collection name w.

(** The map [{key: text}] of a backend: what [hget] returns key by key. *)
Definition texts_of (backend_name name : string) (w : World) : gmap string string :=
  if String.eqb backend_name "file" then file_view id name (fs w)
  else omap (λ d, match dumps (doc_value d) with Ok s => Some s | Raise _ => None end)
         (collection name w).

(** The instance behind a known name. *)
Definition backend_of (sha1 : string → N) (sha256 : string → string)
    (backend_name : string) : LazyJsonBackend :=
  if String.eqb backend_name "file" then FileLazyJsonBackend sha1 sha256
  else MongoDBLazyJsonBackend sha256.

(** What the synchronisation needs of a backend it writes to: a tree laid
    out as [get_sharded_path] lays it out, or a collection of the
    database. *)
Definition secondary_ok (sha1 : string → N) (backend_name name : string) (w : World) : Prop :=
  if String.eqb backend_name "file" then tree_ok sha1 name (fs w)
  else valid_hashmap name = true.

(** What it needs of the backend it reads from: moreover the hash of a
    document is the hash of the text that is read, and, when [json_texts]
    is asked for, the files hold JSON texts. *)
Definition primary_ok (sha1 : string → N) (sha256 : string → string) (json_texts : bool)
    (backend_name name : string) (w : World) : Prop :=
  if String.eqb backend_name "file" then
    tree_ok sha1 name (fs w) ∧ (json_texts = true → tree_json name (fs w))
  else valid_hashmap name = true ∧ db_ok sha256 name w.

(** A key and a text that a backend can hold: the file backend needs a
    key it lists, the database a JSON text. *)
Definition accepts (sha1 : string → N) (backend_name name key value : string) : Prop :=
  if String.eqb backend_name "file" then file_key sha1 name key = true
  else is_ok (rapidjson.loads value) = true.

(** The part of the world that belongs to a backend is the same in two
    worlds. *)
Definition same_part (backend_name : string) (w w' : World) : Prop :=
  if String.eqb backend_name "file" then fs w' = fs w
  else cf_graph w' = cf_graph w.

(** *** The removal of files through the shell *)

(** The sharded paths of [keys], and the text [hdel] puts behind its two
    commands. *)
Definition lzj_paths (sha1 : string → N) (name : string) (keys : list string) : list string :=
  (λ key, sharded_file sha1 name key) <$> keys.

Definition lzj_names (sha1 : string → N) (name : string) (keys : list string) : string :=
  str_join " " (lzj_paths sha1 name keys).

(** The system does for [hdel(name, keys)] what the two command lines
    say: [git rm -f] ends well or reports that there is no repository, and
    [rm -f] then ends well, with the files of [keys] gone and every other
    file as it was. *)
Definition deletes (sha1 : string → N) (name : string) (keys : list string)
    (w : World) : Prop :=
  let git_rm := "git rm -f " +:+ lzj_names sha1 name keys in
  let rm := "rm -f " +:+ lzj_names sha1 name keys in
  ∃ returncode stdout stderr changes out err changes',
    subprocess w (commands w) git_rm (fs w)
    = (CompletedProcess returncode stdout stderr, changes)
    ∧ (returncode =? 0) || str_contains "not a git repository" (stdout +:+ stderr) = true
    ∧ subprocess w (commands w ++ [git_rm]) rm (changed changes (fs w))
      = (CompletedProcess 0 out err, changes')
    ∧ changed changes' (changed changes (fs w))
      = foldr delete (fs w) (lzj_paths sha1 name keys).

(** The nodes that the synchronisation deletes from the file backend, those
    that the primary does not have, are nodes whose files the system
    removes. *)
Definition prunable (sha1 : string → N) (sha256 : string → string) (name : string)
    (primary_hashes : gmap string string) (w : World) : Prop :=
  let del_nodes := dom (hashes_of sha256 "file" name w) ∖ dom primary_hashes in
  del_nodes ≠ ∅ → deletes sha1 name (elements del_nodes) w.

(** The shell and the record of its commands are the same in two worlds. *)
Definition same_system (w w' : World) : Prop :=
  subprocess w' = subprocess w ∧ commands w' = commands w.

(** *** The handles that a document refers to *)



(** *** The calls of the fetch loop *)

(** The texts of the nodes of a batch. *)
Definition batch_of (texts : gmap string string) (nodes : list string)
    : gmap string string :=
  filter (λ kv, kv.1 ∈ nodes) texts.

(** A node is stale on a secondary when it is out of sync by the hashes
    that were read from that secondary. *)
Definition stale (primary_hashes : gmap string string)
    (backend_hashes : gmap string (gmap string string))
    (backend_name node : string) : bool :=
  out_of_sync (from_option id ∅ (backend_hashes !! backend_name)) primary_hashes node.

(** The part of a batch that is stale on a secondary. *)
Definition stale_part (primary_hashes : gmap string string)
    (backend_hashes : gmap string (gmap string string)) (backend_name : string)
    (batch : gmap string string) : gmap string string :=
  filter (λ kv, stale primary_hashes backend_hashes backend_name kv.1) batch.

(** The calls of one batch: the multi-get on the primary, then a multi-set
    on each secondary that has something out of sync in the batch. *)
Definition batch_calls (primary : string) (secondaries : list string) (name : string)
    (primary_hashes : gmap string string)
    (backend_hashes : gmap string (gmap string string))
    (texts : gmap string string) (nodes : list string) : list (string * op) :=
  (primary, OpHmget name nodes) ::
  omap (λ s, let part := stale_part primary_hashes backend_hashes s (batch_of texts nodes) in
             if bool_decide (part = ∅) then None else Some (s, OpHmset name part))
    secondaries.

Definition fetch_calls (primary : string) (secondaries : list string) (name : string)
    (primary_hashes : gmap string string)
    (backend_hashes : gmap string (gmap string string))
    (texts : gmap string string) (batches : list (list string)) : list (string * op) :=
  concat (batch_calls primary secondaries name primary_hashes backend_hashes texts
            <$> batches).

(** The state of the fetch loop between two batches: the primary holds
    the texts [texts], and the secondaries can be written to. *)
Definition fetch_ready (sha1 : string → N) (sha256 : string → string) (json_texts : bool)
    (primary : string) (secondaries : list string) (name : string)
    (texts : gmap string string) (w : World) : Prop :=
  primary_ok sha1 sha256 json_texts primary name w
  ∧ texts_of primary name w = texts
  ∧ ∀ s, s ∈ secondaries → secondary_ok sha1 s name w.

(** The hashes of a secondary in [w] once the nodes of [sent] were pushed
    to it in [w0]: the hash of the primary where the node was stale, the
    hash of before elsewhere. *)
Definition pushed (sha256 : string → string) (name : string)
    (primary_hashes : gmap string string)
    (backend_hashes : gmap string (gmap string string))
    (backend_name : string) (sent : string → bool) (w0 w : World) : Prop :=
  ∀ k, hashes_of sha256 backend_name name w !! k =
         if sent k && stale primary_hashes backend_hashes backend_name k
         then primary_hashes !! k
         else hashes_of sha256 backend_name name w0 !! k.

(** *** The calls of the first loop over the secondaries *)

(** A call of that loop: the read of the hashes of a secondary, or the
    deletion there of nodes that the primary does not have; the file
    backend is only asked to delete keys that it lists. *)
Definition scan_call (sha1 : string → N) (secondaries : list string) (name : string)
    (primary_hashes : gmap string string) (c : string * op) : Prop :=
  c.1 ∈ secondaries ∧
  (c.2 = OpHgetall name true ∨
   ∃ keys, c.2 = OpHdel name keys ∧
     Forall (λ k, primary_hashes !! k = None ∧
                  (c.1 = "file" → file_key sha1 name k = true)) keys).

(** What the first loop leaves for a secondary it has read: the hashes
    [hs] that it read are kept, the secondary now holds those of them whose
    node the primary has, and every stale node of the primary is in [todo]. *)
Definition scanned (sha256 : string → string) (primary name : string)
    (primary_hashes : gmap string string)
    (acc : gset string * gmap string (gmap string string))
    (w : World) (s : string) : Prop :=
  ∃ hs, acc.2 !! s = Some hs
    ∧ (∀ k, hashes_of sha256 s name w !! k =
              if bool_decide (is_Some (primary_hashes !! k)) then hs !! k else None)
    ∧ (∀ k, is_Some (primary_hashes !! k) → out_of_sync hs primary_hashes k = true →
            k ∈ acc.1)
    ∧ (s = primary → hs = primary_hashes).

(** ** Stand-in digests for the worked examples

    Any two functions serve as digests in what follows; the examples run
    with a 64-bit FNV-1a hash in place of SHA-1 and SHA-256. *)

Fixpoint fnv1a (h : N) (s : string) : N :=
  match s with
  | EmptyString => h
  | String c r => fnv1a ((N.lxor h (N_of_ascii c) * 1099511628211) mod 2 ^ 64)%N r
  end.

Definition demo_sha1 (s : string) : N :=
  (fnv1a 14695981039346656037 s * 2 ^ 96)%N.
Definition demo_sha256 (s : string) : string :=
  hexdigest 64 (fnv1a 99194853094755497 s * 2 ^ 192)%N.


(** ** The keys that a call names *)

Definition op_keys (o : op) : list string :=
  match o with
  | OpHexists _ key | OpHget _ key | OpHset _ key _ | OpHsetnx _ key _ => [key]
  | OpHmset _ mapping => (map_to_list mapping).*1
  | OpHmget _ keys | OpHdel _ keys => keys
  | OpHkeys _ | OpHgetall _ _ => []
  end.

(** The calls that carry documents from the primary to a secondary. *)
Definition is_transfer (o : op) : bool :=
  match o with
  | OpHmget _ _ | OpHmset _ _ => true
  | _ => false
  end.

(** ** Sample inputs *)

Definition demo_file : LazyJsonBackend := FileLazyJsonBackend demo_sha1 demo_sha256.
Definition demo_mongo : LazyJsonBackend := MongoDBLazyJsonBackend demo_sha256.

Definition demo_doc : LazyJson :=
  mkLazyJson "pr_json/a.json" (Some (PDict [("x", PInt 1)])) (Some "stale") false
    "pr_json" "a" None.


(** The world after [hset] of each item of [docs] on a backend. *)
Definition world_with (backend : LazyJsonBackend) (name : string)
    (docs : list (string * string)) (w : World) : World :=
  (for_each (λ kv, hset backend name kv.1 kv.2) docs w).2.

(** Two documents in the files; in the database an old version of the
    first one and a document that the files do not have. *)
Definition sync_world : World :=
  world_with demo_mongo "pr_json" [("a", "[]"); ("z", "{}")]
    (world_with demo_file "pr_json" [("a", "{}"); ("b", "[1]")] empty_world).

(** Five documents in the database, none in the files. *)
Definition batch_world : World :=
  world_with demo_mongo "pr_json"
    [("k1", "{}"); ("k2", "{}"); ("k3", "{}"); ("k4", "{}"); ("k5", "{}")] empty_world.

(** A reserved document of the file backend, and a document of that name
    in the database. *)
Definition reserved_world : World :=
  world_with demo_mongo "lazy_json" [("all_feedstocks", "{}")]
    (world_with demo_file "lazy_json" [("all_feedstocks", "[]"); ("graph", "{}")]
       empty_world).

(** A file below a hashmap that does not stand at its sharded path. *)
Definition stray_world : World :=
  set_fs (λ files, <["pr_json/x.json" := "{}"]> files) empty_world.



(** The same document in the files and in the database. *)
Definition agreed_world : World :=
  world_with demo_mongo "pr_json" [("a", "{}")]
    (world_with demo_file "pr_json" [("a", "{}")] empty_world).

(** * Properties *)

(** ** Strings and paths *)

Lemma append_cons (c : ascii) (s t : string) : String c s +:+ t = String c (s +:+ t).
Proof. reflexivity. Qed.

Lemma append_nil_l (s : string) : "" +:+ s = s.
Proof. reflexivity. Qed.

Lemma append_nil_r (s : string) : s +:+ "" = s.
Proof. induction s as [|c s IH]; [done|]. by rewrite append_cons, IH. Qed.

Lemma append_assoc (s t u : string) : (s +:+ t) +:+ u = s +:+ t +:+ u.
Proof. induction s as [|c s IH]; [done|]. by rewrite !append_cons, IH. Qed.

Lemma eqb_eq_s (s t : string) : String.eqb s t = bool_decide (s = t).
Proof.
  destruct (String.eqb_spec s t);
    [by rewrite bool_decide_eq_true_2 | by rewrite bool_decide_eq_false_2].
Qed.

Lemma append_length (s t : string) :
  String.length (s +:+ t) = (String.length s + String.length t)%nat.
Proof. induction s as [|c s IH]; [done|]. rewrite append_cons. simpl. by rewrite IH. Qed.

Module os_path_facts.
Import os_path.

Lemma has_sep_app s t : has_sep (s +:+ t) = has_sep s || has_sep t.
Proof.
  induction s as [|c s IH]; [done|].
  rewrite append_cons. simpl. rewrite IH. by rewrite orb_assoc.
Qed.

Lemma rsplit_no_sep s : has_sep s = false → rsplit s = ("", s).
Proof.
  destruct s as [|c s]; [done|]. simpl.
  intros [Hc Hs]%orb_false_iff. by rewrite Hs, Hc.
Qed.

(** Splitting at the last separator. *)
Lemma rsplit_app s t :
  has_sep t = false → rsplit (s +:+ String "/" t) = (s +:+ "/", t).
Proof.
  intros Ht. induction s as [|c s IH].
  - rewrite append_nil_l. cbn. by rewrite Ht.
  - rewrite !append_cons. cbn [rsplit].
    rewrite has_sep_app. cbn [has_sep is_sep Ascii.eqb].
    replace (is_sep "/") with true by done.
    rewrite orb_true_r. by rewrite IH.
Qed.

Lemma all_sep_app s t : all_sep (s +:+ t) = all_sep s && all_sep t.
Proof.
  induction s as [|c s IH]; [done|].
  rewrite append_cons. simpl. rewrite IH. by rewrite andb_assoc.
Qed.

Lemma all_sep_endswith s : all_sep s = true → s ≠ "" → endswith_sep s = true.
Proof.
  induction s as [|c s IH]; [done|]. simpl.
  intros [Hc Hs]%andb_true_iff _. destruct s as [|c' s]; [done|].
  by apply IH.
Qed.

Lemma rstrip_sep_eq_nil s : rstrip_sep s = "" → all_sep s = true.
Proof.
  induction s as [|c s IH]; [done|]. simpl.
  destruct (rstrip_sep s) eqn:E; [|done].
  destruct (is_sep c); [|done]. intros _. by rewrite IH.
Qed.

Lemma rstrip_sep_no_trailing s : endswith_sep s = false → rstrip_sep s = s.
Proof.
  induction s as [|c s IH]; [done|]. simpl.
  destruct s as [|c' s].
  - simpl. by intros ->.
  - intros H. rewrite (IH H). done.
Qed.

Lemma rstrip_sep_snoc s : endswith_sep s = false → rstrip_sep (s +:+ "/") = s.
Proof.
  induction s as [|c s IH]; [done|]. intros H.
  rewrite append_cons. simpl. destruct s as [|c' s].
  - simpl in *. by rewrite H.
  - rewrite (IH H). done.
Qed.

Lemma endswith_sep_all_sep s :
  endswith_sep s = false → all_sep s = true → s = "".
Proof.
  intros H1 H2. destruct s as [|c s]; [done|].
  by rewrite all_sep_endswith in H1.
Qed.

(** [os.path.split] of a file in a directory, for a directory name that
    does not end with a separator. *)
Lemma split_node_file name file :
  has_sep file = false → endswith_sep name = false →
  split (name +:+ String "/" file) = (if String.eqb name "" then "/" else name, file).
Proof.
  intros Hf Hn. unfold split. rewrite rsplit_app by done.
  rewrite all_sep_app. simpl. rewrite andb_true_r.
  destruct (all_sep name) eqn:Ha.
  - rewrite (endswith_sep_all_sep name) by done. done.
  - assert (name ≠ "") as Hne by (by intros ->).
    rewrite rstrip_sep_snoc by done.
    destruct (String.eqb_spec (name +:+ "/") ""); [by destruct name|].
    destruct (String.eqb_spec name ""); done.
Qed.

Lemma endswith_sep_app s t : t ≠ "" → endswith_sep (s +:+ t) = endswith_sep t.
Proof.
  intros Ht. induction s as [|c s IH]; [done|].
  rewrite append_cons. simpl. rewrite IH.
  destruct (s +:+ t) eqn:E; [|done]. by destruct s, t.
Qed.

Lemma join2_plain path b :
  path ≠ "" → endswith_sep path = false → startswith_sep b = false →
  join2 path b = path +:+ "/" +:+ b.
Proof.
  intros Hp He Hb. unfold join2. rewrite Hb, He.
  by destruct (String.eqb_spec path "").
Qed.

Lemma join2_root b : startswith_sep b = false → join2 "/" b = "/" +:+ b.
Proof. intros Hb. unfold join2. by rewrite Hb. Qed.

End os_path_facts.

(** ** Sharded paths *)

Lemma is_hex_hex_char d : is_hex (hex_char d) = true.
Proof.
  unfold hex_char.
  repeat match goal with
         | |- context [match ?x with _ => _ end] => destruct x
         end; reflexivity.
Qed.

Lemma is_hex_not_sep c : is_hex c = true → os_path.is_sep c = false.
Proof. destruct c as [[] [] [] [] [] [] [] []]; done. Qed.

(** A string of [n] hexadecimal characters in front of [acc]. *)
Lemma hexdigest_go_spec n : ∀ d acc,
  ∃ pre, hexdigest_go n d acc = pre +:+ acc ∧ String.length pre = n ∧
         ∀ i c, str_index pre i = Ok c → is_hex c = true.
Proof.
  induction n as [|n IH]; intros d acc.
  - exists "". split_and!; [done..|]. intros i c. by destruct i.
  - simpl. destruct (IH (d / 16)%N (String (hex_char (d mod 16)%N) acc))
      as (pre & -> & Hlen & Hhex).
    exists (pre +:+ String (hex_char (d mod 16)%N) "").
    split_and!.
    + by rewrite append_assoc.
    + rewrite append_length. simpl. lia.
    + clear -Hhex. induction pre as [|a pre IHp]; intros i c.
      * destruct i as [|i]; cbn; [|by destruct i].
        intros [= <-]. apply is_hex_hex_char.
      * destruct i as [|i].
        -- cbn. intros [= <-]. by apply (Hhex 0%nat).
        -- rewrite append_cons. cbn. apply IHp. intros j c'. apply (Hhex (S j)).
Qed.

Lemma hexdigest_first5 n d :
  (5 ≤ n)%nat →
  ∃ h0 h1 h2 h3 h4,
    str_take 5 (hexdigest n d) =
      String h0 (String h1 (String h2 (String h3 (String h4 "")))) ∧
    Forall (λ h, is_hex h = true) [h0; h1; h2; h3; h4].
Proof.
  intros Hn. unfold hexdigest.
  destruct (hexdigest_go_spec n d "") as (pre & -> & Hlen & Hhex).
  rewrite append_nil_r.
  destruct pre as [|h0 [|h1 [|h2 [|h3 [|h4 rest]]]]]; simpl in Hlen; try lia.
  exists h0, h1, h2, h3, h4. split; [done|].
  repeat constructor.
  - by apply (Hhex 0%nat).
  - by apply (Hhex 1%nat).
  - by apply (Hhex 2%nat).
  - by apply (Hhex 3%nat).
  - by apply (Hhex 4%nat).
Qed.

Lemma join_slashed parts : ∀ path,
  path ≠ "" → os_path.endswith_sep path = false →
  Forall (λ b, b ≠ "" ∧ os_path.has_sep b = false) parts →
  os_path.join path parts = path +:+ slashed parts.
Proof.
  induction parts as [|b parts IH]; intros path Hp He Hparts.
  - by rewrite append_nil_r.
  - apply Forall_cons in Hparts as [[Hb Hsb] Hparts].
    assert (os_path.startswith_sep b = false) as Hstart.
    { destruct b as [|c b]; [done|]. simpl in *. by apply orb_false_iff in Hsb as [-> _]. }
    assert (os_path.endswith_sep b = false) as Hend.
    { clear -Hsb. induction b as [|c b IHb]; [done|]. simpl in *.
      apply orb_false_iff in Hsb as [Hc Hsb]. destruct b; [done|]. by apply IHb. }
    unfold os_path.join in *. cbn [foldl].
    rewrite os_path_facts.join2_plain by done.
    rewrite IH; [| | |done].
    + by rewrite !append_assoc.
    + by destruct path.
    + rewrite os_path_facts.endswith_sep_app; [|done].
      rewrite (os_path_facts.endswith_sep_app "/" b) by done. done.
Qed.

Lemma join_slashed_root b parts :
  b ≠ "" → os_path.has_sep b = false →
  Forall (λ b, b ≠ "" ∧ os_path.has_sep b = false) parts →
  os_path.join "/" (b :: parts) = slashed (b :: parts).
Proof.
  intros Hb Hsb Hparts.
  assert (os_path.startswith_sep b = false) as Hstart.
  { destruct b as [|c b]; [done|]. simpl in *. by apply orb_false_iff in Hsb as [-> _]. }
  assert (os_path.endswith_sep b = false) as Hend.
  { clear -Hsb. induction b as [|c b IHb]; [done|]. simpl in *.
    apply orb_false_iff in Hsb as [Hc Hsb]. destruct b; [done|]. by apply IHb. }
  unfold os_path.join. cbn [foldl]. rewrite os_path_facts.join2_root by done.
  change (foldl os_path.join2 ("/" +:+ b) parts) with (os_path.join ("/" +:+ b) parts).
  rewrite join_slashed; [done| done | | done].
  by rewrite (os_path_facts.endswith_sep_app "/" b).
Qed.

Lemma has_sep_json key : os_path.has_sep key = false → os_path.has_sep (key +:+ ".json") = false.
Proof. intros H. by rewrite os_path_facts.has_sep_app, H. Qed.

Lemma json_nonempty key : key +:+ ".json" ≠ "".
Proof. by destruct key. Qed.

Lemma get_sharded_path_catch_all sha1 key :
  os_path.has_sep key = false →
  get_sharded_path sha1 (node_file "lazy_json" key) = Ok (key +:+ ".json").
Proof.
  intros Hk. unfold get_sharded_path, get_sharded_path_n.
  change (node_file "lazy_json" key) with ("lazy_json" +:+ String "/" (key +:+ ".json")).
  rewrite os_path_facts.split_node_file; [done|by apply has_sep_json|done].
Qed.

Lemma get_sharded_path_sharded sha1 name key h0 h1 h2 h3 h4 :
  os_path.has_sep key = false → os_path.endswith_sep name = false →
  name ≠ "lazy_json" →
  str_take 5 (sha1_hexdigest sha1 (key +:+ ".json")) =
    String h0 (String h1 (String h2 (String h3 (String h4 "")))) →
  Forall (λ h, is_hex h = true) [h0; h1; h2; h3; h4] →
  get_sharded_path sha1 (node_file name key) =
    Ok (name +:+ slashed [str1 h0; str1 h1; str1 h2; str1 h3; str1 h4; key +:+ ".json"]).
Proof.
  intros Hk Hn Hne Hhx Hhex. unfold get_sharded_path, get_sharded_path_n.
  change (node_file name key) with (name +:+ String "/" (key +:+ ".json")).
  rewrite os_path_facts.split_node_file; [|by apply has_sep_json|done].
  rewrite Hhx. cbn [seq rmapM str_index rbind].
  assert (Forall (λ b, b ≠ "" ∧ os_path.has_sep b = false)
            [str1 h0; str1 h1; str1 h2; str1 h3; str1 h4; key +:+ ".json"]) as Hparts.
  { repeat (apply Forall_cons in Hhex as [?%is_hex_not_sep Hhex]).
    repeat first [apply Forall_nil_2 | apply Forall_cons_2];
      try (split; [done | simpl; rewrite orb_false_r; assumption]).
    split; [apply json_nonempty | by apply has_sep_json]. }
  destruct (String.eqb_spec name "") as [->|Hnon].
  - cbn [String.length Nat.eqb orb String.eqb Ascii.eqb Bool.eqb].
    replace (String.eqb "/" "lazy_json") with false by done. cbn [app].
    apply Forall_cons in Hparts as [[??] ?].
    rewrite join_slashed_root by done. done.
  - replace (String.length name =? 0)%nat with false by (by destruct name).
    replace (String.eqb name "lazy_json") with false
      by (symmetry; by apply String.eqb_neq).
    cbn [orb app]. rewrite join_slashed by done. done.
Qed.

(** C7.  The file of a node whose key holds no separator, in a hashmap
    whose name does not end with one: for the catch-all hashmap it is
    [<key>.json] at the root; for any other hashmap it is
    [<hashmap>/<h0>/<h1>/<h2>/<h3>/<h4>/<key>.json], where [h0..h4] are
    the first five hexadecimal characters of the SHA-1 digest of
    [<key>.json].  The path is a function of the two names alone, and a
    write lands on it whatever the tree holds. *)
Theorem get_sharded_path_layout sha1 (name key : string) :
  os_path.has_sep key = false → os_path.endswith_sep name = false →
  get_sharded_path sha1 (node_file "lazy_json" key) = Ok (key +:+ ".json") ∧
  (name ≠ "lazy_json" →
   ∃ h0 h1 h2 h3 h4,
     str_take 5 (sha1_hexdigest sha1 (key +:+ ".json")) =
       String h0 (String h1 (String h2 (String h3 (String h4 "")))) ∧
     Forall (λ h, is_hex h = true) [h0; h1; h2; h3; h4] ∧
     get_sharded_path sha1 (node_file name key) =
       Ok (name +:+ "/" +:+ str1 h0 +:+ "/" +:+ str1 h1 +:+ "/" +:+ str1 h2 +:+ "/" +:+
           str1 h3 +:+ "/" +:+ str1 h4 +:+ "/" +:+ key +:+ ".json")) ∧
  (∀ path value w,
     get_sharded_path sha1 (node_file name key) = Ok path →
     file_hset sha1 name key value w =
       (Ok tt, set_fs (λ files, <[path := value]> files) w)).
Proof.
  intros Hk Hn. split_and!.
  - by apply get_sharded_path_catch_all.
  - intros Hne.
    destruct (hexdigest_first5 40 (sha1 (key +:+ ".json"))) as (h0 & h1 & h2 & h3 & h4 & Hhx & Hhex); [lia|].
    exists h0, h1, h2, h3, h4. split_and!; [done..|].
    rewrite (get_sharded_path_sharded sha1 name key h0 h1 h2 h3 h4) by done.
    cbn [slashed]. by rewrite append_nil_r.
  - intros path value w Hpath. unfold file_hset, bind, lift, modify.
    by rewrite Hpath.
Qed.

(** ** The two backends, operation by operation *)

Ltac st_unfold :=
  unfold bind, ret, lift, gets, modify, raise, assert in *.

Section backend_facts.

Variable sha1 : string → N.
Variable sha256 : string → string.

Lemma get_sharded_path_total file_path :
  ∃ path, get_sharded_path sha1 file_path = Ok path.
Proof.
  unfold get_sharded_path, get_sharded_path_n.
  destruct (os_path.split file_path) as [top_dir file_name].
  destruct (_ || _); [by eexists|].
  destruct (hexdigest_first5 40 (sha1 file_name)) as (h0 & h1 & h2 & h3 & h4 & Hhx & _); [lia|].
  unfold sha1_hexdigest. rewrite Hhx. cbn. by eexists.
Qed.

Lemma get_sharded_path_sharded_file name key :
  get_sharded_path sha1 (node_file name key) = Ok (sharded_file sha1 name key).
Proof.
  unfold sharded_file.
  by destruct (get_sharded_path_total (node_file name key)) as [path ->].
Qed.

Lemma file_hexists_eq name key w :
  file_hexists sha1 name key w =
    (Ok (bool_decide (is_Some (fs w !! sharded_file sha1 name key))), w).
Proof.
  unfold file_hexists. st_unfold. by rewrite get_sharded_path_sharded_file.
Qed.

Lemma file_hset_eq name key value w :
  file_hset sha1 name key value w =
    (Ok tt, set_fs (λ files, <[sharded_file sha1 name key := value]> files) w).
Proof.
  unfold file_hset. st_unfold. by rewrite get_sharded_path_sharded_file.
Qed.

Lemma file_hget_eq name key w :
  file_hget sha1 name key w =
    match fs w !! sharded_file sha1 name key with
    | Some data_str => (Ok data_str, w)
    | None => (Raise (FileNotFoundError (sharded_file sha1 name key)), w)
    end.
Proof.
  unfold file_hget. st_unfold. rewrite get_sharded_path_sharded_file.
  by destruct (fs w !! _).
Qed.

Lemma assert_hashmap_eq name w :
  assert_hashmap name w =
    if valid_hashmap name then (Ok tt, w) else (Raise AssertionError, w).
Proof. unfold assert_hashmap, valid_hashmap. by destruct (_ || _). Qed.

Lemma mongo_hexists_eq name key w :
  mongo_hexists name key w =
    if valid_hashmap name
    then (Ok (bool_decide (is_Some (collection name w !! key))), w)
    else (Raise AssertionError, w).
Proof.
  unfold mongo_hexists, _get_collection, bind. rewrite assert_hashmap_eq.
  by destruct (valid_hashmap name).
Qed.

Lemma mongo_hset_eq name key value w :
  mongo_hset sha256 name key value w =
    if valid_hashmap name then
      match rapidjson.loads value with
      | Ok v => (Ok tt, upsert name key (MongoDoc v (sha256 value)) w)
      | Raise e => (Raise e, w)
      end
    else (Raise AssertionError, w).
Proof.
  unfold mongo_hset, bind. rewrite assert_hashmap_eq.
  destruct (valid_hashmap name); [|done]. st_unfold.
  by destruct (rapidjson.loads value).
Qed.

Lemma mongo_hget_eq name key w :
  mongo_hget name key w =
    if valid_hashmap name then
      match collection name w !! key with
      | Some data => (dumps (doc_value data), w)
      | None => (Raise AssertionError, w)
      end
    else (Raise AssertionError, w).
Proof.
  unfold mongo_hget, _get_collection, bind. rewrite assert_hashmap_eq.
  destruct (valid_hashmap name); [|done]. st_unfold. fold (collection name w).
  by destruct (collection name w !! key).
Qed.

Lemma collection_upsert name key d w :
  collection name (upsert name key d w) = <[key := d]> (collection name w).
Proof. unfold collection, upsert. simpl. by rewrite lookup_insert_eq. Qed.

Lemma collection_upsert_ne name name' key d w :
  name ≠ name' → collection name' (upsert name key d w) = collection name' w.
Proof. intros. unfold collection, upsert. simpl. by rewrite lookup_insert_ne. Qed.

Lemma backend_cases backend_name b w w' :
  LAZY_JSON_BACKENDS sha1 sha256 backend_name w = (Ok b, w') →
  w' = w ∧
  (backend_name = "file" ∧ b = FileLazyJsonBackend sha1 sha256 ∨
   backend_name = "mongodb" ∧ b = MongoDBLazyJsonBackend sha256).
Proof.
  unfold LAZY_JSON_BACKENDS. st_unfold.
  destruct (String.eqb_spec backend_name "file") as [->|];
    [intros [= <- <-]; auto|].
  destruct (String.eqb_spec backend_name "mongodb") as [->|];
    [intros [= <- <-]; auto|done].
Qed.

(** C6.  [hsetnx] on a key that the backend does not hold stores the
    value and returns [True]; a second [hsetnx] on that key, whatever the
    value, returns [False] and changes nothing, so the backend still
    holds the first value.  The database holds documents, not texts: the
    text that comes back is the one sent when it is canonical. *)
Theorem hsetnx_keeps_first backend_name b (name key v1 v2 : string) (w : World) :
  LAZY_JSON_BACKENDS sha1 sha256 backend_name w = (Ok b, w) →
  (backend_name = "mongodb" → canonical_text v1) →
  hexists b name key w = (Ok false, w) →
  ∃ w1,
    hsetnx b name key v1 w = (Ok true, w1) ∧
    hget b name key w1 = (Ok v1, w1) ∧
    hsetnx b name key v2 w1 = (Ok false, w1).
Proof.
  intros Hb Hcanon Habsent.
  apply backend_cases in Hb as [_ [[-> ->]|[-> ->]]]; unfold hsetnx, bind.
  - cbn [hexists hset hget FileLazyJsonBackend] in *.
    rewrite Habsent. rewrite file_hset_eq. eexists. split; [done|].
    rewrite file_hget_eq, file_hexists_eq. simpl.
    rewrite lookup_insert_eq. split; [done|].
    first [done | by rewrite bool_decide_eq_true_2 by eauto].
  - cbn [hexists hset hget MongoDBLazyJsonBackend] in *.
    rewrite Habsent. rewrite mongo_hexists_eq in Habsent.
    destruct (valid_hashmap name) eqn:Hvalid; [|done].
    destruct (Hcanon eq_refl) as (v & Hloads & Hdumps).
    rewrite mongo_hset_eq, Hvalid, Hloads. eexists. split; [done|].
    rewrite mongo_hget_eq, mongo_hexists_eq, Hvalid, collection_upsert.
    rewrite lookup_insert_eq. simpl. rewrite Hdumps. split; [done|].
    first [done | by rewrite bool_decide_eq_true_2 by eauto].
Qed.

End backend_facts.

(** ** The text layer: reading back what was written *)

Module rapidjson_facts.
Import rapidjson.

(** Induction on trees, with the hypothesis for every element and every
    member. *)
Lemma json_ind' (P : json → Prop) :
  P JNull → (∀ b, P (JBool b)) → (∀ n, P (JInt n)) → (∀ s, P (JStr s)) →
  (∀ l, Forall P l → P (JArr l)) →
  (∀ kvs, Forall (λ kv, P kv.2) kvs → P (JObj kvs)) →
  ∀ j, P j.
Proof.
  intros Hnull Hbool Hint Hstr Harr Hobj.
  fix IH 1. intros [| b | n | s | l | kvs]; [done..| |].
  - apply Harr. induction l as [|x l IHl]; constructor; [apply IH | apply IHl].
  - apply Hobj. induction kvs as [|[k v] kvs IHl]; constructor; [apply IH | apply IHl].
Qed.

Lemma write_arr lvl x l k :
  write lvl (JArr (x :: l)) k =
    String "[" (write_nl (S lvl) (write (S lvl) x
      (write_elems lvl l (write_nl lvl (String "]" k))))).
Proof.
  cbn [write]. do 3 f_equal.
  generalize (write_nl lvl (String "]" k)). induction l as [|y l IH]; intros k'; [done|].
  cbn [write_elems]. by rewrite IH.
Qed.

Lemma write_obj lvl kv kvs k :
  write lvl (JObj (kv :: kvs)) k =
    String "{" (write_nl (S lvl) (write_string kv.1 (String ":" (String " "
      (write (S lvl) kv.2
        (write_members lvl kvs (write_nl lvl (String "}" k)))))))).
Proof.
  cbn [write]. do 6 f_equal.
  generalize (write_nl lvl (String "}" k)). induction kvs as [|y l IH]; intros k'; [done|].
  cbn [write_members]. by rewrite IH.
Qed.

(** *** Strings *)

Lemma read_write_char c k :
  read_chars (write_char c k) =
    match read_chars k with
    | Some (str, rest) => Some (String c str, rest)
    | None => None
    end.
Proof. destruct c as [[] [] [] [] [] [] [] []]; reflexivity. Qed.

Lemma read_write_chars s k :
  read_chars (write_chars s (String dquote k)) = Some (s, k).
Proof.
  induction s as [|c s IH]; [done|].
  cbn [write_chars]. by rewrite read_write_char, IH.
Qed.

(** *** Numbers *)

Lemma read_write_uint d k :
  number_end k → read_uint (write_uint d k) = (d, k).
Proof.
  intros Hk. induction d as [|d IH|d IH|d IH|d IH|d IH|d IH|d IH|d IH|d IH|d IH];
    cbn [write_uint]; try (cbn; by rewrite IH).
  destruct k as [|c k]; [done|]. destruct Hk as [Hk _]. cbn. by rewrite Hk.
Qed.

Lemma to_int_nonempty n : Z.to_int n ≠ Decimal.Pos Decimal.Nil ∧ Z.to_int n ≠ Decimal.Neg Decimal.Nil.
Proof.
  pose proof (DecimalZ.to_of (Z.to_int n)) as H. rewrite DecimalZ.of_to in H.
  split; intros E; rewrite E in H; discriminate H.
Qed.

Lemma float_follows_end k : number_end k → float_follows k = false.
Proof. destruct k as [|c k]; [done|]. by intros [_ H]. Qed.

Lemma read_write_int n k :
  number_end k → read_number (write_int n k) = Some (JInt n, k).
Proof.
  intros Hk. pose proof (to_int_nonempty n) as [Hp Hn].
  pose proof (DecimalZ.of_to n) as Hof.
  unfold write_int. destruct (Z.to_int n) as [d|d].
  - assert (d ≠ Decimal.Nil) as Hd by congruence.
    unfold read_number.
    assert (∀ c r, write_uint d k = String c r → Ascii.eqb c "-" = false) as Hminus.
    { intros c r. destruct d; cbn; try done; by intros [= <- _]. }
    destruct (write_uint d k) as [|c r] eqn:E.
    { destruct d; done. }
    rewrite (Hminus c r eq_refl), <- E, read_write_uint by done.
    rewrite float_follows_end by done. rewrite Hof. by destruct d.
  - assert (d ≠ Decimal.Nil) as Hd by congruence.
    cbn [read_number]. replace (Ascii.eqb "-" "-") with true by done.
    rewrite read_write_uint by done.
    rewrite float_follows_end by done. rewrite Hof. by destruct d.
Qed.

(** *** White space *)

Lemma skip_ws_indent lvl k : skip_ws (write_indent lvl k) = skip_ws k.
Proof. induction lvl as [|lvl IH]; [done|]. done. Qed.

Lemma skip_ws_nl lvl k : skip_ws (write_nl lvl k) = skip_ws k.
Proof. unfold write_nl. cbn. apply skip_ws_indent. Qed.

Lemma skip_ws_idemp s : skip_ws (skip_ws s) = skip_ws s.
Proof.
  induction s as [|c s IH]; [done|]. cbn. destruct (is_ws c) eqn:E; [done|].
  cbn. by rewrite E.
Qed.

Lemma read_value_skip_ws fuel s : read_value fuel (skip_ws s) = read_value fuel s.
Proof. destruct fuel; [done|]. cbn [read_value]. by rewrite skip_ws_idemp. Qed.

Lemma read_members_skip_ws fuel s : read_members fuel (skip_ws s) = read_members fuel s.
Proof. destruct fuel; [done|]. cbn [read_members]. by rewrite skip_ws_idemp. Qed.

Lemma skip_ws_solid s : solid s → skip_ws s = s.
Proof. destruct s as [|c s]; [done|]. cbn. by intros ->. Qed.

Lemma write_uint_solid d k : d ≠ Decimal.Nil → solid (write_uint d k).
Proof. destruct d; done. Qed.

Lemma write_int_solid n k : solid (write_int n k).
Proof.
  pose proof (to_int_nonempty n) as [Hp Hn]. unfold write_int.
  destruct (Z.to_int n) as [d|d]; [|done].
  apply write_uint_solid. congruence.
Qed.

Lemma write_solid lvl j k : solid (write lvl j k).
Proof.
  destruct j as [| [] | n | s | [|x l] | [|kv kvs]]; try done.
  apply write_int_solid.
Qed.

(** *** Values *)

Lemma read_value_number fuel c r :
  c = "-"%char ∨ is_Some (digit c) →
  read_value (S fuel) (String c r) = read_number (String c r).
Proof.
  intros [->|Hc]; [done|]. unfold digit in Hc.
  repeat match type of Hc with
         | is_Some (if Ascii.eqb c ?d then _ else _) =>
             destruct (Ascii.eqb_spec c d) as [->|_]; [reflexivity|]
         end.
  by destruct Hc.
Qed.

Lemma write_int_first n k :
  ∃ c r, write_int n k = String c r ∧ (c = "-"%char ∨ is_Some (digit c)).
Proof.
  pose proof (to_int_nonempty n) as [Hp Hn]. unfold write_int.
  destruct (Z.to_int n) as [d|d]; [|by eauto].
  destruct d; try done; cbn; do 2 eexists; (split; [done|]); right; by eexists.
Qed.

Lemma read_value_int fuel n k :
  number_end k → read_value (S fuel) (write_int n k) = Some (JInt n, k).
Proof.
  intros Hk. destruct (write_int_first n k) as (c & r & E & Hc).
  rewrite E, read_value_number, <- E by done. by apply read_write_int.
Qed.

Lemma read_elems_nl fuel lvl s : read_elems fuel (write_nl lvl s) = read_elems fuel s.
Proof.
  destruct fuel; [done|]. cbn [read_elems].
  by rewrite <- (read_value_skip_ws _ (write_nl lvl s)), skip_ws_nl, read_value_skip_ws.
Qed.

Lemma read_members_nl fuel lvl s : read_members fuel (write_nl lvl s) = read_members fuel s.
Proof.
  by rewrite <- (read_members_skip_ws _ (write_nl lvl s)), skip_ws_nl, read_members_skip_ws.
Qed.

Lemma number_end_elems lvl l lvl' c k :
  (c = "]" ∨ c = "}")%char →
  number_end (write_elems lvl l (write_nl lvl' (String c k))).
Proof. destruct l; done. Qed.

Lemma number_end_members lvl l lvl' c k :
  number_end (write_members lvl l (write_nl lvl' (String c k))).
Proof. destruct l; done. Qed.

Lemma read_elems_spec lvl k : ∀ l x fuel,
  Forall reads_back (x :: l) → (lsize (x :: l) ≤ fuel)%nat →
  read_elems fuel
    (write (S lvl) x (write_elems lvl l (write_nl lvl (String "]" k)))) =
    Some (x :: l, k).
Proof.
  induction l as [|y l IH]; intros x fuel [Hx Hl]%Forall_cons Hfuel;
    (destruct fuel as [|fuel]; [cbn in Hfuel; lia|]);
    cbn [read_elems]; cbn [lsize foldr] in Hfuel.
  - rewrite Hx; [|lia|done]. cbn [write_elems]. by rewrite skip_ws_nl.
  - rewrite Hx; [|lia|by apply number_end_elems; left].
    cbn [write_elems]. rewrite skip_ws_solid by reflexivity. cbn.
    rewrite read_elems_nl. rewrite IH; [done|done|]. cbn [lsize foldr]. lia.
Qed.

Lemma read_members_step fuel key rest :
  read_members (S fuel) (write_string key (String ":" (String " " rest))) =
    match read_value fuel rest with
    | Some (v, r3) =>
        match skip_ws r3 with
        | String c r4 =>
            if Ascii.eqb c "," then
              match read_members fuel r4 with
              | Some (l, r5) => Some ((key, v) :: l, r5)
              | None => None
              end
            else if Ascii.eqb c "}" then Some ([(key, v)], r4)
            else None
        | EmptyString => None
        end
    | None => None
    end.
Proof.
  cbn [read_members]. unfold write_string.
  rewrite skip_ws_solid by reflexivity.
  change (starts_with dquote (String dquote ?r)) with (Some r).
  cbv beta iota. rewrite read_write_chars.
  rewrite skip_ws_solid by reflexivity.
  change (starts_with ":" (String ":" ?r)) with (Some r).
  cbv beta iota. rewrite <- (read_value_skip_ws fuel (String " " rest)).
  change (skip_ws (String " " rest)) with (skip_ws rest).
  by rewrite read_value_skip_ws.
Qed.

Lemma read_members_spec lvl k : ∀ l kv fuel,
  Forall (λ kv, reads_back kv.2) (kv :: l) → (msize (kv :: l) ≤ fuel)%nat →
  read_members fuel
    (write_string kv.1 (String ":" (String " "
      (write (S lvl) kv.2 (write_members lvl l (write_nl lvl (String "}" k))))))) =
    Some (kv :: l, k).
Proof.
  induction l as [|y l IH]; intros [key v] fuel [Hx Hl]%Forall_cons Hfuel;
    (destruct fuel as [|fuel]; [cbn in Hfuel; lia|]);
    cbn [msize foldr] in Hfuel; cbn [fst snd] in *;
    rewrite read_members_step.
  - rewrite Hx; [|lia|done]. cbn [write_members]. by rewrite skip_ws_nl.
  - rewrite Hx; [|lia|by apply number_end_members].
    cbn [write_members]. rewrite skip_ws_solid by reflexivity. cbn.
    rewrite read_members_nl. destruct y as [key' v'].
    rewrite (IH (key', v')); [done|done|]. cbn [msize foldr]. lia.
Qed.

Lemma read_value_string fuel r :
  read_value (S fuel) (String dquote r) =
    match read_chars r with
    | Some (str, r') => Some (JStr str, r')
    | None => None
    end.
Proof. reflexivity. Qed.

Lemma read_value_arr fuel r :
  read_value (S fuel) (String "[" r) =
    match starts_with "]" (skip_ws r) with
    | Some r' => Some (JArr [], r')
    | None =>
        match read_elems fuel r with
        | Some (l, r') => Some (JArr l, r')
        | None => None
        end
    end.
Proof. reflexivity. Qed.

Lemma read_value_obj fuel r :
  read_value (S fuel) (String "{" r) =
    match starts_with "}" (skip_ws r) with
    | Some r' => Some (JObj [], r')
    | None =>
        match read_members fuel r with
        | Some (l, r') => Some (JObj l, r')
        | None => None
        end
    end.
Proof. reflexivity. Qed.

(** A written tree does not start with a closing bracket. *)
Lemma write_not_closing c lvl j k :
  (c = "]" ∨ c = "}")%char → starts_with c (write lvl j k) = None.
Proof.
  intros Hc.
  destruct j as [| [] | n | s | [|x' l'] | [|kv' kvs']];
    try (by destruct Hc as [-> | ->]).
  destruct (write_int_first n k) as (c' & r & E & Hd). cbn [write]. rewrite E.
  cbn. destruct (Ascii.eqb_spec c c') as [<-|]; [|done].
  by destruct Hc as [-> | ->], Hd as [|[]].
Qed.

Theorem read_write_value j : reads_back j.
Proof.
  induction j as [| b | n | s | l IHl | kvs IHkvs] using json_ind';
    intros lvl k fuel Hfuel Hk; (destruct fuel as [|fuel]; [cbn in Hfuel; lia|]).
  - done.
  - by destruct b.
  - by apply read_value_int.
  - cbn [write]. unfold write_string.
    by rewrite read_value_string, read_write_chars.
  - destruct l as [|x l]; [done|].
    rewrite write_arr, read_value_arr.
    rewrite skip_ws_nl, (skip_ws_solid (write _ _ _)) by apply write_solid.
    rewrite write_not_closing by auto.
    rewrite read_elems_nl, read_elems_spec; [done|done|].
    cbn [jsize] in Hfuel. unfold lsize. lia.
  - destruct kvs as [|kv kvs]; [done|].
    rewrite write_obj, read_value_obj.
    rewrite skip_ws_nl. unfold write_string at 1.
    rewrite skip_ws_solid by reflexivity.
    change (starts_with "}" (String dquote ?r)) with (@None string).
    cbv beta iota. rewrite read_members_nl.
    change (String dquote (write_chars kv.1 (String dquote ?r))) with (write_string kv.1 r).
    rewrite read_members_spec; [done|done|].
    cbn [jsize] in Hfuel. unfold msize. lia.
Qed.

(** *** Whole texts *)

Lemma length_write_char c k :
  (String.length k < String.length (write_char c k))%nat.
Proof. unfold write_char. repeat case_match; cbn [String.length]; lia. Qed.

Lemma length_write_chars s k :
  (String.length k ≤ String.length (write_chars s k))%nat.
Proof.
  induction s as [|c s IH]; [done|]. cbn [write_chars].
  pose proof (length_write_char c (write_chars s k)). lia.
Qed.

Lemma length_write_uint d k :
  (String.length k ≤ String.length (write_uint d k))%nat ∧
  (d ≠ Decimal.Nil → String.length k < String.length (write_uint d k))%nat.
Proof.
  induction d; cbn [write_uint String.length]; split; try done; try lia.
Qed.

Lemma length_write_int n k :
  (String.length k < String.length (write_int n k))%nat.
Proof.
  pose proof (to_int_nonempty n) as [Hp Hn]. unfold write_int.
  destruct (Z.to_int n) as [d|d].
  - apply length_write_uint. congruence.
  - cbn [String.length]. pose proof (length_write_uint d k) as [? _]. lia.
Qed.

Lemma length_write_nl lvl k :
  (String.length k < String.length (write_nl lvl k))%nat.
Proof.
  unfold write_nl. cbn [String.length].
  induction lvl as [|lvl IH]; cbn [write_indent String.length]; lia.
Qed.

Lemma length_write j : ∀ lvl k,
  (jsize j + String.length k ≤ String.length (write lvl j k))%nat.
Proof.
  induction j as [| b | n | s | l IHl | kvs IHkvs] using json_ind'; intros lvl k.
  - cbn [write]. rewrite !append_cons, append_nil_l. cbn. lia.
  - destruct b; cbn [write]; rewrite !append_cons, append_nil_l; cbn; lia.
  - cbn [write jsize]. pose proof (length_write_int n k). lia.
  - cbn [write jsize]. unfold write_string. cbn [String.length].
    pose proof (length_write_chars s (String dquote k)). cbn in *. lia.
  - destruct l as [|x l]; [cbn [write]; rewrite !append_cons, append_nil_l; cbn; lia|].
    rewrite write_arr. cbn [jsize String.length foldr].
    apply Forall_cons in IHl as [Hx Hl].
    pose proof (length_write_nl (S lvl)
      (write (S lvl) x (write_elems lvl l (write_nl lvl (String "]" k))))).
    pose proof (Hx (S lvl) (write_elems lvl l (write_nl lvl (String "]" k)))).
    assert (∀ k', foldr (λ y n, S (jsize y + n)) 0 l + String.length k'
                  ≤ String.length (write_elems lvl l k'))%nat as Helems.
    { clear -Hl. induction Hl as [|y l Hy Hl IH]; intros k'; [done|].
      cbn [foldr write_elems String.length].
      pose proof (length_write_nl (S lvl) (write (S lvl) y (write_elems lvl l k'))).
      pose proof (Hy (S lvl) (write_elems lvl l k')). pose proof (IH k'). lia. }
    pose proof (Helems (write_nl lvl (String "]" k))).
    pose proof (length_write_nl lvl (String "]" k)). cbn [String.length] in *. lia.
  - destruct kvs as [|kv kvs]; [cbn [write]; rewrite !append_cons, append_nil_l; cbn; lia|].
    rewrite write_obj. cbn [jsize String.length foldr].
    apply Forall_cons in IHkvs as [Hx Hl].
    set (tail := write_members lvl kvs (write_nl lvl (String "}" k))).
    pose proof (length_write_nl (S lvl)
      (write_string kv.1 (String ":" (String " " (write (S lvl) kv.2 tail))))).
    unfold write_string in *.
    pose proof (length_write_chars kv.1
      (String dquote (String ":" (String " " (write (S lvl) kv.2 tail))))).
    pose proof (Hx (S lvl) tail).
    assert (∀ k', foldr (λ kv n, S (jsize kv.2 + n)) 0 kvs + String.length k'
                  ≤ String.length (write_members lvl kvs k'))%nat as Hmembers.
    { clear -Hl. induction Hl as [|y l Hy Hl IH]; intros k'; [done|].
      cbn [foldr write_members String.length].
      pose proof (length_write_nl (S lvl)
        (write_string y.1 (String ":" (String " "
           (write (S lvl) y.2 (write_members lvl l k')))))).
      unfold write_string in *.
      pose proof (length_write_chars y.1
        (String dquote (String ":" (String " "
           (write (S lvl) y.2 (write_members lvl l k')))))).
      pose proof (Hy (S lvl) (write_members lvl l k')). pose proof (IH k').
      cbn [String.length] in *. lia. }
    pose proof (Hmembers (write_nl lvl (String "}" k))).
    pose proof (length_write_nl lvl (String "}" k)).
    subst tail. cbn [String.length] in *. lia.
Qed.

(** Reading what [dumps] wrote gives the tree back. *)
Theorem parse_dumps j : parse (dumps j) = Ok j.
Proof.
  unfold parse, dumps.
  rewrite read_write_value; [done| |done].
  pose proof (length_write j 0 ""). cbn in *. lia.
Qed.

End rapidjson_facts.

(** ** The codec on trees *)

Lemma pyval_ind' (P : pyval → Prop) :
  P PNone → (∀ b, P (PBool b)) → (∀ n, P (PInt n)) → (∀ s, P (PStr s)) →
  (∀ l, Forall P l → P (PList l)) →
  (∀ kvs, Forall (λ kv, P kv.2) kvs → P (PDict kvs)) →
  (∀ elts, P (PSet elts)) → (∀ f, P (PLazy f)) →
  ∀ v, P v.
Proof.
  intros Hnone Hbool Hint Hstr Hlist Hdict Hset Hlazy.
  fix IH 1. intros [| b | n | s | l | kvs | elts | f]; [done..| | |done|done].
  - apply Hlist. induction l as [|x l IHl]; constructor; [apply IH | apply IHl].
  - apply Hdict. induction kvs as [|[k v] kvs IHl]; constructor; [apply IH | apply IHl].
Qed.

Lemma rmapM_ok_fmap {A B} (f : A → result B) (g : A → B) (l : list A) :
  Forall (λ x, f x = Ok (g x)) l → rmapM f l = Ok (g <$> l).
Proof.
  induction 1 as [|x l Hx Hl IH]; [done|].
  cbn [rmapM]. rewrite Hx. cbn [rbind]. fold (rmapM f l). by rewrite IH.
Qed.

Section sort_items_facts.
Context {V : Type}.
Implicit Types l : list (string * V).

Global Instance key_le_total : Total (key_le (V := V)).
Proof. intros a b. unfold key_le. apply total, _. Qed.

Global Instance key_le_trans : Transitive (key_le (V := V)).
Proof. intros a b c. unfold key_le. apply transitivity. Qed.

Lemma sort_items_perm l : sort_items l ≡ₚ l.
Proof. apply merge_sort_Permutation. Qed.

Lemma sort_items_sorted l : Sorted key_le (sort_items l).
Proof. apply Sorted_merge_sort, _. Qed.

Lemma sort_items_keys_perm l : (sort_items l).*1 ≡ₚ l.*1.
Proof. by rewrite sort_items_perm. Qed.

Lemma sort_items_unique l l' :
  NoDup l.*1 → Sorted key_le l' → l' ≡ₚ l → l' = sort_items l.
Proof.
  intros Hnd Hs Hp.
  apply (Sorted_unique_strong key_le); [|done|apply sort_items_sorted|].
  - intros [k1 v1] [k2 v2] H1 H2 Hle1 Hle2. unfold key_le in *. simpl in *.
    assert (k1 = k2) as <- by (by apply (anti_symm String.le)).
    rewrite Hp in H1. rewrite sort_items_perm in H2.
    f_equal. clear -Hnd H1 H2.
    induction l as [|[k v] l IH]; [by apply elem_of_nil in H1|].
    apply NoDup_cons in Hnd as [Hk Hnd]. simpl in *.
    apply elem_of_cons in H1 as [[= -> ->]|H1];
      apply elem_of_cons in H2 as [[= ->]|H2]; eauto.
    + apply (list_elem_of_fmap_2 fst) in H2. done.
    + subst. apply (list_elem_of_fmap_2 fst) in H1. done.
  - by rewrite Hp, sort_items_perm.
Qed.

Lemma sort_items_id l : NoDup l.*1 → Sorted key_le l → sort_items l = l.
Proof. intros. symmetry. by apply sort_items_unique. Qed.

End sort_items_facts.

Lemma Sorted_key_le_fmap {A B} (F : string * A → string * B) (l : list (string * A)) :
  (∀ kv, (F kv).1 = kv.1) → Sorted key_le l → Sorted key_le (F <$> l).
Proof.
  intros HF. induction 1 as [|kv l Hs IH Hhd]; [constructor|].
  cbn. constructor; [done|].
  destruct Hhd as [|kv' l' Hle]; constructor. unfold key_le in *. by rewrite !HF.
Qed.

Lemma fmap_fst_preserved {A B} (F : string * A → string * B) (l : list (string * A)) :
  (∀ kv, (F kv).1 = kv.1) → (F <$> l).*1 = l.*1.
Proof.
  intros HF. induction l as [|kv l IH]; [done|]. cbn. by rewrite HF, IH.
Qed.

(** Sorting by key commutes with a map that keeps the keys. *)
Lemma sort_items_fmap {A B} (F : string * A → string * B) (l : list (string * A)) :
  (∀ kv, (F kv).1 = kv.1) → NoDup l.*1 →
  sort_items (F <$> l) = F <$> sort_items l.
Proof.
  intros HF Hnd. symmetry. apply sort_items_unique.
  - by rewrite fmap_fst_preserved.
  - apply Sorted_key_le_fmap; [done|apply sort_items_sorted].
  - by rewrite sort_items_perm.
Qed.

Lemma dict_set_fresh {V} k (v : V) d : k ∉ d.*1 → dict_set k v d = d ++ [(k, v)].
Proof.
  induction d as [|[k' v'] d IH]; [done|]. cbn.
  intros [Hne Hk]%not_elem_of_cons.
  destruct (String.eqb_spec k k'); [done|]. by rewrite IH.
Qed.

Lemma dict_of_items_NoDup {V} (items : list (string * V)) :
  NoDup items.*1 → dict_of_items items = items.
Proof.
  unfold dict_of_items.
  assert (∀ acc, NoDup (acc.*1 ++ items.*1) →
            foldl (λ d kv, dict_set kv.1 kv.2 d) acc items = acc ++ items) as H.
  { induction items as [|[k v] items IH]; intros acc Hnd.
    - by rewrite app_nil_r.
    - cbn [foldl fst snd]. rewrite dict_set_fresh.
      + rewrite IH; [by rewrite <- app_assoc|].
        rewrite fmap_app. cbn. by rewrite <- app_assoc.
      + apply NoDup_app in Hnd as (_ & Hnd & _). intros Hk.
        apply (Hnd k Hk). cbn. left. }
  intros Hnd. by apply (H []).
Qed.

Lemma dict_get_elem {V} k (v : V) d : NoDup d.*1 → (k, v) ∈ d → dict_get k d = Ok v.
Proof.
  induction d as [|[k' v'] d IH]; [by intros _ ?%elem_of_nil|].
  intros [Hk Hnd]%NoDup_cons [[= -> ->]|Hin]%elem_of_cons; cbn.
  - by rewrite String.eqb_refl.
  - destruct (String.eqb_spec k k') as [->|]; [|by apply IH].
    by apply (list_elem_of_fmap_2 fst) in Hin.
Qed.

Lemma NoDup_fmap_inj_on {A B} (f : A → B) (l : list A) x y :
  NoDup (f <$> l) → x ∈ l → y ∈ l → f x = f y → x = y.
Proof.
  induction l as [|a l IH]; [by intros _ ?%elem_of_nil|].
  cbn. intros [Ha Hnd]%NoDup_cons [->|Hx]%elem_of_cons [->|Hy]%elem_of_cons Hf; eauto.
  - destruct Ha. rewrite Hf. by apply list_elem_of_fmap_2.
  - destruct Ha. rewrite <- Hf. by apply list_elem_of_fmap_2.
Qed.

Lemma forallb_Forall {A} (f : A → bool) (l : list A) :
  forallb f l = true ↔ Forall (λ x, f x = true) l.
Proof. rewrite forallb_forall, Forall_forall. by setoid_rewrite list_elem_of_In. Qed.

Lemma forallb_perm {A} (f : A → bool) (l l' : list A) :
  l ≡ₚ l' → forallb f l = forallb f l'.
Proof.
  intros Hp. destruct (forallb f l') eqn:E.
  - apply forallb_Forall. rewrite Hp. by apply forallb_Forall.
  - destruct (forallb f l) eqn:E'; [|done].
    apply forallb_Forall in E'. rewrite Hp in E'. apply forallb_Forall in E'. congruence.
Qed.

Section sorted_facts.

Global Instance str_le_total : Total str_le.
Proof. intros a b. unfold str_le. apply total, _. Qed.
Global Instance str_le_trans : Transitive str_le.
Proof. intros a b c. unfold str_le. apply transitivity. Qed.
Global Instance num_le_total : Total num_le.
Proof. intros a b. unfold num_le. lia. Qed.
Global Instance num_le_trans : Transitive num_le.
Proof. intros a b c. unfold num_le. lia. Qed.

Lemma set_okb_unfold elts :
  set_okb elts = true →
  Forall (λ x, is_scalar x = true) elts ∧ NoDup (hash_of <$> elts) ∧
  ((length elts ≤ 1)%nat ∨ Forall (λ x, is_str x = true) elts
   ∨ Forall (λ x, is_num x = true) elts).
Proof.
  unfold set_okb. rewrite !andb_true_iff, !orb_true_iff, !forallb_Forall.
  rewrite bool_decide_eq_true, Nat.leb_le. naive_solver.
Qed.

Lemma sorted_elts_perm elts : sorted_elts elts ≡ₚ elts.
Proof.
  unfold sorted_elts, py_sorted. repeat case_match; simplify_eq; try done;
    apply merge_sort_Permutation.
Qed.

Lemma py_sorted_ok elts : set_okb elts = true → py_sorted elts = Ok (sorted_elts elts).
Proof.
  intros (_ & _ & Hcmp)%set_okb_unfold. unfold sorted_elts, py_sorted.
  destruct (length elts <=? 1)%nat eqn:Hlen; [done|].
  destruct (forallb is_str elts) eqn:Hstr; [done|].
  destruct (forallb is_num elts) eqn:Hnum; [done|].
  apply Nat.leb_gt in Hlen.
  destruct Hcmp as [?|[H|H]]; [lia|..]; apply forallb_Forall in H; congruence.
Qed.

Lemma hash_of_str_inj x y :
  is_str x = true → is_str y = true → str_of x = str_of y → x = y.
Proof. destruct x, y; naive_solver. Qed.

Lemma hash_of_num x y :
  is_num x = true → is_num y = true → num_of x = num_of y → hash_of x = hash_of y.
Proof.
  destruct x as [| [] | | | | | |]; try done;
    destruct y as [| [] | | | | | |]; try done; cbn; congruence.
Qed.

(** Sorting what is sorted changes nothing. *)
Lemma sorted_elts_idemp elts :
  set_okb elts = true → sorted_elts (sorted_elts elts) = sorted_elts elts.
Proof.
  intros (_ & Hnd & _)%set_okb_unfold.
  pose proof (sorted_elts_perm elts) as Hp. revert Hp.
  unfold sorted_elts at 1 3 4. unfold py_sorted.
  destruct (length elts <=? 1)%nat eqn:Hlen.
  { intros _. unfold sorted_elts, py_sorted. by rewrite Hlen. }
  destruct (forallb is_str elts) eqn:Hstr.
  { intros Hp. unfold sorted_elts, py_sorted.
    rewrite (Permutation_length Hp), Hlen, (forallb_perm _ _ _ Hp), Hstr.
    apply (Sorted_unique_strong str_le);
      [|apply Sorted_merge_sort, _..|by rewrite merge_sort_Permutation].
    intros x y Hx Hy H1 H2. repeat rewrite merge_sort_Permutation in Hx.
    repeat rewrite merge_sort_Permutation in Hy.
    apply forallb_Forall in Hstr. rewrite Forall_forall in Hstr.
    apply hash_of_str_inj; [by apply Hstr..|].
    by apply (anti_symm String.le). }
  destruct (forallb is_num elts) eqn:Hnum;
    [|intros _; unfold sorted_elts, py_sorted; by rewrite Hlen, Hstr, Hnum].
  intros Hp. unfold sorted_elts, py_sorted.
  rewrite (Permutation_length Hp), Hlen, !(forallb_perm _ _ _ Hp), Hstr, Hnum.
  apply (Sorted_unique_strong num_le);
    [|apply Sorted_merge_sort, _..|by rewrite merge_sort_Permutation].
  intros x y Hx Hy H1 H2. repeat rewrite merge_sort_Permutation in Hx.
    repeat rewrite merge_sort_Permutation in Hy.
  apply forallb_Forall in Hnum. rewrite Forall_forall in Hnum.
  apply (NoDup_fmap_inj_on hash_of elts); [done..|].
  apply hash_of_num; [by apply Hnum..|]. unfold num_le in *. lia.
Qed.

Lemma set_okb_sorted elts : set_okb elts = true → set_okb (sorted_elts elts) = true.
Proof.
  intros H. pose proof (sorted_elts_perm elts) as Hp. unfold set_okb in *.
  rewrite (forallb_perm is_scalar _ _ Hp), (forallb_perm is_str _ _ Hp),
    (forallb_perm is_num _ _ Hp), (Permutation_length Hp).
  rewrite (bool_decide_ext _ (NoDup (hash_of <$> elts))); [done|].
  by rewrite Hp.
Qed.

Lemma set_of_list_NoDup l seen :
  Forall (λ x, is_scalar x = true) l →
  NoDup (hash_of <$> l) → (∀ x, x ∈ l → hash_of x ∉ seen) →
  set_of_list seen l = Ok l.
Proof.
  revert seen. induction l as [|x l IH]; intros seen Hs Hnd Hseen; [done|].
  apply Forall_cons in Hs as [Hx Hs]. cbn in Hnd. apply NoDup_cons in Hnd as [Hxl Hnd].
  cbn [set_of_list].
  assert (py_hash x = Ok (hash_of x)) as -> by (by destruct x).
  cbn [rbind]. rewrite bool_decide_eq_false_2 by (apply Hseen; left).
  rewrite IH; [done|done|done|].
  intros y Hy Hin. apply elem_of_cons in Hin as [Heq|Hin].
  - apply Hxl. rewrite <- Heq. by apply list_elem_of_fmap_2.
  - apply (Hseen y); [by right|done].
Qed.

End sorted_facts.

Section codec_facts.

Lemma doc_ok_list l : doc_ok (PList l) ↔ Forall doc_ok l.
Proof. unfold doc_ok. cbn [doc_okb]. by rewrite forallb_Forall. Qed.

Lemma doc_ok_dict kvs :
  doc_ok (PDict kvs) ↔
  NoDup kvs.*1 ∧ ("__lazy_json__" ∉ kvs.*1) ∧ ("__set__" ∉ kvs.*1) ∧
  Forall (λ kv, doc_ok kv.2) kvs.
Proof.
  unfold doc_ok. cbn [doc_okb]. unfold dict_mem.
  rewrite !andb_true_iff, forallb_Forall, bool_decide_eq_true.
  rewrite !negb_true_iff, !bool_decide_eq_false. tauto.
Qed.

Lemma decode_arr hook l :
  decode_with hook (JArr l) =
    rbind (rmapM (decode_with hook) l) (λ vs, Ok (PList vs)).
Proof. reflexivity. Qed.

Lemma decode_obj hook kvs :
  decode_with hook (JObj kvs) =
    rbind (rmapM (λ kv, rbind (decode_with hook kv.2) (λ v, Ok (kv.1, v))) kvs)
      (λ items, hook (dict_of_items items)).
Proof. reflexivity. Qed.

Lemma encode_atom_tree x : is_scalar x = true → encode_atom x = Ok (atom_tree x).
Proof. by destruct x. Qed.

Lemma decode_atom_tree hook x :
  is_scalar x = true → decode_with hook (atom_tree x) = Ok x.
Proof. by destruct x. Qed.

(** On a good value [encode] does not raise. *)
Lemma encode_tree v : doc_ok v → encode v = Ok (tree v).
Proof.
  induction v as [| b | n | s | l IH | kvs IH | elts | f] using pyval_ind';
    intros Hok; try done.
  - apply doc_ok_list in Hok. cbn [encode tree].
    rewrite (rmapM_ok_fmap _ tree); [done|].
    rewrite Forall_forall in *. eauto.
  - apply doc_ok_dict in Hok as (_ & _ & _ & Hok). cbn [encode tree].
    rewrite (rmapM_ok_fmap _ (λ kv, (kv.1, tree kv.2))); [done|].
    rewrite Forall_forall in *. intros kv Hkv. by rewrite IH by eauto.
  - unfold doc_ok in Hok. cbn [doc_okb] in Hok. cbn [encode tree].
    rewrite py_sorted_ok by done. cbn [rbind].
    rewrite (rmapM_ok_fmap _ atom_tree); [done|].
    apply set_okb_unfold in Hok as (Hs & _).
    rewrite sorted_elts_perm. rewrite Forall_forall in *.
    intros x Hx. by apply encode_atom_tree, Hs.
Qed.

Lemma object_hook_set_token b v :
  object_hook [("__set__", b); ("elements", v)] = py_set v.
Proof. reflexivity. Qed.

Lemma object_hook_lazy_token f :
  object_hook [("__lazy_json__", PStr f)] = Ok (PLazy f).
Proof. reflexivity. Qed.

(** Decoding the tree of a good value gives its normal form. *)
Lemma decode_tree v : doc_ok v → decode_with object_hook (tree v) = Ok (canon v).
Proof.
  induction v as [| b | n | s | l IH | kvs IH | elts | f] using pyval_ind';
    intros Hok; try done.
  - apply doc_ok_list in Hok. cbn [tree canon]. rewrite decode_arr.
    rewrite (rmapM_ok_fmap _ (λ j, j) ) || idtac.
    assert (rmapM (decode_with object_hook) (tree <$> l) = Ok (canon <$> l)) as ->; [|done].
    clear -IH Hok. induction l as [|x l IHl]; [done|].
    apply Forall_cons in IH as [Hx IH]. apply Forall_cons in Hok as [Hokx Hok].
    cbn [fmap list_fmap rmapM]. rewrite Hx by done. cbn [rbind].
    fold (rmapM (decode_with object_hook) (tree <$> l)). by rewrite IHl.
  - apply doc_ok_dict in Hok as (Hnd & Hlazy & Hset & Hok). cbn [tree canon].
    rewrite decode_obj.
    rewrite (sort_items_fmap (λ kv, (kv.1, tree kv.2))) by done.
    assert (rmapM (λ kv, rbind (decode_with object_hook kv.2) (λ v, Ok (kv.1, v)))
              ((λ kv, (kv.1, tree kv.2)) <$> sort_items kvs)
            = Ok ((λ kv, (kv.1, canon kv.2)) <$> sort_items kvs)) as ->.
    { assert (Forall (λ kv, decode_with object_hook (tree kv.2) = Ok (canon kv.2))
                (sort_items kvs)) as H.
      { rewrite sort_items_perm. rewrite Forall_forall in *. eauto. }
      clear -H. induction H as [|kv l Hkv Hl IHl]; [done|].
      cbn [fmap list_fmap rmapM fst snd]. rewrite Hkv. cbn [rbind].
      fold (rmapM (λ kv, rbind (decode_with object_hook kv.2) (λ v, Ok (kv.1, v)))
              ((λ kv, (kv.1, tree kv.2)) <$> l)).
      by rewrite IHl. }
    cbn [rbind].
    rewrite <- (sort_items_fmap (λ kv, (kv.1, canon kv.2))) by done.
    assert ((sort_items ((λ kv, (kv.1, canon kv.2)) <$> kvs)).*1 ≡ₚ kvs.*1) as Hkeys.
    { by rewrite sort_items_keys_perm, fmap_fst_preserved. }
    rewrite dict_of_items_NoDup by (by rewrite Hkeys).
    unfold object_hook, dict_mem.
    rewrite !bool_decide_eq_false_2 by (by rewrite Hkeys). done.
  - unfold doc_ok in Hok. cbn [doc_okb] in Hok. cbn [tree canon].
    rewrite decode_obj. cbn [rmapM fst snd]. rewrite decode_arr.
    assert (rmapM (decode_with object_hook) (atom_tree <$> sorted_elts elts)
            = Ok (sorted_elts elts)) as ->.
    { pose proof (set_okb_sorted _ Hok) as (Hs & _)%set_okb_unfold.
      clear -Hs. induction Hs as [|x l Hx Hl IH]; [done|].
      cbn [fmap list_fmap rmapM]. rewrite decode_atom_tree by done. cbn [rbind].
      fold (rmapM (decode_with object_hook) (atom_tree <$> l)). by rewrite IH. }
    cbn [rbind decode_with]. unfold dict_of_items. cbn [foldl dict_set fst snd].
    change (String.eqb "elements" "__set__") with false. cbv iota.
    rewrite object_hook_set_token. cbn [py_set].
    pose proof (set_okb_sorted _ Hok) as (Hs & Hnd & _)%set_okb_unfold.
    rewrite set_of_list_NoDup; [done|done|done|].
    intros x _. apply not_elem_of_nil.
Qed.

Lemma doc_ok_canon v : doc_ok v → doc_ok (canon v) ∧ tree (canon v) = tree v.
Proof.
  induction v as [| b | n | s | l IH | kvs IH | elts | f] using pyval_ind';
    intros Hok; try done.
  - apply doc_ok_list in Hok. cbn [canon tree]. rewrite doc_ok_list. split.
    + rewrite Forall_fmap. rewrite Forall_forall in *. intros x Hx.
      by apply IH; auto.
    + f_equal. rewrite <- list_fmap_compose. apply list_fmap_ext.
      rewrite Forall_forall in *. intros ? x Hx%list_elem_of_lookup_2.
      by apply IH; auto.
  - apply doc_ok_dict in Hok as (Hnd & Hlazy & Hset & Hok). cbn [canon tree].
    set (C := λ kv : string * pyval, (kv.1, canon kv.2)).
    set (T := λ kv : string * pyval, (kv.1, tree kv.2)).
    assert ((sort_items (C <$> kvs)).*1 ≡ₚ kvs.*1) as Hkeys.
    { by rewrite sort_items_keys_perm, fmap_fst_preserved. }
    split.
    + apply doc_ok_dict. rewrite Hkeys. split_and!; [done..|].
      rewrite sort_items_perm, Forall_fmap. rewrite Forall_forall in *.
      intros kv Hkv. by apply IH; auto.
    + f_equal. rewrite (sort_items_fmap C) by done.
      rewrite <- list_fmap_compose.
      rewrite (list_fmap_ext (T ∘ C) T (sort_items kvs)).
      2:{ intros ? kv Hkv%list_elem_of_lookup_2. rewrite sort_items_perm in Hkv.
          unfold T, C. cbn. f_equal. rewrite Forall_forall in *. by apply IH; auto. }
      rewrite (sort_items_fmap T (sort_items kvs))
        by (done || by rewrite sort_items_keys_perm).
      rewrite (sort_items_id (sort_items kvs));
        [|by rewrite sort_items_keys_perm|apply sort_items_sorted].
      by rewrite (sort_items_fmap T).
  - unfold doc_ok in *. cbn [doc_okb canon tree] in *. split.
    + by apply set_okb_sorted.
    + by rewrite sorted_elts_idemp.
Qed.

(** A value and its normal form are equal for Python. *)
Lemma canon_equiv v : py_equiv v (canon v).
Proof.
  induction v as [| b | n | s | l IH | kvs IH | elts | f] using pyval_ind';
    try by constructor.
  - cbn [canon]. constructor.
    induction IH as [|x l Hx Hl IHl]; by constructor.
  - cbn [canon]. eapply equiv_dict; [|symmetry; apply sort_items_perm].
    induction IH as [|x l Hx Hl IHl]; by constructor.
  - cbn [canon]. constructor. symmetry. apply sorted_elts_perm.
Qed.

Lemma keys_sorted_elems l :
  foldr (λ y P, keys_sorted y ∧ P) True l ↔ Forall keys_sorted l.
Proof.
  induction l as [|x l IH]; cbn; [by split; [constructor|]|].
  rewrite IH, Forall_cons. done.
Qed.

Lemma keys_sorted_members (l : list (string * json)) :
  foldr (λ kv P, keys_sorted kv.2 ∧ P) True l ↔ Forall (λ kv, keys_sorted kv.2) l.
Proof.
  induction l as [|x l IH]; cbn; [by split; [constructor|]|].
  rewrite IH, Forall_cons. done.
Qed.

Lemma Sorted_strict_keys {V} (l : list (string * V)) :
  NoDup l.*1 → Sorted key_le l → Sorted (strict String.le) l.*1.
Proof.
  intros Hnd Hs. apply Sorted_StronglySorted in Hs; [|apply _].
  induction Hs as [|kv l Hs IH Hall]; [constructor|].
  cbn in *. apply NoDup_cons in Hnd as [Hkv Hnd].
  constructor; [by apply IH|].
  destruct l as [|kv' l]; constructor.
  apply Forall_cons in Hall as [Hle _]. split; [done|].
  intros Hle'. apply Hkv. cbn.
  assert (kv.1 = kv'.1) as -> by (by apply (anti_symm String.le)). left.
Qed.

(** [encode] writes every object with its keys in increasing order. *)
Lemma keys_sorted_tree v : doc_ok v → keys_sorted (tree v).
Proof.
  induction v as [| b | n | s | l IH | kvs IH | elts | f] using pyval_ind';
    intros Hok; try done.
  - apply doc_ok_list in Hok. cbn [tree keys_sorted].
    apply keys_sorted_elems. rewrite Forall_fmap. rewrite Forall_forall in *.
    intros x Hx. by apply IH; auto.
  - apply doc_ok_dict in Hok as (Hnd & _ & _ & Hok). cbn [tree keys_sorted]. split.
    + apply Sorted_strict_keys; [|apply sort_items_sorted].
      by rewrite sort_items_keys_perm, fmap_fst_preserved.
    + apply keys_sorted_members. rewrite sort_items_perm, Forall_fmap.
      rewrite Forall_forall in *. intros kv Hkv. by apply IH; auto.
  - cbn [tree keys_sorted foldr fst snd fmap list_fmap]. split_and!; try done.
    + repeat constructor; by intros [].
    + apply keys_sorted_elems. rewrite Forall_fmap. apply Forall_forall.
      intros x _. by destruct x.
  - cbn. split_and!; try done. repeat constructor.
Qed.

Lemma loads_dumps_tree j : loads (rapidjson.dumps j) = decode_with object_hook j.
Proof.
  unfold loads, rapidjson.loads_with. by rewrite rapidjson_facts.parse_dumps.
Qed.

End codec_facts.

(** C3, as the code has it.  A document value whose dictionaries have
    distinct keys, none of them ["__lazy_json__"] or ["__set__"], and whose
    sets hold distinct scalars that [sorted] can compare, is written by
    [dumps]; [loads] reads from that text a value equal to it for Python
    (dictionaries as maps, sets as sets, handles by file name); and [dumps]
    writes that value as the very same text.  The text is the pretty print,
    with one space per level, of a tree whose objects have their keys in
    increasing order, a set being the object of ["__set__"] and of the
    sorted ["elements"]. *)
Theorem dumps_loads_roundtrip (v : pyval) :
  doc_ok v →
  ∃ s v',
    dumps v = Ok s ∧ loads s = Ok v' ∧ py_equiv v v' ∧ dumps v' = Ok s ∧
    s = rapidjson.write 0 (tree v) "" ∧ keys_sorted (tree v) ∧
    (∀ elts, v = PSet elts →
       tree v = JObj [("__set__", JBool true);
                      ("elements", JArr (atom_tree <$> sorted_elts elts))]
       ∧ py_sorted (sorted_elts elts) = Ok (sorted_elts elts)).
Proof.
  intros Hok. destruct (doc_ok_canon v Hok) as [Hok' Htree].
  exists (rapidjson.dumps (tree v)), (canon v). split_and!.
  - unfold dumps. by rewrite encode_tree.
  - by rewrite loads_dumps_tree, decode_tree.
  - apply canon_equiv.
  - unfold dumps. by rewrite encode_tree, Htree.
  - done.
  - by apply keys_sorted_tree.
  - intros elts ->. split; [done|].
    unfold doc_ok in Hok. cbn [doc_okb] in Hok.
    rewrite py_sorted_ok by (by apply set_okb_sorted).
    by rewrite sorted_elts_idemp.
Qed.

(** C3 as the claim has it fails: a dictionary that holds the key
    ["__set__"] is written as a plain object and read back as a set, which
    is written as another text. *)
Lemma dumps_loads_marker_key_counterexample :
  let v := PDict [("__set__", PBool false); ("elements", PList [PInt 2; PInt 1])] in
  ∃ s v', dumps v = Ok s ∧ loads s = Ok v' ∧ ¬ py_equiv v v' ∧ dumps v' ≠ Ok s.
Proof.
  eexists _, _. split_and!.
  - vm_compute. reflexivity.
  - vm_compute. reflexivity.
  - intros H. inversion H.
  - vm_compute. intros [=].
Qed.

(** ** The dispatch of [object_hook] *)

Lemma dict_get_absent {V} k (d : list (string * V)) :
  dict_mem k d = false → dict_get k d = Raise (KeyError k).
Proof.
  unfold dict_mem. rewrite bool_decide_eq_false.
  induction d as [|[k' v] d IH]; [done|]. cbn.
  intros [Hne Hk]%not_elem_of_cons.
  destruct (String.eqb_spec k k'); [done|]. by apply IH.
Qed.

(** C10, as the code has it.  [loads] hands every JSON object, once its
    members are decoded, to [object_hook], which looks at the keys alone and
    in this order: an object with the key ["__lazy_json__"] becomes the
    handle of the string under that key, the other members being dropped;
    otherwise an object with the key ["__set__"], whatever is under it,
    becomes [set] of what is under ["elements"], a [KeyError] when that key
    is missing; only an object with neither key stays a dictionary. *)
Theorem object_hook_dispatch (kvs : list (string * json)) (items : list (string * pyval)) :
  rmapM (λ kv, rbind (decode_with object_hook kv.2) (λ v, Ok (kv.1, v))) kvs = Ok items →
  let dct := dict_of_items items in
  loads (rapidjson.dumps (JObj kvs)) = object_hook dct ∧
  (dict_mem "__lazy_json__" dct = true →
   ∀ s, dict_get "__lazy_json__" dct = Ok (PStr s) → object_hook dct = Ok (PLazy s)) ∧
  (dict_mem "__lazy_json__" dct = false → dict_mem "__set__" dct = true →
   object_hook dct = rbind (dict_get "elements" dct) py_set ∧
   (dict_mem "elements" dct = false → object_hook dct = Raise (KeyError "elements")) ∧
   (∀ l, dict_get "elements" dct = Ok (PList l) →
      Forall (λ x, is_scalar x = true) l → NoDup (hash_of <$> l) →
      object_hook dct = Ok (PSet l))) ∧
  (∀ d, object_hook dct = Ok (PDict d) →
     dict_mem "__lazy_json__" dct = false ∧ dict_mem "__set__" dct = false ∧ d = dct).
Proof.
  intros Hitems dct. split_and!.
  - rewrite loads_dumps_tree, decode_obj, Hitems. done.
  - intros Hlazy s Hs. unfold object_hook. by rewrite Hlazy, Hs.
  - intros Hlazy Hset. unfold object_hook. rewrite Hlazy, Hset. split_and!.
    + done.
    + intros Hel. by rewrite dict_get_absent.
    + intros l -> Hs Hnd. cbn [rbind py_set].
      rewrite set_of_list_NoDup; [done|done|done|].
      intros x _. apply not_elem_of_nil.
  - intros d. unfold object_hook.
    destruct (dict_mem "__lazy_json__" dct) eqn:Hlazy.
    { destruct (dict_get "__lazy_json__" dct) as [[]|]; done. }
    destruct (dict_mem "__set__" dct) eqn:Hset; [|by intros [= <-]].
    destruct (dict_get "elements" dct) as [v|]; [|done].
    destruct v; cbn [rbind py_set]; try done;
      match goal with |- context [set_of_list ?a ?b] => destruct (set_of_list a b) end; done.
Qed.

(** C10 as the claim has it fails twice: an object with the key
    ["__set__"] and the key ["__lazy_json__"] is read as a handle, not as
    the set of its elements; and an object whose ["__lazy_json__"] is no
    string is not read at all. *)
Lemma object_hook_marker_counterexample :
  let both := JObj [("__lazy_json__", JStr "a.json"); ("__set__", JBool true);
                    ("elements", JArr [])] in
  let number := JObj [("__lazy_json__", JInt 5)] in
  "__set__" ∈ ["__lazy_json__"; "__set__"; "elements"] ∧
  loads (rapidjson.dumps both) = Ok (PLazy "a.json") ∧
  loads (rapidjson.dumps both) ≠ Ok (PSet []) ∧
  is_ok (loads (rapidjson.dumps number)) = false.
Proof.
  split_and!.
  - set_solver.
  - vm_compute. reflexivity.
  - vm_compute. intros [=].
  - vm_compute. reflexivity.
Qed.

(** ** [LazyJson]: edit scopes and flushes *)

Ltac method_unfold :=
  unfold bind, ret, lift, gets, modify, raise, self_get, self_set, world, assert;
  cbn [fst snd].

Lemma decode_plain_total j : ∃ v, decode_with plain_hook j = Ok v.
Proof.
  induction j as [| b | n | s | l IH | kvs IH] using rapidjson_facts.json_ind';
    try by eexists.
  - assert (∃ vs, rmapM (decode_with plain_hook) l = Ok vs) as [vs Hvs].
    { induction IH as [|x l [v Hx] Hl [vs IHl]]; [by eexists|].
      cbn [rmapM]. rewrite Hx. cbn [rbind].
      fold (rmapM (decode_with plain_hook) l). rewrite IHl. by eexists. }
    rewrite decode_arr, Hvs. by eexists.
  - assert (∃ items, rmapM (λ kv, rbind (decode_with plain_hook kv.2)
                                     (λ v, Ok (kv.1, v))) kvs = Ok items) as [items Hitems].
    { induction IH as [|x l [v Hx] Hl [vs IHl]]; [by eexists|].
      cbn [rmapM]. rewrite Hx. cbn [rbind].
      fold (rmapM (λ kv, rbind (decode_with plain_hook kv.2) (λ v, Ok (kv.1, v))) l).
      rewrite IHl. by eexists. }
    rewrite decode_obj, Hitems. by eexists.
Qed.

(** The database takes whatever [dumps] wrote. *)
Lemma loads_of_dumps v data_str :
  dumps v = Ok data_str → ∃ doc, rapidjson.loads data_str = Ok doc.
Proof.
  unfold dumps. destruct (encode v) as [j|]; [|done]. intros [= <-].
  unfold rapidjson.loads, rapidjson.loads_with.
  rewrite rapidjson_facts.parse_dumps. apply decode_plain_total.
Qed.

Lemma bind_ok {S A B} (m : ST S A) (k : A → ST S B) s a s' :
  m s = (Ok a, s') → bind m k s = k a s'.
Proof. unfold bind. by intros ->. Qed.

Lemma bind_raise {S A B} (m : ST S A) (k : A → ST S B) s e s' :
  m s = (Raise e, s') → bind m k s = (Raise e, s').
Proof. unfold bind. by intros ->. Qed.

Lemma loaded_data_eq (self : LazyJson) (w : World) v :
  _data self = Some v → loaded_data (self, w) = (Ok v, (self, w)).
Proof. intros H. unfold loaded_data, bind, self_get, gets. cbn [fst]. by rewrite H. Qed.

Section lazy_json_facts.

Variable sha1 : string → N.
Variable sha256 : string → string.
Variable primary : string.
Variable secondaries : list string.

Lemma load_loaded self w data :
  _data self = Some data → _load sha1 sha256 primary (self, w) = (Ok tt, (self, w)).
Proof. intros H. unfold _load. cbn. by rewrite H. Qed.

Lemma invoke_file_hset name key value w :
  invoke sha1 sha256 "file" (OpHset name key value) (λ b, hset b name key value) w =
    (Ok tt, set_fs (λ files, <[sharded_file sha1 name key := value]> files)
              (add_call ("file", OpHset name key value) w)).
Proof.
  unfold invoke, LAZY_JSON_BACKENDS.
  change (String.eqb "file" "file") with true. cbv iota.
  unfold bind, ret, modify. cbn [hset FileLazyJsonBackend].
  by rewrite file_hset_eq.
Qed.

Lemma invoke_mongo_hset name key value doc w :
  valid_hashmap name = true → rapidjson.loads value = Ok doc →
  invoke sha1 sha256 "mongodb" (OpHset name key value) (λ b, hset b name key value) w =
    (Ok tt, upsert name key (MongoDoc doc (sha256 value))
              (add_call ("mongodb", OpHset name key value) w)).
Proof.
  intros Hvalid Hdoc. unfold invoke, LAZY_JSON_BACKENDS.
  change (String.eqb "mongodb" "file") with false.
  change (String.eqb "mongodb" "mongodb") with true. cbv iota.
  unfold bind, ret, modify. cbn [hset MongoDBLazyJsonBackend].
  by rewrite mongo_hset_eq, Hvalid, Hdoc.
Qed.

(** C8.  Outside an edit scope, item assignment, item deletion and
    [clear] raise [AssertionError] before anything else happens: the
    document and the world are as they were.  Once the scope is entered
    they go through: on a document that loads as a dictionary, the
    assignment sets the item, [clear] empties the dictionary, and the
    deletion removes the item (a key that is not there is a [KeyError],
    as for any mapping). *)
Theorem mutation_needs_edit_scope (self self' : LazyJson) (w w' : World)
    (key : string) (value : pyval) (d : list (string * pyval)) :
  _in_context self = false →
  _load sha1 sha256 primary (set_in_context true self, w) = (Ok tt, (self', w')) →
  _data self' = Some (PDict d) →
  (__setitem__ sha1 sha256 primary key value (self, w) = (Raise AssertionError, (self, w)) ∧
   __delitem__ sha1 sha256 primary key (self, w) = (Raise AssertionError, (self, w)) ∧
   clear sha1 sha256 primary (self, w) = (Raise AssertionError, (self, w))) ∧
  ((__enter__ >> __setitem__ sha1 sha256 primary key value) (self, w) =
     (Ok tt, (set_data (Some (PDict (dict_set key value d))) self', w')) ∧
   (__enter__ >> clear sha1 sha256 primary) (self, w) =
     (Ok tt, (set_data (Some (PDict [])) self', w')) ∧
   (__enter__ >> __delitem__ sha1 sha256 primary key) (self, w) =
     match dict_del key d with
     | Ok d' => (Ok tt, (set_data (Some (PDict d')) self', w'))
     | Raise e => (Raise e, (self', w'))
     end ∧
   (key ∈ d.*1 → ∃ d', dict_del key d = Ok d')).
Proof.
  intros Hout Hload Hdict. split; split_and!.
  - unfold __setitem__. cbn -[_load]. by rewrite Hout.
  - unfold __delitem__. cbn -[_load]. by rewrite Hout.
  - unfold clear. cbn -[_load]. by rewrite Hout.
  - unfold __setitem__, __enter__. cbn -[_load].
    rewrite (bind_ok _ _ _ _ _ Hload).
    by rewrite (bind_ok _ _ _ _ _ (loaded_data_eq _ _ _ Hdict)).
  - unfold clear, __enter__. cbn -[_load].
    rewrite (bind_ok _ _ _ _ _ Hload).
    unfold bind, self_get, gets. cbn [fst]. by rewrite Hdict.
  - unfold __delitem__, __enter__. cbn -[_load].
    rewrite (bind_ok _ _ _ _ _ Hload).
    rewrite (bind_ok _ _ _ _ _ (loaded_data_eq _ _ _ Hdict)).
    unfold bind, lift, py_delitem. by destruct (dict_del key d).
  - clear. induction d as [|[k v] d IH]; [by intros ?%elem_of_nil|].
    cbn. intros [->|Hin]%elem_of_cons.
    + rewrite String.eqb_refl. by eexists.
    + destruct (String.eqb key k); [by eexists|].
      destruct (IH Hin) as [d' ->]. by eexists.
Qed.

(** The loop of [_dump] over the backends that are not the file
    backend. *)
Lemma dump_loop name key value doc (self : LazyJson) names : ∀ w,
  Forall known_backend names →
  ("mongodb" ∈ names → valid_hashmap name = true) →
  rapidjson.loads value = Ok doc →
  ∃ w',
    for_each (S := LazyJson * World) (λ backend_name,
      if String.eqb backend_name "file" then ret tt
      else world (invoke sha1 sha256 backend_name (OpHset name key value)
                    (λ b, hset b name key value))) names (self, w)
      = (Ok tt, (self, w')) ∧
    calls w' = calls w ++
      ((λ b, (b, OpHset name key value)) <$> filter (λ b, b ≠ "file") names) ∧
    fs w' = fs w ∧
    cf_graph w' =
      (if bool_decide ("mongodb" ∈ names)
       then <[name := <[key := MongoDoc doc (sha256 value)]> (collection name w)]> (cf_graph w)
       else cf_graph w).
Proof.
  induction names as [|b names IH]; intros w Hknown Hvalid Hdoc.
  - exists w. cbn. by rewrite app_nil_r.
  - apply Forall_cons in Hknown as [[->| ->] Hknown].
    + destruct (IH w Hknown) as (w' & Hrun & Hcalls & Hfs & Hdb); [|done|].
      { intros Hin. apply Hvalid. by right. }
      exists w'. split_and!; [| |done|].
      * cbn [for_each]. by rewrite (bind_ok _ _ _ tt (self, w)).
      * rewrite filter_cons_False by (by intros []). done.
      * rewrite Hdb.
        rewrite (bool_decide_ext ("mongodb" ∈ "file" :: names) ("mongodb" ∈ names));
          [done|set_solver].
    + assert (valid_hashmap name = true) as Hv by (apply Hvalid; left).
      set (w1 := upsert name key (MongoDoc doc (sha256 value))
                   (add_call ("mongodb", OpHset name key value) w)).
      destruct (IH w1 Hknown) as (w' & Hrun & Hcalls & Hfs & Hdb); [|done|].
      { intros Hin. apply Hvalid. by right. }
      exists w'. split_and!.
      * cbn [for_each]. rewrite (bind_ok _ _ _ tt (self, w1)); [done|].
        change (String.eqb "mongodb" "file") with false. cbv iota.
        unfold world. cbn [snd fst]. by rewrite (invoke_mongo_hset _ _ _ doc).
      * rewrite Hcalls. rewrite filter_cons_True by done. cbn. by rewrite <- app_assoc.
      * by rewrite Hfs.
      * rewrite Hdb, (bool_decide_eq_true_2 ("mongodb" ∈ "mongodb" :: names)) by left.
        assert (collection name w1 =
                <[key := MongoDoc doc (sha256 value)]> (collection name w)) as ->
          by (unfold w1; by rewrite collection_upsert).
        assert (cf_graph w1 =
                <[name := <[key := MongoDoc doc (sha256 value)]> (collection name w)]>
                  (cf_graph w)) as -> by done.
        case_bool_decide; by rewrite ?insert_insert_eq.
Qed.


End lazy_json_facts.

(** ** The transaction scope of the database backend *)

(** Entering while the handle is set opens nothing and keeps the handle. *)
Lemma transaction_enter_reuses (w : World) (session : nat) :
  _session w = Some session → transaction_enter w = (Ok Reused, w).
Proof. intros H. unfold transaction_enter, bind, gets. by rewrite H. Qed.

(** Every exit, of either branch and for either outcome, leaves the handle
    cleared. *)
Lemma transaction_exit_clears_handle (f : frame) (raised : bool) (w : World) :
  _session (transaction_exit f raised w).2 = None.
Proof. by destruct f, raised. Qed.

(** C4 on the code.  A scope that holds two nested scopes one after the
    other: the exit of the first nested scope clears the handle while the
    session of the outer scope is still open, so the second nested scope
    finds no handle and starts a second session.  Two sessions are then
    open at once, and the outer one is no longer the session that the
    backend passes to the database. *)
Theorem transaction_reentry_opens_second_session :
  ∃ w,
    run_scopes [Enter; Enter; Exit false; Enter] [] empty_world
      = Some ([Opened 1; Opened 0], w) ∧
    live_sessions w = [1; 0]%nat ∧ _session w = Some 1%nat ∧
    (∃ w1, run_scopes [Enter; Enter; Exit false] [] empty_world = Some ([Opened 0], w1) ∧
           live_sessions w1 = [0%nat] ∧ _session w1 = None).
Proof. eexists. split_and!; [reflexivity..|]. eexists. split_and!; reflexivity. Qed.

(** ** The file backend as a map from keys to texts *)

Lemma bind_gets {S A B} (f : S → A) (k : A → ST S B) s : bind (gets f) k s = k (f s) s.
Proof. reflexivity. Qed.

Lemma bind_ret {S A B} (a : A) (k : A → ST S B) s : bind (ret a) k s = k a s.
Proof. reflexivity. Qed.

Section file_view_facts.

Lemma elem_of_fst_map_to_list (files : gmap string string) p :
  p ∈ (map_to_list files).*1 ↔ is_Some (files !! p).
Proof.
  rewrite list_elem_of_fmap. split.
  - intros ([q s] & -> & Hin). apply elem_of_map_to_list in Hin. by eexists.
  - intros [s Hs]. exists (p, s). split; [done|]. by apply elem_of_map_to_list.
Qed.

Lemma elem_of_listing name files p :
  p ∈ listing name files ↔ is_Some (files !! p) ∧ listable name p = true.
Proof.
  unfold listing, listable, glob_top, glob_rec.
  destruct (String.eqb name "lazy_json").
  - rewrite !list_elem_of_filter, elem_of_fst_map_to_list.
    rewrite !andb_true_iff, bool_decide_eq_true.
    rewrite <- !Is_true_true, andb_True. tauto.
  - rewrite list_elem_of_filter, elem_of_fst_map_to_list, <- Is_true_true. tauto.
Qed.

Lemma NoDup_listing name files : NoDup (listing name files).
Proof.
  unfold listing, glob_top, glob_rec.
  destruct (String.eqb name "lazy_json");
    repeat apply NoDup_filter; apply NoDup_fst_map_to_list.
Qed.

Lemma file_hkeys_eq name w :
  file_hkeys name w = (Ok (key_of <$> listing name (fs w)), w).
Proof.
  unfold file_hkeys, listing. by destruct (String.eqb name "lazy_json").
Qed.

Variable sha1 : string → N.

Lemma file_key_spec name k :
  file_key sha1 name k = true ↔
  listable name (sharded_file sha1 name k) = true ∧ key_of (sharded_file sha1 name k) = k.
Proof.
  unfold file_key. rewrite andb_true_iff, String.eqb_eq. tauto.
Qed.

(** Two keys of the file backend have two files. *)
Lemma sharded_file_inj name k1 k2 :
  file_key sha1 name k1 = true → file_key sha1 name k2 = true →
  sharded_file sha1 name k1 = sharded_file sha1 name k2 → k1 = k2.
Proof.
  intros [_ H1]%file_key_spec [_ H2]%file_key_spec E. by rewrite <- H1, <- H2, E.
Qed.

Lemma listed_file_key name files p :
  tree_ok sha1 name files → p ∈ listing name files →
  file_key sha1 name (key_of p) = true ∧ sharded_file sha1 name (key_of p) = p.
Proof.
  intros Hok [Hp Hl]%elem_of_listing. pose proof (Hok p Hp Hl) as Hs.
  split; [|done]. apply file_key_spec. by rewrite Hs.
Qed.

Lemma NoDup_listing_keys name files :
  tree_ok sha1 name files → NoDup (key_of <$> listing name files).
Proof.
  intros Hok. apply NoDup_fmap_2_strong; [|apply NoDup_listing].
  intros p q Hp Hq E.
  destruct (listed_file_key _ _ _ Hok Hp) as [_ <-].
  destruct (listed_file_key _ _ _ Hok Hq) as [_ <-]. by rewrite E.
Qed.

(** The view, key by key. *)
Lemma file_view_lookup f name files k :
  tree_ok sha1 name files →
  file_view f name files !! k =
    if file_key sha1 name k then f <$> files !! sharded_file sha1 name k else None.
Proof.
  intros Hok. unfold file_view.
  set (L := (λ p, (key_of p, f (from_option id "" (files !! p)))) <$> listing name files).
  assert (L.*1 = key_of <$> listing name files) as HL1.
  { unfold L. rewrite <- list_fmap_compose. done. }
  assert (NoDup L.*1) as Hnd by (rewrite HL1; by apply NoDup_listing_keys).
  rewrite (list_to_map_proper (reverse L) L); [| |by rewrite reverse_Permutation].
  2:{ by rewrite fmap_reverse, reverse_Permutation. }
  destruct (file_key sha1 name k) eqn:Hk.
  - apply file_key_spec in Hk as [Hl Hkey].
    destruct (files !! sharded_file sha1 name k) as [c|] eqn:Hc; cbn.
    + apply elem_of_list_to_map; [done|]. unfold L. apply list_elem_of_fmap.
      exists (sharded_file sha1 name k). rewrite Hc, Hkey. split; [done|].
      apply elem_of_listing. split; [by eexists|done].
    + apply not_elem_of_list_to_map. rewrite HL1.
      intros (p & -> & Hp)%list_elem_of_fmap.
      destruct (listed_file_key _ _ _ Hok Hp) as [_ Hs].
      apply elem_of_listing in Hp as [[c Hp] _]. congruence.
  - apply not_elem_of_list_to_map. rewrite HL1.
    intros (p & -> & Hp)%list_elem_of_fmap.
    destruct (listed_file_key _ _ _ Hok Hp) as [Hfk _]. congruence.
Qed.

Variable sha256 : string → string.

Lemma file_hgetall_eq name hashval w :
  tree_ok sha1 name (fs w) →
  file_hgetall sha1 sha256 name hashval w =
    (Ok (file_view (λ s, if hashval then sha256 s else s) name (fs w)), w).
Proof.
  intros Hok. unfold file_hgetall.
  rewrite (bind_ok _ _ _ _ _ (file_hkeys_eq name w)).
  set (f := λ s : string, if hashval then sha256 s else s).
  assert (∀ ps, Forall (λ p, p ∈ listing name (fs w)) ps →
    map_each (λ key, let* data_str := file_hget sha1 name key in
                     ret (key, if hashval then sha256 data_str else data_str))
      (key_of <$> ps) w
    = (Ok ((λ p, (key_of p, f (from_option id "" (fs w !! p)))) <$> ps), w)) as Hmap.
  { induction 1 as [|p ps Hp Hps IH]; [done|].
    destruct (listed_file_key _ _ _ Hok Hp) as [_ Hs].
    apply elem_of_listing in Hp as [[c Hc] _].
    cbn [fmap list_fmap map_each].
    erewrite bind_ok; [|erewrite bind_ok; [reflexivity|]].
    2:{ rewrite file_hget_eq, Hs, Hc. reflexivity. }
    cbn [ret]. erewrite bind_ok; [|exact IH]. by rewrite Hc. }
  erewrite bind_ok; [|apply Hmap, Forall_forall; auto]. done.
Qed.

End file_view_facts.

Section file_ops_facts.

Variable sha1 : string → N.

Lemma file_hmget_eq name keys vals w :
  Forall2 (λ k v, fs w !! sharded_file sha1 name k = Some v) keys vals →
  file_hmget sha1 name keys w = (Ok vals, w).
Proof.
  unfold file_hmget. induction 1 as [|k v keys vals Hk Hkeys IH]; [done|].
  cbn [map_each]. erewrite bind_ok; [|by rewrite file_hget_eq, Hk].
  erewrite bind_ok; [|exact IH]. done.
Qed.

Lemma file_hmset_eq name (l : list (string * string)) w :
  for_each (λ kv, file_hset sha1 name kv.1 kv.2) l w =
    (Ok tt, set_fs (λ files,
               foldl (λ acc kv, <[sharded_file sha1 name kv.1 := kv.2]> acc) files l) w).
Proof.
  revert w. induction l as [|[k v] l IH]; intros w; [by destruct w|].
  cbn [for_each foldl fst snd]. erewrite bind_ok; [|apply file_hset_eq].
  rewrite IH. by destruct w.
Qed.

Lemma foldl_insert_other (path : string * string → string) l : ∀ (files : gmap string string) q,
  q ∉ path <$> l →
  foldl (λ acc kv, <[path kv := kv.2]> acc) files l !! q = files !! q.
Proof.
  induction l as [|kv l IH]; intros files q Hq; [done|].
  cbn in *. apply not_elem_of_cons in Hq as [Hne Hq].
  rewrite IH by done. by rewrite lookup_insert_ne.
Qed.

Lemma foldl_insert_elem (path : string * string → string) l : ∀ (files : gmap string string) kv,
  NoDup (path <$> l) → kv ∈ l →
  foldl (λ acc kv, <[path kv := kv.2]> acc) files l !! path kv = Some kv.2.
Proof.
  induction l as [|kv' l IH]; intros files kv Hnd Hin; [by apply elem_of_nil in Hin|].
  cbn in *. apply NoDup_cons in Hnd as [Hkv' Hnd].
  apply elem_of_cons in Hin as [->|Hin]; [|by apply IH].
  rewrite foldl_insert_other by done. by rewrite lookup_insert_eq.
Qed.

Lemma foldr_delete_lookup (paths : list string) (files : gmap string string) q :
  foldr delete files paths !! q =
    if bool_decide (q ∈ paths) then None else files !! q.
Proof.
  induction paths as [|p paths IH]; [done|]. cbn.
  destruct (decide (p = q)) as [->|Hne].
  - rewrite lookup_delete_eq. by rewrite bool_decide_eq_true_2 by left.
  - rewrite lookup_delete_ne, IH by done.
    apply (f_equal (λ b : bool, if b then None else files !! q)).
    apply bool_decide_ext. set_solver.
Qed.

Lemma file_hdel_paths name keys w :
  map_each (S := World) (λ key, lift (get_sharded_path sha1 (node_file name key))) keys w
  = (Ok (lzj_paths sha1 name keys), w).
Proof.
  unfold lzj_paths.
  induction keys as [|k keys IH]; [done|]. cbn [map_each fmap list_fmap].
  erewrite bind_ok; [|unfold lift; by rewrite get_sharded_path_sharded_file].
  erewrite bind_ok; [|exact IH]. done.
Qed.

Lemma file_hdel_eq name keys w :
  deletes sha1 name keys w →
  file_hdel sha1 name keys w =
    (Ok tt, add_command ("rm -f " +:+ lzj_names sha1 name keys)
              (add_command ("git rm -f " +:+ lzj_names sha1 name keys)
                 (set_fs (λ files, foldr delete files (lzj_paths sha1 name keys)) w))).
Proof.
  intros (rc & out & err & changes & out2 & err2 & changes2 & Hgit & Hrc & Hrm & Hfiles).
  unfold file_hdel. erewrite bind_ok; [|apply file_hdel_paths].
  fold (lzj_names sha1 name keys).
  unfold bind at 1. unfold bind at 1, subprocess_run at 1. rewrite Hgit. cbn [fst snd].
  set (w1 := add_command _ _).
  transitivity
    ((let* res := subprocess_run ("rm -f " +:+ lzj_names sha1 name keys) in
      if res.1.1 =? 0 then ret tt
      else raise (CalledProcessError res.1.1 ("rm -f " +:+ lzj_names sha1 name keys))) w1).
  { destruct (rc =? 0); [done|]. cbn [orb] in Hrc.
    unfold raise at 1. cbn [exn_str]. by rewrite Hrc. }
  unfold bind, subprocess_run, w1.
  cbn [fs commands subprocess add_command set_fs].
  rewrite Hrm. cbn [fst Z.eqb]. unfold ret, add_command, set_fs.
  cbn [fs cf_graph _session live_sessions ended_sessions next_session calls
       subprocess commands].
  by rewrite Hfiles.
Qed.

Lemma file_view_file_key f name files k :
  tree_ok sha1 name files → is_Some (file_view f name files !! k) →
  file_key sha1 name k = true ∧ is_Some (files !! sharded_file sha1 name k).
Proof.
  intros Hok. rewrite (file_view_lookup sha1) by done.
  destruct (file_key sha1 name k); [|by intros [? [=]]].
  rewrite fmap_is_Some. done.
Qed.

Lemma file_hdel_spec name keys w :
  tree_ok sha1 name (fs w) → Forall (λ k, file_key sha1 name k = true) keys →
  deletes sha1 name keys w →
  ∃ w', file_hdel sha1 name keys w = (Ok tt, w') ∧
    tree_ok sha1 name (fs w') ∧ cf_graph w' = cf_graph w ∧ calls w' = calls w ∧
    ∀ f k, file_view f name (fs w') !! k =
             if bool_decide (k ∈ keys) then None else file_view f name (fs w) !! k.
Proof.
  intros Hok Hkeys Hdel. eexists. split; [by apply file_hdel_eq|].
  cbn [fs set_fs add_command cf_graph calls]. unfold lzj_paths.
  assert (tree_ok sha1 name (foldr delete (fs w) (sharded_file sha1 name <$> keys))) as Hok'.
  { intros p [c Hp] Hl. rewrite foldr_delete_lookup in Hp.
    case_bool_decide; [done|]. apply Hok; [by eexists|done]. }
  split_and!; [done..|]. intros f k. rewrite !(file_view_lookup sha1) by done.
  rewrite foldr_delete_lookup.
  destruct (file_key sha1 name k) eqn:Hk; [|by case_bool_decide].
  destruct (decide (k ∈ keys)) as [Hin|Hin].
  - rewrite (bool_decide_eq_true_2 (k ∈ keys)) by done.
    by rewrite bool_decide_eq_true_2 by (by apply list_elem_of_fmap_2).
  - rewrite (bool_decide_eq_false_2 (k ∈ keys)) by done.
    rewrite bool_decide_eq_false_2; [done|].
    intros (k' & E & Hk')%list_elem_of_fmap.
    rewrite Forall_forall in Hkeys.
    assert (k = k') as -> by (apply (sharded_file_inj sha1 name); [done|by apply Hkeys|done]).
    done.
Qed.

Lemma file_hmset_spec name (mapping : gmap string string) w :
  tree_ok sha1 name (fs w) →
  (∀ k v, mapping !! k = Some v → file_key sha1 name k = true) →
  ∃ w', file_hmset sha1 name mapping w = (Ok tt, w') ∧
    tree_ok sha1 name (fs w') ∧ cf_graph w' = cf_graph w ∧ calls w' = calls w ∧
    ∀ f k, file_view f name (fs w') !! k =
             match mapping !! k with
             | Some v => Some (f v)
             | None => file_view f name (fs w) !! k
             end.
Proof.
  intros Hok Hkeys. eexists. split; [apply file_hmset_eq|].
  cbn [fs set_fs cf_graph calls].
  set (path := λ kv : string * string, sharded_file sha1 name kv.1).
  set (files' := foldl _ _ _).
  assert (NoDup (path <$> map_to_list mapping)) as Hnd.
  { apply NoDup_fmap_2_strong; [|apply NoDup_map_to_list].
    intros [k1 v1] [k2 v2] H1%elem_of_map_to_list H2%elem_of_map_to_list E.
    unfold path in E. cbn in E.
    assert (k1 = k2) as -> by (apply (sharded_file_inj sha1 name); eauto).
    f_equal. congruence. }
  assert (∀ k v, mapping !! k = Some v → files' !! sharded_file sha1 name k = Some v) as Hin.
  { intros k v Hkv. apply (foldl_insert_elem path _ _ (k, v)); [done|].
    by apply elem_of_map_to_list. }
  assert (∀ q, (∀ k, is_Some (mapping !! k) → sharded_file sha1 name k ≠ q) →
               files' !! q = fs w !! q) as Hout.
  { intros q Hq. apply (foldl_insert_other path).
    intros ([k v] & -> & Hkv%elem_of_map_to_list)%list_elem_of_fmap.
    by apply (Hq k); [eexists|]. }
  assert (tree_ok sha1 name files') as Hok'.
  { intros p Hp Hl.
    destruct (decide (p ∈ path <$> map_to_list mapping)) as [Hyes|Hno].
    - apply list_elem_of_fmap in Hyes as ([k v] & -> & Hkv%elem_of_map_to_list).
      apply Hkeys in Hkv. apply file_key_spec in Hkv as [_ Hkv]. unfold path. cbn.
      by rewrite Hkv.
    - unfold files' in Hp. rewrite (foldl_insert_other path) in Hp by done.
      by apply Hok. }
  split_and!; [done..|]. intros f k. rewrite !(file_view_lookup sha1) by done.
  destruct (mapping !! k) as [v|] eqn:Hkv.
  - rewrite (Hkeys _ _ Hkv), (Hin _ _ Hkv). done.
  - destruct (file_key sha1 name k) eqn:Hk; [|done].
    rewrite Hout; [done|]. intros k' [v' Hk'] E.
    assert (k' = k) as -> by (apply (sharded_file_inj sha1 name); [by eapply Hkeys|done|done]).
    congruence.
Qed.

Lemma file_hmget_spec name f keys w :
  tree_ok sha1 name (fs w) →
  Forall (λ k, is_Some (file_view f name (fs w) !! k)) keys →
  ∃ vals, file_hmget sha1 name keys w = (Ok vals, w) ∧
    Forall2 (λ k v, file_key sha1 name k = true ∧
                    fs w !! sharded_file sha1 name k = Some v) keys vals.
Proof.
  intros Hok. induction 1 as [|k keys Hk Hkeys (vals & Hrun & Hvals)].
  - exists []. by split; [|constructor].
  - destruct (file_view_file_key _ _ _ _ Hok Hk) as [Hfk [v Hv]].
    exists (v :: vals). split; [|by constructor].
    apply file_hmget_eq. constructor; [done|].
    eapply Forall2_impl; [exact Hvals|]. by intros ?? [_ ?].
Qed.

End file_ops_facts.

(** ** The database as a map from keys to documents *)

Lemma map_each_Forall2 {S A B} (f : A → ST S B) (R : A → B → Prop) l s :
  Forall (λ x, ∃ y, f x s = (Ok y, s) ∧ R x y) l →
  ∃ ys, map_each f l s = (Ok ys, s) ∧ Forall2 R l ys.
Proof.
  induction 1 as [|x l (y & Hy & HR) _ (ys & Hys & HRs)].
  - exists []. by split; [|constructor].
  - exists (y :: ys). split; [|by constructor].
    cbn [map_each]. erewrite bind_ok; [|exact Hy]. by erewrite bind_ok; [|exact Hys].
Qed.

Lemma foldl_upsert_other {A B} (key : A → string) (val : A → B) l :
  ∀ (m : gmap string B) q, q ∉ key <$> l →
    foldl (λ acc a, <[key a := val a]> acc) m l !! q = m !! q.
Proof.
  induction l as [|a l IH]; intros m q Hq; [done|].
  cbn in *. apply not_elem_of_cons in Hq as [Hne Hq].
  rewrite IH by done. by rewrite lookup_insert_ne.
Qed.

Lemma foldl_upsert_elem {A B} (key : A → string) (val : A → B) l :
  ∀ (m : gmap string B) a, NoDup (key <$> l) → a ∈ l →
    foldl (λ acc a, <[key a := val a]> acc) m l !! key a = Some (val a).
Proof.
  induction l as [|a' l IH]; intros m a Hnd Hin; [by apply elem_of_nil in Hin|].
  cbn in *. apply NoDup_cons in Hnd as [Ha' Hnd].
  apply elem_of_cons in Hin as [->|Hin]; [|by apply IH].
  rewrite foldl_upsert_other by done. by rewrite lookup_insert_eq.
Qed.

Section mongo_ops_facts.

Lemma mongo_hgetall_eq name w :
  valid_hashmap name = true →
  mongo_hgetall name true w = (Ok (doc_sha256 <$> collection name w), w).
Proof.
  intros Hv. unfold mongo_hgetall, bind. by rewrite assert_hashmap_eq, Hv.
Qed.

Lemma mongo_hdel_spec name keys w :
  valid_hashmap name = true →
  ∃ w', mongo_hdel name keys w = (Ok tt, w') ∧ fs w' = fs w ∧ calls w' = calls w ∧
    ∀ k, collection name w' !! k =
           if bool_decide (k ∈ keys) then None else collection name w !! k.
Proof.
  intros Hv. unfold mongo_hdel, bind. rewrite assert_hashmap_eq, Hv.
  revert w. induction keys as [|key keys IH]; intros w.
  - exists w. by split_and!.
  - cbn [for_each]. unfold bind at 1, modify at 1.
    destruct (IH (set_cf_graph
      (λ db, <[name := delete key (from_option id ∅ (db !! name))]> db) w))
      as (w' & Hrun & Hfs & Hcalls & Hcoll).
    exists w'. split_and!; [done..|]. intros k. rewrite Hcoll.
    unfold collection at 1. cbn [cf_graph set_cf_graph]. rewrite lookup_insert_eq.
    cbn [from_option id]. fold (collection name w).
    destruct (decide (k = key)) as [->|Hne].
    + rewrite lookup_delete_eq. rewrite (bool_decide_eq_true_2 (key ∈ key :: keys)) by left.
      by case_bool_decide.
    + rewrite lookup_delete_ne by done.
      apply (f_equal (λ b : bool, if b then None else collection name w !! k)).
      apply bool_decide_ext. set_solver.
Qed.

Lemma mongo_hdel_system name keys w : same_system w (mongo_hdel name keys w).2.
Proof.
  unfold mongo_hdel, bind. rewrite assert_hashmap_eq.
  destruct (valid_hashmap name); [|done].
  revert w. induction keys as [|key keys IH]; intros w; [done|].
  cbn [for_each]. unfold bind at 1, modify at 1.
  exact (IH (set_cf_graph
               (λ db, <[name := delete key (from_option id ∅ (db !! name))]> db) w)).
Qed.

Variable sha256 : string → string.

Lemma for_each_upsert name (l : list (string * mongo_doc)) : ∀ w,
  ∃ w', for_each (λ r, modify (upsert name r.1 r.2)) l w = (Ok tt, w') ∧
    fs w' = fs w ∧ calls w' = calls w ∧
    collection name w' = foldl (λ c r, <[r.1 := r.2]> c) (collection name w) l.
Proof.
  induction l as [|r l IH]; intros w; [by exists w|].
  destruct (IH (upsert name r.1 r.2 w)) as (w' & Hrun & Hfs & Hcalls & Hcoll).
  exists w'. split_and!; [done..|]. by rewrite Hcoll, collection_upsert.
Qed.

Lemma mongo_hmset_spec name (mapping : gmap string string) w :
  valid_hashmap name = true → mapping ≠ ∅ →
  (∀ k v, mapping !! k = Some v → is_ok (rapidjson.loads v) = true) →
  ∃ w', mongo_hmset sha256 name mapping w = (Ok tt, w') ∧
    fs w' = fs w ∧ calls w' = calls w ∧
    ∀ k, doc_sha256 <$> collection name w' !! k =
           match mapping !! k with
           | Some v => Some (sha256 v)
           | None => doc_sha256 <$> collection name w !! k
           end.
Proof.
  intros Hv Hne Hjson. unfold mongo_hmset. unfold bind at 1.
  rewrite assert_hashmap_eq, Hv.
  set (R := λ (kv : string * string) (r : string * mongo_doc),
              r.1 = kv.1 ∧ doc_sha256 r.2 = sha256 kv.2).
  edestruct (map_each_Forall2 (S := World)
               (λ kv : string * string,
                  let* v := lift (rapidjson.loads kv.2) in
                  ret (kv.1, MongoDoc v (sha256 kv.2))) R (map_to_list mapping) w)
    as (requests & Hreq & HR).
  { apply Forall_forall. intros [k v] Hkv%elem_of_map_to_list.
    apply Hjson in Hkv. cbn [snd fst]. unfold bind, lift, ret.
    destruct (rapidjson.loads v) as [v'|]; [|done]. by eexists. }
  erewrite bind_ok; [|exact Hreq].
  assert (requests.*1 = (map_to_list mapping).*1) as Hkeys.
  { clear Hreq. induction HR as [|?? ?? [Hk _] _ IH]; [done|]. cbn. by rewrite Hk, IH. }
  destruct requests as [|r0 requests'] eqn:Hrs.
  { apply Forall2_nil_inv_r in HR. by apply map_to_list_empty_iff in HR. }
  rewrite <- Hrs in *. clear Hrs r0 requests'.
  destruct (for_each_upsert name requests w) as (w' & Hrun & Hfs & Hcalls & Hcoll).
  exists w'. split_and!; [done..|]. intros k. rewrite Hcoll.
  assert (NoDup (fst <$> requests)) as Hnd
    by (rewrite Hkeys; apply NoDup_fst_map_to_list).
  destruct (mapping !! k) as [v|] eqn:Hk.
  - apply elem_of_map_to_list in Hk.
    destruct (proj1 (list_elem_of_lookup _ _) Hk) as [i Hi].
    destruct (Forall2_lookup_l _ _ _ _ _ HR Hi) as (r & Hr & Hrk & Hrh).
    apply list_elem_of_lookup_2 in Hr. cbn in Hrk, Hrh. rewrite <- Hrk.
    rewrite (foldl_upsert_elem fst snd) by done. cbn. by rewrite Hrh.
  - rewrite (foldl_upsert_other fst snd); [done|]. rewrite Hkeys.
    intros ([k' v'] & -> & Hin%elem_of_map_to_list)%list_elem_of_fmap.
    cbn in Hk. congruence.
Qed.

Lemma mongo_hmget_spec name keys w :
  valid_hashmap name = true → db_ok sha256 name w →
  Forall (λ k, is_Some (collection name w !! k)) keys →
  ∃ vals, mongo_hmget name keys w = (Ok vals, w) ∧
    Forall2 (λ k v, texts_of "mongodb" name w !! k = Some v) keys vals.
Proof.
  intros Hv Hdb Hkeys. unfold mongo_hmget. unfold bind at 1.
  rewrite assert_hashmap_eq, Hv. unfold _get_collection. rewrite bind_gets.
  fold (collection name w).
  set (docs := filter (λ d : string * mongo_doc, d.1 ∈ keys)
                 (map_to_list (collection name w))).
  set (R := λ (d : string * mongo_doc) (r : string * string),
              r.1 = d.1 ∧ dumps (doc_value d.2) = Ok r.2).
  edestruct (map_each_Forall2 (S := World)
               (λ d : string * mongo_doc,
                  let* s := lift (dumps (doc_value d.2)) in ret (d.1, s)) R docs w)
    as (odata & Hodata & HR).
  { apply Forall_forall. intros [k d] [_ Hkd%elem_of_map_to_list]%list_elem_of_filter.
    destruct (Hdb _ _ Hkd) as (s & Hs & _). cbn [fst snd]. unfold bind, lift, ret.
    rewrite Hs. by eexists. }
  erewrite bind_ok; [|exact Hodata].
  assert (odata.*1 = docs.*1) as Hfst.
  { clear Hodata. induction HR as [|?? ?? [Hk _] _ IH]; [done|]. cbn. by rewrite Hk, IH. }
  assert (NoDup odata.*1) as Hnd.
  { rewrite Hfst. unfold docs. apply NoDup_fmap_fst.
    - intros k d1 d2 [_ H1%elem_of_map_to_list]%list_elem_of_filter
        [_ H2%elem_of_map_to_list]%list_elem_of_filter. congruence.
    - apply NoDup_filter, NoDup_map_to_list. }
  apply (map_each_Forall2 (S := World)).
  apply Forall_forall. intros k Hk.
  rewrite Forall_forall in Hkeys. destruct (Hkeys k Hk) as [d Hd].
  destruct (Hdb _ _ Hd) as (s & Hs & _). exists s. split.
  - unfold lift. f_equal. apply dict_get_elem; [done|].
    assert ((k, d) ∈ docs) as Hin.
    { apply list_elem_of_filter. split; [done|]. by apply elem_of_map_to_list. }
    destruct (proj1 (list_elem_of_lookup _ _) Hin) as [i Hi].
    destruct (Forall2_lookup_l _ _ _ _ _ HR Hi) as ([k' s'] & Hr & Hrk & Hrs).
    cbn in Hrk, Hrs. subst k'. rewrite Hs in Hrs. injection Hrs as <-.
    by apply list_elem_of_lookup_2 in Hr.
  - unfold texts_of. cbn. rewrite lookup_omap, Hd. cbn. by rewrite Hs.
Qed.

End mongo_ops_facts.

(** ** The two backends under one description *)

Section backend_views.

Variable sha1 : string → N.
Variable sha256 : string → string.

Lemma known_two a b c :
  known_backend a → known_backend b → known_backend c → a ≠ c → b ≠ c → a = b.
Proof. intros [->| ->] [->| ->] [->| ->]; congruence. Qed.

Lemma same_part_refl b w : same_part b w w.
Proof. unfold same_part. by destruct (String.eqb b "file"). Qed.

Lemma same_part_trans b w1 w2 w3 :
  same_part b w1 w2 → same_part b w2 w3 → same_part b w1 w3.
Proof. unfold same_part. destruct (String.eqb b "file"); congruence. Qed.

Lemma same_part_add_call b c w : same_part b w (add_call c w).
Proof. unfold same_part. by destruct (String.eqb b "file"). Qed.

Lemma same_part_hashes b name w w' :
  same_part b w w' → hashes_of sha256 b name w' = hashes_of sha256 b name w.
Proof.
  unfold same_part, hashes_of, collection.
  destruct (String.eqb b "file"); by intros ->.
Qed.

Lemma same_part_texts b name w w' :
  same_part b w w' → texts_of b name w' = texts_of b name w.
Proof.
  unfold same_part, texts_of, collection.
  destruct (String.eqb b "file"); by intros ->.
Qed.

Lemma same_part_secondary_ok b name w w' :
  same_part b w w' → secondary_ok sha1 b name w → secondary_ok sha1 b name w'.
Proof.
  unfold same_part, secondary_ok.
  destruct (String.eqb b "file"); [by intros ->|done].
Qed.

Lemma same_part_primary_ok flag b name w w' :
  same_part b w w' →
  primary_ok sha1 sha256 flag b name w → primary_ok sha1 sha256 flag b name w'.
Proof.
  unfold same_part, primary_ok, db_ok, collection.
  destruct (String.eqb b "file"); by intros ->.
Qed.

Lemma primary_secondary_ok flag b name w :
  primary_ok sha1 sha256 flag b name w → secondary_ok sha1 b name w.
Proof.
  unfold primary_ok, secondary_ok. destruct (String.eqb b "file"); by intros [? _].
Qed.

Lemma invoke_known {A} b o (method : LazyJsonBackend → M A) w :
  known_backend b →
  invoke sha1 sha256 b o method w
  = method (backend_of sha1 sha256 b) (add_call (b, o) w).
Proof. by intros [->| ->]. Qed.

Lemma hgetall_spec b name w :
  known_backend b → secondary_ok sha1 b name w →
  hgetall (backend_of sha1 sha256 b) name true w
  = (Ok (hashes_of sha256 b name w), w).
Proof.
  intros [->| ->] Hok; cbn in *.
  - by rewrite (file_hgetall_eq sha1).
  - by rewrite mongo_hgetall_eq.
Qed.

Lemma same_system_refl w : same_system w w.
Proof. done. Qed.

Lemma same_system_trans w1 w2 w3 :
  same_system w1 w2 → same_system w2 w3 → same_system w1 w3.
Proof. unfold same_system. intros [? ?] [? ?]. split; congruence. Qed.

Lemma same_system_add_call c w : same_system w (add_call c w).
Proof. done. Qed.

Lemma deletes_frame name keys w w' :
  fs w' = fs w → same_system w w' →
  deletes sha1 name keys w → deletes sha1 name keys w'.
Proof. intros Hfs [Hsub Hcmd]. unfold deletes. by rewrite Hfs, Hsub, Hcmd. Qed.

Lemma prunable_frame name H w w' :
  fs w' = fs w → same_system w w' →
  prunable sha1 sha256 name H w → prunable sha1 sha256 name H w'.
Proof.
  intros Hfs Hsys Hpr. unfold prunable, hashes_of in *. cbn in *. rewrite Hfs.
  intros Hne. by eapply deletes_frame; [..|apply Hpr].
Qed.

Lemma hdel_system b name keys w :
  known_backend b → b ≠ "file" →
  same_system w (hdel (backend_of sha1 sha256 b) name keys w).2.
Proof. intros [->| ->] Hne; [done|]. apply mongo_hdel_system. Qed.

Lemma hdel_spec b name keys w :
  known_backend b → secondary_ok sha1 b name w →
  Forall (λ k, is_Some (hashes_of sha256 b name w !! k)) keys →
  (b = "file" → deletes sha1 name keys w) →
  ∃ w', hdel (backend_of sha1 sha256 b) name keys w = (Ok tt, w') ∧
    secondary_ok sha1 b name w' ∧ calls w' = calls w ∧
    (∀ b', known_backend b' → b' ≠ b → same_part b' w w') ∧
    ∀ k, hashes_of sha256 b name w' !! k =
           if bool_decide (k ∈ keys) then None else hashes_of sha256 b name w !! k.
Proof.
  intros [->| ->] Hok Hkeys Hdel; cbn in *.
  - destruct (file_hdel_spec sha1 name keys w) as (w' & Hrun & Hok' & Hdb & Hcalls & Hview);
      [done| |by apply Hdel|].
    { eapply Forall_impl; [exact Hkeys|]. intros k Hk. cbn in Hk.
      by destruct (file_view_file_key sha1 _ _ _ _ Hok Hk). }
    exists w'. split_and!; [done..| |by intros k; apply Hview].
    by intros b' [->| ->] Hne.
  - destruct (mongo_hdel_spec name keys w Hok) as (w' & Hrun & Hfs & Hcalls & Hcoll).
    exists w'. split_and!; [done..| |].
    + by intros b' [->| ->] Hne.
    + intros k. unfold hashes_of. cbn. rewrite !lookup_fmap, Hcoll.
      by case_bool_decide.
Qed.

Lemma hmset_spec b name (mapping : gmap string string) w :
  known_backend b → secondary_ok sha1 b name w → mapping ≠ ∅ →
  (∀ k v, mapping !! k = Some v → accepts sha1 b name k v) →
  ∃ w', hmset (backend_of sha1 sha256 b) name mapping w = (Ok tt, w') ∧
    secondary_ok sha1 b name w' ∧ calls w' = calls w ∧
    (∀ b', known_backend b' → b' ≠ b → same_part b' w w') ∧
    ∀ k, hashes_of sha256 b name w' !! k =
           match mapping !! k with
           | Some v => Some (sha256 v)
           | None => hashes_of sha256 b name w !! k
           end.
Proof.
  intros [->| ->] Hok Hne Hacc; cbn in *.
  - destruct (file_hmset_spec sha1 name mapping w Hok Hacc)
      as (w' & Hrun & Hok' & Hdb & Hcalls & Hview).
    exists w'. split_and!; [done..| |by intros k; apply Hview].
    by intros b' [->| ->] ?.
  - destruct (mongo_hmset_spec sha256 name mapping w Hok Hne Hacc)
      as (w' & Hrun & Hfs & Hcalls & Hcoll).
    exists w'. split_and!; [done..| |].
    + by intros b' [->| ->] ?.
    + intros k. unfold hashes_of. cbn. rewrite !lookup_fmap. apply Hcoll.
Qed.

Lemma hmget_spec flag p name keys w :
  known_backend p → primary_ok sha1 sha256 flag p name w →
  Forall (λ k, is_Some (hashes_of sha256 p name w !! k)) keys →
  ∃ vals, hmget (backend_of sha1 sha256 p) name keys w = (Ok vals, w) ∧
    Forall2 (λ k v, texts_of p name w !! k = Some v) keys vals.
Proof.
  intros [->| ->] Hok Hkeys; cbn in *.
  - destruct Hok as [Hok _].
    destruct (file_hmget_spec sha1 name sha256 keys w Hok Hkeys) as (vals & Hrun & Hvals).
    exists vals. split; [done|]. eapply Forall2_impl; [exact Hvals|].
    intros k v [Hk Hv]. cbn. unfold texts_of. cbn.
    rewrite (file_view_lookup sha1), Hk, Hv by done. done.
  - destruct Hok as [Hv Hdb]. apply (mongo_hmget_spec sha256); [done..|].
    eapply Forall_impl; [exact Hkeys|]. intros k. cbn. unfold hashes_of. cbn.
    rewrite lookup_fmap. by rewrite fmap_is_Some.
Qed.

Lemma hashes_of_texts flag p name w :
  known_backend p → primary_ok sha1 sha256 flag p name w →
  hashes_of sha256 p name w = sha256 <$> texts_of p name w.
Proof.
  intros [->| ->] Hok; apply map_eq; intros k; unfold hashes_of, texts_of; cbn in *.
  - destruct Hok as [Hok _]. rewrite lookup_fmap, !(file_view_lookup sha1) by done.
    destruct (file_key sha1 name k); [|done]. by destruct (fs w !! _).
  - destruct Hok as [_ Hdb]. rewrite !lookup_fmap, lookup_omap.
    destruct (collection name w !! k) as [d|] eqn:Hd; [|done]. cbn.
    destruct (Hdb _ _ Hd) as (s & -> & ->). done.
Qed.

Lemma texts_of_json p name w k v :
  known_backend p → primary_ok sha1 sha256 true p name w →
  texts_of p name w !! k = Some v → is_ok (rapidjson.loads v) = true.
Proof.
  intros [->| ->] Hok; unfold texts_of; cbn in *.
  - destruct Hok as [Hok Hjson]. rewrite (file_view_lookup sha1) by done.
    destruct (file_key sha1 name k) eqn:Hk; [|done].
    apply file_key_spec in Hk as [Hl _].
    destruct (fs w !! sharded_file sha1 name k) as [s|] eqn:Hs; [|done].
    intros [= <-]. by eapply Hjson.
  - rewrite lookup_omap. destruct (collection name w !! k) as [d|]; [|done]. cbn.
    destruct (dumps (doc_value d)) as [s|] eqn:Hs; [|done]. intros [= <-].
    by destruct (loads_of_dumps _ _ Hs) as [doc ->].
Qed.

End backend_views.

(** ** The fetch loop *)

Lemma set_pop_spec (s : gset string) :
  s ≠ ∅ → ∃ x, set_pop s = Ok (x, s ∖ {[x]}) ∧ x ∈ s.
Proof.
  intros Hne. unfold set_pop. destruct (elements s) as [|x l] eqn:Hl.
  - by apply elements_empty_inv, leibniz_equiv in Hl.
  - exists x. split; [done|]. apply elem_of_elements. rewrite Hl. left.
Qed.

Lemma pop_n_spec (m : nat) : ∀ s : gset string,
  (m ≤ size s)%nat →
  ∃ l, pop_n m s = Ok (l, s ∖ list_to_set l) ∧ NoDup l ∧ length l = m ∧
       ∀ x, x ∈ l → x ∈ s.
Proof.
  induction m as [|m IH]; intros s Hm.
  - exists []. split_and!; [|constructor|done|by intros ? ?%elem_of_nil].
    cbn. f_equal. f_equal. set_solver.
  - destruct (set_pop_spec s) as (x & Hx & Hin).
    { intros ->. rewrite size_empty in Hm. lia. }
    destruct (IH (s ∖ {[x]})) as (l & Hl & Hnd & Hlen & Hsub).
    { rewrite size_difference by set_solver. rewrite size_singleton. lia. }
    exists (x :: l). cbn [pop_n]. rewrite Hx. cbn [rbind snd fst]. rewrite Hl.
    cbn [rbind snd fst]. split_and!.
    + f_equal. f_equal. set_solver.
    + constructor; [|done]. intros Hxl%Hsub. set_solver.
    + cbn. by rewrite Hlen.
    + intros y [->|Hy%Hsub]%elem_of_cons; set_solver.
Qed.

Lemma elem_of_zip_texts (T : gmap string string) nodes vals :
  Forall2 (λ k v, T !! k = Some v) nodes vals →
  ∀ k v, (k, v) ∈ zip nodes vals ↔ k ∈ nodes ∧ T !! k = Some v.
Proof.
  induction 1 as [|k0 v0 nodes vals H0 _ IH]; intros k v; cbn.
  - rewrite !elem_of_nil. tauto.
  - rewrite !elem_of_cons, IH. split.
    + intros [[= -> ->]|[? ?]]; auto.
    + intros [[->|?] ?]; [left; congruence|auto].
Qed.

Lemma batch_of_zip (T : gmap string string) nodes vals :
  NoDup nodes → Forall2 (λ k v, T !! k = Some v) nodes vals →
  list_to_map (reverse (zip nodes vals)) = batch_of T nodes.
Proof.
  intros Hnd HT. pose proof (elem_of_zip_texts T nodes vals HT) as Hzip.
  assert ((zip nodes vals).*1 = nodes) as Hfst.
  { apply fst_zip. by rewrite (Forall2_length _ _ _ HT). }
  rewrite (list_to_map_proper (reverse (zip nodes vals)) (zip nodes vals));
    [| |by rewrite reverse_Permutation].
  2:{ by rewrite fmap_reverse, reverse_Permutation, Hfst. }
  apply map_eq. intros k. apply option_eq. intros v.
  rewrite <- elem_of_list_to_map by by rewrite Hfst.
  unfold batch_of. rewrite map_lookup_filter_Some, Hzip. cbn. tauto.
Qed.

Lemma stale_part_lookup H bh s T nodes k :
  stale_part H bh s (batch_of T nodes) !! k =
    if bool_decide (k ∈ nodes) && stale H bh s k then T !! k else None.
Proof.
  unfold stale_part, batch_of. apply option_eq. intros v.
  rewrite !map_lookup_filter_Some. cbn.
  case_bool_decide as Hk; destruct (stale H bh s k); cbn; naive_solver.
Qed.

Lemma elements_split (todo : gset string) l :
  NoDup l → (∀ x, x ∈ l → x ∈ todo) →
  l ++ elements (todo ∖ list_to_set l) ≡ₚ elements todo.
Proof.
  intros Hnd Hsub. apply NoDup_Permutation.
  - apply NoDup_app. split_and!; [done| |apply NoDup_elements].
    intros x Hx. rewrite elem_of_elements. set_solver.
  - apply NoDup_elements.
  - intros x. rewrite elem_of_app, !elem_of_elements, elem_of_difference, elem_of_list_to_set.
    split; [intros [?|[? ?]]; auto|].
    intros Hx. destruct (decide (x ∈ l)); auto.
Qed.

Lemma ceil_step (N n : Z) :
  1 ≤ n → 1 ≤ N →
  1 + (N - Z.min N n + n - 1) / n = (N + n - 1) / n.
Proof.
  intros Hn HN. destruct (Z.le_gt_cases N n).
  - rewrite Z.min_l by lia. replace (N - N + n - 1) with (n - 1) by lia.
    rewrite Z.div_small by lia. rewrite Z.add_0_r.
    apply (Z.div_unique _ _ 1 (N - 1)); lia.
  - rewrite Z.min_r by lia. replace (N + n - 1) with (N - n + n - 1 + 1 * n) by lia.
    rewrite Z.div_add by lia. lia.
Qed.

Section fetch_facts.

Variable sha1 : string → N.
Variable sha256 : string → string.
Variables (p : string) (ss : list string) (name : string) (flag : bool).
Variable H : gmap string string.
Variable bh : gmap string (gmap string string).
Variable T : gmap string string.

Hypothesis known_p : known_backend p.
Hypothesis known_ss : Forall known_backend ss.
Hypothesis H_T : H = sha256 <$> T.
Hypothesis bh_ss : ∀ s, s ∈ ss → is_Some (bh !! s).
Hypothesis stale_ok : ∀ s k v,
  s ∈ ss → T !! k = Some v → stale H bh s k = true →
  s ≠ p ∧ accepts sha1 s name k v.

Lemma fetch_ready_add_call c w :
  fetch_ready sha1 sha256 flag p ss name T w →
  fetch_ready sha1 sha256 flag p ss name T (add_call c w).
Proof.
  intros (Hp & HT & Hs). split_and!.
  - eapply same_part_primary_ok; [apply same_part_add_call|done].
  - by rewrite (same_part_texts _ _ _ _ (same_part_add_call p c w)).
  - intros s Hin. eapply same_part_secondary_ok; [apply same_part_add_call|auto].
Qed.

(** One secondary of one batch. *)
Lemma push_batch_spec nodes s w :
  s ∈ ss → fetch_ready sha1 sha256 flag p ss name T w →
  ∃ w', push_batch sha1 sha256 name H bh (batch_of T nodes) s w = (Ok tt, w') ∧
    fetch_ready sha1 sha256 flag p ss name T w' ∧
    calls w' = calls w ++
      (let part := stale_part H bh s (batch_of T nodes) in
       if bool_decide (part = ∅) then [] else [(s, OpHmset name part)]) ∧
    (∀ s', s' ≠ s → known_backend s' → same_part s' w w') ∧
    same_part p w w' ∧
    ∀ k, hashes_of sha256 s name w' !! k =
           if bool_decide (k ∈ nodes) && stale H bh s k && bool_decide (is_Some (T !! k))
           then H !! k else hashes_of sha256 s name w !! k.
Proof.
  intros Hs Hready. destruct (bh_ss s Hs) as [hs Hhs].
  assert (known_backend s) as Hks by (rewrite Forall_forall in known_ss; auto).
  unfold push_batch. rewrite Hhs. unfold bind at 1, lift at 1.
  change (filter (λ kv : string * string, out_of_sync hs H kv.1) (batch_of T nodes))
    with (filter (λ kv : string * string,
                    out_of_sync (from_option id ∅ (Some hs)) H kv.1) (batch_of T nodes)).
  rewrite <- Hhs. fold (stale H bh s). fold (stale_part H bh s (batch_of T nodes)).
  set (part := stale_part H bh s (batch_of T nodes)).
  assert (∀ k, part !! k = if bool_decide (k ∈ nodes) && stale H bh s k
                           then T !! k else None) as Hpart
    by (intros k; apply stale_part_lookup).
  cbn zeta. destruct (decide (part = ∅)) as [Hempty|Hempty];
    [rewrite !(bool_decide_eq_true_2 (part = ∅)) by done
    |rewrite !(bool_decide_eq_false_2 (part = ∅)) by done].
  - exists w. split_and!; [done|done|by rewrite app_nil_r| |apply same_part_refl|].
    { intros. apply same_part_refl. }
    intros k. pose proof (Hpart k) as Hk. rewrite Hempty, lookup_empty in Hk.
    destruct (bool_decide (k ∈ nodes) && stale H bh s k); [|done].
    by rewrite <- Hk.
  - apply map_choose in Hempty as Hsome. destruct Hsome as (k0 & v0 & Hk0).
    assert (∀ k v, part !! k = Some v →
                   T !! k = Some v ∧ stale H bh s k = true) as Hin.
    { intros k v. rewrite Hpart. destruct (bool_decide (k ∈ nodes)); [|done].
      destruct (stale H bh s k); [|done]. done. }
    destruct (Hin _ _ Hk0) as [HT0 Hst0].
    destruct (stale_ok s k0 v0 Hs HT0 Hst0) as [Hsp _].
    rewrite invoke_known by done.
    pose proof (fetch_ready_add_call (s, OpHmset name part) w Hready) as (Hp1 & HT1 & Hs1).
    destruct (hmset_spec sha1 sha256 s name part (add_call (s, OpHmset name part) w))
      as (w' & Hrun & Hok' & Hcalls & Hframe & Hview); [done|by apply Hs1|done| |].
    { intros k v [HTk Hst]%Hin. by apply (stale_ok s k v). }
    assert (same_part p w w') as Hpp.
    { eapply same_part_trans; [apply same_part_add_call|]. apply Hframe; [done|congruence]. }
    exists w'. split_and!; [done| |done| |done|].
    + split_and!.
      * eapply same_part_primary_ok; [|exact Hp1]. apply Hframe; [done|congruence].
      * rewrite <- HT1. apply same_part_texts. apply Hframe; [done|congruence].
      * intros s' Hs'. destruct (decide (s' = s)) as [->|Hne]; [done|].
        eapply same_part_secondary_ok; [|by apply Hs1]. apply Hframe; [|done].
        rewrite Forall_forall in known_ss. auto.
    + intros s' Hne Hk'. eapply same_part_trans; [apply same_part_add_call|].
      by apply Hframe.
    + intros k. rewrite Hview, Hpart.
      rewrite (same_part_hashes _ _ _ _ _ (same_part_add_call s _ w)).
      destruct (bool_decide (k ∈ nodes) && stale H bh s k); [|done].
      destruct (T !! k) as [v|] eqn:HTk; cbn.
      * by rewrite H_T, lookup_fmap, HTk.
      * done.
Qed.

(** All the secondaries of one batch. *)
Lemma push_loop_spec nodes : ∀ rest done w0 w,
  (∀ s, s ∈ rest → s ∈ ss) →
  (∀ k, k ∈ nodes → is_Some (T !! k)) →
  fetch_ready sha1 sha256 flag p ss name T w →
  same_part p w0 w →
  (∀ s, s ∈ ss →
     pushed sha256 name H bh s
       (λ k, bool_decide (k ∈ nodes) && bool_decide (s ∈ done)) w0 w) →
  ∃ w', for_each (push_batch sha1 sha256 name H bh (batch_of T nodes)) rest w
        = (Ok tt, w') ∧
    fetch_ready sha1 sha256 flag p ss name T w' ∧
    same_part p w0 w' ∧
    calls w' = calls w ++
      omap (λ s, let part := stale_part H bh s (batch_of T nodes) in
                 if bool_decide (part = ∅) then None else Some (s, OpHmset name part))
        rest ∧
    ∀ s, s ∈ ss →
      pushed sha256 name H bh s
        (λ k, bool_decide (k ∈ nodes) && bool_decide (s ∈ done ++ rest)) w0 w'.
Proof.
  induction rest as [|s rest IH]; intros done w0 w Hrest Hnodes Hready Hp Hinv.
  - exists w. rewrite !app_nil_r. by split_and!.
  - assert (s ∈ ss) as Hs by (apply Hrest; left).
    destruct (push_batch_spec nodes s w Hs Hready)
      as (w1 & Hrun & Hready1 & Hcalls1 & Hframe & Hp1 & Hview).
    destruct (IH (done ++ [s]) w0 w1) as (w' & Hrun' & Hready' & Hp' & Hcalls' & Hinv').
    { intros s' Hs'. apply Hrest. by right. }
    { done. }
    { done. }
    { by eapply same_part_trans. }
    { intros s' Hs' k. destruct (decide (s' = s)) as [->|Hne].
      - rewrite Hview, (Hinv s Hs k).
        rewrite (bool_decide_eq_true_2 (s ∈ done ++ [s])) by set_solver.
        rewrite andb_true_r.
        destruct (decide (k ∈ nodes)) as [Hk|Hk].
        + rewrite (bool_decide_eq_true_2 (k ∈ nodes)) by done.
          rewrite (bool_decide_eq_true_2 (is_Some (T !! k))) by auto.
          cbn. rewrite andb_true_r. destruct (stale H bh s k); [done|].
          by rewrite andb_false_r.
        + rewrite (bool_decide_eq_false_2 (k ∈ nodes)) by done. done.
      - assert (known_backend s') as Hk' by (rewrite Forall_forall in known_ss; auto).
        rewrite (same_part_hashes _ _ _ _ _ (Hframe s' Hne Hk')), (Hinv s' Hs' k).
        rewrite (bool_decide_ext (s' ∈ done ++ [s]) (s' ∈ done)) by set_solver.
        done. }
    exists w'. split_and!; [|done|done| |].
    + cbn [for_each]. by erewrite bind_ok; [|exact Hrun].
    + rewrite Hcalls', Hcalls1. rewrite <- app_assoc. f_equal. cbn [omap list_omap].
      cbn zeta. by case_bool_decide.
    + intros s' Hs'. rewrite (cons_middle s done rest), app_assoc. by apply Hinv'.
Qed.

Lemma fetch_loop_empty fuel n w :
  fetch_loop sha1 sha256 p ss fuel name n (backend_of sha1 sha256 p) H bh ∅ w
  = (Ok tt, w).
Proof. destruct fuel; cbn [fetch_loop]; by rewrite bool_decide_eq_true_2. Qed.

(** The loop, batch after batch. *)
Lemma fetch_loop_spec n : 1 ≤ n → ∀ fuel todo w,
  (size todo ≤ fuel)%nat →
  (∀ k, k ∈ todo → is_Some (T !! k)) →
  fetch_ready sha1 sha256 flag p ss name T w →
  ∃ w' batches,
    fetch_loop sha1 sha256 p ss fuel name n (backend_of sha1 sha256 p) H bh todo w
    = (Ok tt, w') ∧
    fetch_ready sha1 sha256 flag p ss name T w' ∧
    same_part p w w' ∧
    calls w' = calls w ++ fetch_calls p ss name H bh T batches ∧
    concat batches ≡ₚ elements todo ∧
    Z.of_nat (length batches) = (Z.of_nat (size todo) + n - 1) / n ∧
    (∀ i b, batches !! i = Some b →
       Z.of_nat (length b) = Z.min n (Z.of_nat (size todo) - Z.of_nat i * n)) ∧
    ∀ s, s ∈ ss → pushed sha256 name H bh s (λ k, bool_decide (k ∈ todo)) w w'.
Proof.
  intros Hn.
  assert (∀ fuel w, fetch_ready sha1 sha256 flag p ss name T w →
    ∃ w' batches,
      fetch_loop sha1 sha256 p ss fuel name n (backend_of sha1 sha256 p) H bh ∅ w
      = (Ok tt, w') ∧
      fetch_ready sha1 sha256 flag p ss name T w' ∧
      same_part p w w' ∧
      calls w' = calls w ++ fetch_calls p ss name H bh T batches ∧
      concat batches ≡ₚ elements (∅ : gset string) ∧
      Z.of_nat (length batches) = (Z.of_nat (size (∅ : gset string)) + n - 1) / n ∧
      (∀ i b, batches !! i = Some b →
         Z.of_nat (length b)
         = Z.min n (Z.of_nat (size (∅ : gset string)) - Z.of_nat i * n)) ∧
      ∀ s, s ∈ ss →
        pushed sha256 name H bh s (λ k, bool_decide (k ∈ (∅ : gset string))) w w')
    as Hempty.
  { intros fuel w Hready. exists w, []. rewrite fetch_loop_empty.
    split_and!; [done|done|apply same_part_refl|by rewrite app_nil_r| | |done|].
    - by rewrite elements_empty.
    - rewrite size_empty. cbn. rewrite Z.div_small; lia.
    - intros s _ k. by rewrite bool_decide_eq_false_2 by set_solver. }
  induction fuel as [|fuel IH]; intros todo w Hsize Hsub Hready.
  { assert (todo = ∅) as -> by (apply leibniz_equiv, size_empty_iff; lia). auto. }
  destruct (decide (todo = ∅)) as [->|Hne]; [auto|].
  assert (1 ≤ size todo)%nat as Hpos.
  { destruct (size todo) eqn:E; [|lia]. by apply size_empty_iff, leibniz_equiv in E. }
  set (m := Z.to_nat (Z.min (Z.of_nat (size todo)) n)).
  destruct (pop_n_spec m todo) as (l & Hl & Hnd & Hlen & Hin); [lia|].
  set (c := (p, OpHmget name l)).
  pose proof (fetch_ready_add_call c w Hready) as Hready0.
  destruct Hready0 as (Hp0 & HT0 & Hs0).
  destruct (hmget_spec sha1 sha256 flag p name l (add_call c w) known_p Hp0)
    as (vals & Hget & Hvals).
  { apply Forall_forall. intros k Hk. rewrite (hashes_of_texts sha1 sha256 flag) by done.
    rewrite HT0, lookup_fmap, fmap_is_Some. auto. }
  rewrite HT0 in Hvals.
  destruct (push_loop_spec l ss [] (add_call c w) (add_call c w))
    as (w1 & Hpush & Hready1 & Hp1 & Hcalls1 & Hinv1);
    [done|by auto|by split_and!|apply same_part_refl| |].
  { intros s Hs k. rewrite (bool_decide_eq_false_2 (s ∈ [])) by set_solver.
    by rewrite andb_false_r. }
  set (todo' := todo ∖ list_to_set l) in *.
  assert (size todo' = size todo - m)%nat as Hsize'.
  { unfold todo'. rewrite size_difference by set_solver.
    by rewrite size_list_to_set, Hlen by done. }
  destruct (IH todo' w1) as (w' & batches & Hrun & Hready' & Hp' & Hcalls' & Hperm
                             & Hcnt & Hlens & Hinv'); [lia|set_solver|done|].
  exists w', (l :: batches). split_and!.
  - cbn [fetch_loop]. rewrite bool_decide_eq_false_2 by done. fold m.
    erewrite bind_ok; [|unfold lift; by rewrite Hl]. cbn [fst snd]. fold c.
    erewrite bind_ok; [|unfold bind at 1, modify at 1; exact Hget].
    rewrite (batch_of_zip T) by done.
    erewrite bind_ok; [|exact Hpush]. exact Hrun.
  - done.
  - eapply same_part_trans; [apply same_part_add_call|].
    eapply same_part_trans; [exact Hp1|exact Hp'].
  - rewrite Hcalls', Hcalls1. unfold fetch_calls. cbn [fmap list_fmap concat].
    unfold batch_calls at 2. cbn [calls add_call]. rewrite <- !app_assoc. done.
  - cbn [concat]. rewrite Hperm. by apply elements_split.
  - cbn [length]. rewrite Nat2Z.inj_succ, Hcnt, Hsize'.
    rewrite Nat2Z.inj_sub by lia. unfold m. rewrite Z2Nat.id by lia.
    rewrite <- (ceil_step (Z.of_nat (size todo)) n) by lia. lia.
  - intros [|i] b Hb; cbn in Hb.
    + injection Hb as <-. rewrite Hlen. unfold m. lia.
    + specialize (Hlens i b Hb). rewrite Hlens.
      assert (todo' ≠ ∅) as Hne'.
      { intros E. rewrite E, size_empty in Hcnt. cbn in Hcnt.
        rewrite Z.div_small in Hcnt by lia. by destruct batches. }
      assert (1 ≤ size todo')%nat.
      { destruct (size todo') eqn:E; [|lia]. by apply size_empty_iff, leibniz_equiv in E. }
      unfold m in *. lia.
  - intros s Hs k. rewrite (Hinv' s Hs k), (Hinv1 s Hs k).
    rewrite (bool_decide_eq_true_2 (s ∈ [] ++ ss)) by done. rewrite andb_true_r.
    rewrite (same_part_hashes _ _ _ _ _ (same_part_add_call s c w)).
    destruct (decide (k ∈ l)) as [Hk|Hk].
    + rewrite (bool_decide_eq_true_2 (k ∈ l)) by done.
      rewrite (bool_decide_eq_true_2 (k ∈ todo)) by auto.
      rewrite (bool_decide_eq_false_2 (k ∈ todo')) by set_solver. done.
    + rewrite (bool_decide_eq_false_2 (k ∈ l)) by done.
      rewrite (bool_decide_ext (k ∈ todo') (k ∈ todo)) by set_solver. cbn.
      by destruct (_ && _).
Qed.

End fetch_facts.

(** ** The first loop over the secondaries *)

Section scan_facts.

Variable sha1 : string → N.
Variable sha256 : string → string.
Variables (p : string) (ss : list string) (name : string).
Variable H : gmap string string.
Variable w0 : World.

Hypothesis known_p : known_backend p.
Hypothesis known_ss : Forall known_backend ss.
Hypothesis H_w0 : hashes_of sha256 p name w0 = H.

Lemma scan_secondary_spec acc s w :
  s ∈ ss → same_part p w0 w →
  (∀ s', s' ∈ ss → secondary_ok sha1 s' name w) →
  (∀ k, k ∈ acc.1 → is_Some (H !! k)) →
  ("file" ∈ ss → prunable sha1 sha256 name H w) →
  ∃ acc' w' tr,
    scan_secondary sha1 sha256 name H acc s w = (Ok acc', w') ∧
    same_part p w0 w' ∧
    (∀ s', s' ∈ ss → secondary_ok sha1 s' name w') ∧
    (∀ k, k ∈ acc'.1 → is_Some (H !! k)) ∧
    calls w' = calls w ++ tr ∧ Forall (scan_call sha1 ss name H) tr ∧
    (∀ k, k ∈ acc.1 → k ∈ acc'.1) ∧
    (∀ s', s' ≠ s → acc'.2 !! s' = acc.2 !! s') ∧
    (∀ s', s' ≠ s → known_backend s' → same_part s' w w') ∧
    scanned sha256 p name H acc' w' s ∧
    ("file" ∈ ss → prunable sha1 sha256 name H w').
Proof.
  intros Hs Hp Hoks Hacc Hpr.
  assert (known_backend s) as Hks by (rewrite Forall_forall in known_ss; auto).
  set (c := (s, OpHgetall name true)).
  set (hs := hashes_of sha256 s name w).
  assert (hashes_of sha256 s name (add_call c w) = hs) as Hhs
    by apply same_part_hashes, same_part_add_call.
  assert (s = p → hs = H) as Hsp.
  { intros ->. unfold hs. by rewrite (same_part_hashes _ _ _ _ _ Hp). }
  set (del := dom hs ∖ dom H).
  set (acc' := (acc.1 ∪ filter (λ n, out_of_sync hs H n) (dom H), <[s := hs]> acc.2)).
  assert (∀ k, k ∈ acc'.1 → is_Some (H !! k)) as Hacc'.
  { intros k Hk. unfold acc' in Hk. cbn [fst] in Hk.
    apply elem_of_union in Hk as [?|[_ ?%elem_of_dom]%elem_of_filter]; auto. }
  assert (∀ k, is_Some (H !! k) → out_of_sync hs H k = true → k ∈ acc'.1) as Hstale.
  { intros k Hk Ho. unfold acc'. cbn [fst]. apply elem_of_union_r, elem_of_filter.
    split; [by rewrite Ho|by apply elem_of_dom]. }
  assert (∀ w1, (∀ s', s' ≠ s → known_backend s' → same_part s' w w1) →
                (s ≠ p ∨ w1 = add_call c w) → same_part p w0 w1) as Hpp.
  { intros w1 Hframe [Hne| ->].
    - eapply same_part_trans; [exact Hp|]. by apply Hframe.
    - eapply same_part_trans; [exact Hp|]. apply same_part_add_call. }
  unfold scan_secondary. erewrite bind_ok.
  2:{ rewrite invoke_known by done. fold c. apply hgetall_spec; [done|].
      eapply same_part_secondary_ok; [apply same_part_add_call|auto]. }
  rewrite Hhs. cbn zeta. fold del. fold acc'.
  destruct (decide (del = ∅)) as [Hdel|Hdel].
  - rewrite bool_decide_eq_true_2 by done.
    exists acc', (add_call c w), [c]. split_and!; [done| | |done|done| | | | | |].
    + apply Hpp; [|by right]. intros. apply same_part_add_call.
    + intros s' Hs'. eapply same_part_secondary_ok; [apply same_part_add_call|auto].
    + apply Forall_singleton. split; [done|by left].
    + intros k Hk. unfold acc'. cbn [fst]. by apply elem_of_union_l.
    + intros s' Hne. cbn. by rewrite lookup_insert_ne.
    + intros. apply same_part_add_call.
    + exists hs. split_and!; [by cbn; rewrite lookup_insert_eq| |done|done].
      intros k. rewrite Hhs. case_bool_decide as Hk; [done|].
      apply not_elem_of_dom. intros Hin. rewrite <- elem_of_dom in Hk.
      unfold del in Hdel. set_solver.
    + intros Hin. by apply (prunable_frame sha1 sha256 name H w); [..|apply Hpr].
  - rewrite bool_decide_eq_false_2 by done.
    set (c2 := (s, OpHdel name (elements del))).
    assert (s ≠ p) as Hne.
    { intros E. apply Hdel. unfold del. rewrite (Hsp E). set_solver. }
    destruct (hdel_spec sha1 sha256 s name (elements del) (add_call c2 (add_call c w)))
      as (w' & Hrun & Hok' & Hcalls & Hframe & Hview); [done| | | |].
    { eapply same_part_secondary_ok; [apply same_part_add_call|].
      eapply same_part_secondary_ok; [apply same_part_add_call|auto]. }
    { apply Forall_forall. intros k [Hk _]%elem_of_elements%elem_of_difference.
      rewrite (same_part_hashes _ _ _ _ _ (same_part_add_call s c2 _)), Hhs.
      by apply elem_of_dom. }
    { intros ->. apply (deletes_frame sha1 name _ w); [done|done|].
      apply Hpr; done. }
    assert (∀ s', s' ≠ s → known_backend s' → same_part s' w w') as Hframe'.
    { intros s' Hs' Hk'. eapply same_part_trans; [apply same_part_add_call|].
      eapply same_part_trans; [apply same_part_add_call|]. by apply Hframe. }
    exists acc', w', [c; c2]. split_and!; [|by auto| |done| | | | |done| |].
    + erewrite bind_ok; [|rewrite invoke_known by done; exact Hrun]. done.
    + intros s' Hs'. destruct (decide (s' = s)) as [->|Hne']; [done|].
      eapply same_part_secondary_ok; [|by apply Hoks]. apply Hframe'; [done|].
      rewrite Forall_forall in known_ss. auto.
    + rewrite Hcalls. cbn. by rewrite <- app_assoc.
    + apply Forall_cons_2; [split; [done|by left]|].
      apply Forall_singleton. split; [done|]. right. eexists. split; [done|].
      apply Forall_forall. intros k [Hk HkH]%elem_of_elements%elem_of_difference.
      split; [by apply not_elem_of_dom|]. cbn. intros ->. cbn in *.
      apply elem_of_dom in Hk. unfold hs, hashes_of in Hk. cbn in Hk.
      by destruct (file_view_file_key sha1 _ _ _ _ (Hoks "file" Hs) Hk).
    + intros k Hk. unfold acc'. cbn [fst]. by apply elem_of_union_l.
    + intros s' Hne'. cbn. by rewrite lookup_insert_ne.
    + exists hs. split_and!; [by cbn; rewrite lookup_insert_eq| |done|done].
      intros k. rewrite Hview.
      rewrite (same_part_hashes _ _ _ _ _ (same_part_add_call s c2 _)), Hhs.
      rewrite (bool_decide_ext (k ∈ elements del) (is_Some (hs !! k) ∧ H !! k = None)).
      2:{ rewrite elem_of_elements. unfold del.
          rewrite elem_of_difference, elem_of_dom, not_elem_of_dom. done. }
      destruct (H !! k) as [h|] eqn:HHk.
      * rewrite bool_decide_eq_false_2 by by intros [_ ?].
        by rewrite bool_decide_eq_true_2 by by eexists.
      * rewrite (bool_decide_eq_false_2 (is_Some None)) by by intros [? ?].
        case_bool_decide as Hc; [done|].
        destruct (hs !! k) eqn:E; [|done]. destruct Hc. by split; [eexists|].
    + intros Hin. destruct (decide (s = "file")) as [->|Hnf].
      * intros Hne'. destruct Hne'. apply leibniz_equiv. intros k. split; [|set_solver].
        intros [Hk HkH]%elem_of_difference. apply elem_of_dom in Hk.
        rewrite Hview in Hk.
        rewrite (same_part_hashes _ _ _ _ _ (same_part_add_call "file" c2 _)), Hhs in Hk.
        case_bool_decide as Hc; [by destruct Hk|].
        destruct HkH. rewrite elem_of_elements in Hc. unfold del in Hc.
        apply elem_of_dom in Hk. apply dec_stable. set_solver.
      * apply (prunable_frame sha1 sha256 name H w); [| |by apply Hpr].
        -- apply (Hframe' "file"); [done|by left].
        -- pose proof (hdel_system sha1 sha256 s name (elements del)
                         (add_call c2 (add_call c w)) Hks Hnf) as Hsys.
           rewrite Hrun in Hsys. exact Hsys.
Qed.

Lemma scan_loop_spec : ∀ rest done acc w,
  (∀ s, s ∈ rest → s ∈ ss) → (∀ s, s ∈ done → s ∈ ss) →
  same_part p w0 w →
  (∀ s', s' ∈ ss → secondary_ok sha1 s' name w) →
  (∀ k, k ∈ acc.1 → is_Some (H !! k)) →
  (∀ s, s ∈ done → scanned sha256 p name H acc w s) →
  ("file" ∈ ss → prunable sha1 sha256 name H w) →
  ∃ acc' w' tr,
    fold_each (scan_secondary sha1 sha256 name H) rest acc w = (Ok acc', w') ∧
    same_part p w0 w' ∧
    (∀ s', s' ∈ ss → secondary_ok sha1 s' name w') ∧
    (∀ k, k ∈ acc'.1 → is_Some (H !! k)) ∧
    calls w' = calls w ++ tr ∧ Forall (scan_call sha1 ss name H) tr ∧
    ∀ s, s ∈ done ++ rest → scanned sha256 p name H acc' w' s.
Proof.
  induction rest as [|s rest IH]; intros done acc w Hrest Hdone Hp Hoks Hacc Hinv Hpr.
  - exists acc, w, []. rewrite !app_nil_r. by split_and!.
  - assert (s ∈ ss) as Hs by (apply Hrest; left).
    destruct (scan_secondary_spec acc s w Hs Hp Hoks Hacc Hpr)
      as (acc1 & w1 & tr1 & Hrun1 & Hp1 & Hoks1 & Hacc1 & Hcalls1 & Htr1
          & Hmono & Hbh & Hframe & Hs1 & Hpr1).
    destruct (IH (done ++ [s]) acc1 w1)
      as (acc' & w' & tr & Hrun & Hp' & Hoks' & Hacc' & Hcalls' & Htr & Hinv');
      [by intros; apply Hrest; right| |done|done|done| |done|].
    { intros s' [?|E%list_elem_of_singleton]%elem_of_app; [auto|by subst]. }
    { intros s' [Hs'|E%list_elem_of_singleton]%elem_of_app; [|by subst].
      destruct (decide (s' = s)) as [->|Hne]; [done|].
      destruct (Hinv s' Hs') as (hs & Hhs & Hview & Hstale & Hsp).
      assert (known_backend s') as Hk'
        by (rewrite Forall_forall in known_ss; auto).
      exists hs. split_and!; [by rewrite Hbh|..|done].
      - intros k. by rewrite (same_part_hashes _ _ _ _ _ (Hframe s' Hne Hk')).
      - auto. }
    exists acc', w', (tr1 ++ tr). split_and!; [|done|done|done| | |].
    + cbn [fold_each]. by erewrite bind_ok; [|exact Hrun1].
    + by rewrite Hcalls', Hcalls1, app_assoc.
    + by apply Forall_app.
    + intros s'. rewrite (cons_middle s done rest), app_assoc. apply Hinv'.
Qed.

End scan_facts.

(** ** One hashmap, from the read of the primary to the last batch *)

Section sync_facts.

Variable sha1 : string → N.
Variable sha256 : string → string.

Lemma out_of_sync_same H k : is_Some (H !! k) → out_of_sync H H k = false.
Proof.
  intros [h Hh]. unfold out_of_sync. rewrite Hh.
  by rewrite bool_decide_eq_false_2 by by intros [].
Qed.

Lemma out_of_sync_false hs H k :
  is_Some (H !! k) → out_of_sync hs H k = false → hs !! k = H !! k.
Proof.
  intros [h Hh]. unfold out_of_sync. destruct (hs !! k) as [h'|]; [|done].
  intros Hb%bool_decide_eq_false. by apply dec_stable in Hb.
Qed.

Lemma sync_hashmap_spec primary secondaries name n fuel w :
  let H := hashes_of sha256 primary name w in
  let T := texts_of primary name w in
  known_backend primary → Forall known_backend secondaries →
  primary_ok sha1 sha256 (bool_decide ("mongodb" ∈ secondaries)) primary name w →
  Forall (λ s, secondary_ok sha1 s name w) secondaries →
  ("file" ∈ secondaries → ∀ k, is_Some (H !! k) → file_key sha1 name k = true) →
  ("file" ∈ secondaries → prunable sha1 sha256 name H w) →
  1 ≤ n → (size (dom H) ≤ fuel)%nat →
  ∃ w' (todo : gset string) bh tr batches,
    _sync_hashmap sha1 sha256 primary secondaries fuel name n
      (backend_of sha1 sha256 primary) w = (Ok tt, w') ∧
    same_part primary w w' ∧
    (∀ s, s ∈ secondaries →
       secondary_ok sha1 s name w' ∧ hashes_of sha256 s name w' = H) ∧
    calls w' = calls w ++ (primary, OpHgetall name true) :: tr
                 ++ fetch_calls primary secondaries name H bh T batches ∧
    Forall (scan_call sha1 secondaries name H) tr ∧
    concat batches ≡ₚ elements todo ∧
    (∀ k, k ∈ todo → is_Some (H !! k)).
Proof.
  intros H T Hkp Hks Hpok Hsok Hfile Hprune Hn Hfuel.
  set (flag := bool_decide ("mongodb" ∈ secondaries)) in *.
  set (c0 := (primary, OpHgetall name true)).
  assert (same_part primary w (add_call c0 w)) as Hp0 by apply same_part_add_call.
  assert (hashes_of sha256 primary name (add_call c0 w) = H) as HH0
    by by apply same_part_hashes.
  assert (H = sha256 <$> T) as H_T by by apply (hashes_of_texts sha1 sha256 flag).
  rewrite Forall_forall in Hsok.
  destruct (scan_loop_spec sha1 sha256 primary secondaries name H (add_call c0 w)
              Hkp Hks HH0 secondaries [] (∅, ∅) (add_call c0 w))
    as (acc & w1 & tr & Hscan & Hp1 & Hoks1 & Hacc1 & Hcalls1 & Htr & Hinv);
    [done|by intros ? ?%elem_of_nil|apply same_part_refl| |set_solver
    |by intros ? ?%elem_of_nil| |].
  { intros s Hs. eapply same_part_secondary_ok; [apply same_part_add_call|auto]. }
  { intros Hin. by apply (prunable_frame sha1 sha256 name H w); [..|apply Hprune]. }
  cbn [app] in Hinv. destruct acc as [todo bh]. cbn [fst snd] in *.
  assert (same_part primary w w1) as Hpw1
    by (eapply same_part_trans; [exact Hp0|exact Hp1]).
  destruct (fetch_loop_spec sha1 sha256 primary secondaries name flag H bh T
              Hkp Hks H_T) with (n := n) (fuel := fuel) (todo := todo) (w := w1)
    as (w' & batches & Hrun & Hready' & Hp' & Hcalls' & Hperm & _ & _ & Hpushed).
  - intros s Hs. destruct (Hinv s Hs) as (hs & Hhs & _). by eexists.
  - intros s k v Hs HTk Hst. destruct (Hinv s Hs) as (hs & Hhs & _ & _ & Hsp).
    cbn [fst snd] in Hhs.
    unfold stale in Hst. rewrite Hhs in Hst. cbn in Hst.
    assert (is_Some (H !! k)) as HHk by (rewrite H_T, lookup_fmap, HTk; by eexists).
    split.
    + intros E. rewrite (Hsp E), out_of_sync_same in Hst by done. done.
    + assert (known_backend s) as [->| ->] by (rewrite Forall_forall in Hks; auto).
      * cbn. by apply Hfile.
      * cbn. apply (texts_of_json sha1 sha256 primary name w k v); [done| |done].
        unfold flag in Hpok. by rewrite bool_decide_eq_true_2 in Hpok.
  - done.
  - etrans; [|exact Hfuel]. apply subseteq_size. intros k Hk%Hacc1.
    by apply elem_of_dom.
  - intros k Hk. rewrite <- (fmap_is_Some sha256), <- lookup_fmap, <- H_T. auto.
  - split_and!; [|by apply same_part_texts|done].
    by eapply same_part_primary_ok.
  - exists w', todo, bh, tr, batches. split_and!; [| | | |done|done|done].
    + unfold _sync_hashmap. erewrite bind_ok.
      2:{ unfold bind at 1, modify at 1. fold c0.
          apply hgetall_spec; [done|].
          eapply primary_secondary_ok, same_part_primary_ok; [exact Hp0|exact Hpok]. }
      rewrite HH0. erewrite bind_ok; [|exact Hscan]. exact Hrun.
    + eapply same_part_trans; [exact Hpw1|exact Hp'].
    + intros s Hs. destruct Hready' as (_ & _ & Hoks'). split; [auto|].
      destruct (Hinv s Hs) as (hs & Hhs & Hview & Hstale & Hsp).
      cbn [fst snd] in Hhs, Hstale. apply map_eq. intros k. rewrite (Hpushed s Hs k), Hview.
      unfold stale. rewrite Hhs. cbn [from_option id].
      destruct (decide (is_Some (H !! k))) as [HHk|HHk].
      * rewrite (bool_decide_eq_true_2 (is_Some (H !! k))) by done.
        destruct (out_of_sync hs H k) eqn:Ho.
        -- by rewrite bool_decide_eq_true_2 by auto.
        -- rewrite andb_false_r. by apply out_of_sync_false.
      * rewrite (bool_decide_eq_false_2 (is_Some (H !! k))) by done.
        rewrite (bool_decide_eq_false_2 (k ∈ todo)) by (intros ?; auto).
        cbn. symmetry. by apply eq_None_not_Some.
    + rewrite Hcalls', Hcalls1. cbn [calls add_call]. rewrite <- !app_assoc. done.
Qed.

End sync_facts.

(** ** The catch-all hashmap of the file backend *)

Lemma substring_all s : String.substring 0 (String.length s) s = s.
Proof. induction s as [|c s IH]; [done|]. simpl. by rewrite IH. Qed.

Lemma str_take_substring n : ∀ s,
  (n ≤ String.length s)%nat →
  str_take n s +:+ String.substring n (String.length s - n) s = s.
Proof.
  induction n as [|n IH]; intros s Hn.
  - rewrite Nat.sub_0_r, substring_all. by destruct s.
  - destruct s as [|c s]; [simpl in Hn; lia|]. simpl in Hn.
    cbn [str_take]. rewrite append_cons. cbn [String.length String.substring Nat.sub].
    rewrite IH by lia. done.
Qed.

Lemma str_drop_end_json p :
  str_endswith ".json" p = true → str_drop_end 5 p +:+ ".json" = p.
Proof.
  unfold str_endswith. intros [Hsub Hlen]%andb_true_iff.
  apply String.eqb_eq in Hsub. apply Nat.leb_le in Hlen. cbn [String.length] in *.
  unfold str_drop_end. rewrite <- Hsub.
  pose proof (str_take_substring (String.length p - 5) p) as Hp.
  replace (String.length p - (String.length p - 5))%nat with 5%nat in Hp by lia.
  apply Hp. lia.
Qed.

Lemma has_sep_str_take n : ∀ s,
  os_path.has_sep s = false → os_path.has_sep (str_take n s) = false.
Proof.
  induction n as [|n IH]; intros [|c s]; try done.
  cbn. intros [Hc Hs]%orb_false_iff. by rewrite Hc, IH.
Qed.

Section catch_all_facts.

Variable sha1 : string → N.

Lemma sharded_file_lazy_json key :
  os_path.has_sep key = false → sharded_file sha1 "lazy_json" key = key +:+ ".json".
Proof. intros Hk. unfold sharded_file. by rewrite get_sharded_path_catch_all. Qed.

Lemma listable_lazy_json p :
  listable "lazy_json" p = true →
  os_path.has_sep p = false ∧ matches_json p = true ∧ (p ∉ reserved_names) ∧
  os_path.has_sep (key_of p) = false ∧ key_of p +:+ ".json" = p.
Proof.
  unfold listable. cbn [String.eqb Ascii.eqb Bool.eqb]. cbn.
  intros [[Hsep Hm]%andb_true_iff Hr%bool_decide_eq_true]%andb_true_iff.
  apply negb_true_iff in Hsep.
  assert (key_of p = str_drop_end 5 p) as Hkey.
  { unfold key_of, os_path.basename. by rewrite os_path_facts.rsplit_no_sep. }
  split_and!; [done..| |].
  - rewrite Hkey. by apply has_sep_str_take.
  - rewrite Hkey. apply str_drop_end_json.
    unfold matches_json in Hm. by apply andb_true_iff in Hm as [_ ?].
Qed.

(** The files of the working directory itself always stand where
    [get_sharded_path] puts them. *)
Lemma tree_ok_lazy_json files : tree_ok sha1 "lazy_json" files.
Proof.
  intros p _ (_ & _ & _ & Hsep & Hp)%listable_lazy_json.
  by rewrite sharded_file_lazy_json.
Qed.

Lemma file_key_reserved k :
  k ∈ ["ranked_hubs_authorities"; "all_feedstocks"] →
  sharded_file sha1 "lazy_json" k = k +:+ ".json" ∧
  file_key sha1 "lazy_json" k = false.
Proof.
  intros Hk. assert (os_path.has_sep k = false) as Hsep.
  { by apply elem_of_cons in Hk as [->|[->|[]%elem_of_nil]%elem_of_cons]. }
  split; [by apply sharded_file_lazy_json|].
  unfold file_key. rewrite sharded_file_lazy_json by done.
  by apply elem_of_cons in Hk as [->|[->|[]%elem_of_nil]%elem_of_cons].
Qed.

End catch_all_facts.

(** ** The claims on the synchronisation *)

Lemma fetch_calls_keys p ss name H bh T batches c k :
  c ∈ fetch_calls p ss name H bh T batches → k ∈ op_keys c.2 →
  k ∈ concat batches ∧ (c.1 = p ∨ c.1 ∈ ss).
Proof.
  unfold fetch_calls. induction batches as [|b batches IH]; cbn [fmap list_fmap concat].
  { by intros ?%elem_of_nil. }
  rewrite elem_of_app. intros [Hc|Hc] Hk.
  - unfold batch_calls in Hc. apply elem_of_cons in Hc as [->|Hc].
    + cbn in *. split; [by apply elem_of_app; left|by left].
    + apply list_elem_of_omap in Hc as (s & Hs & Hc). cbn zeta in Hc.
      case_bool_decide; [done|]. injection Hc as <-. cbn in *.
      split; [|by right]. apply elem_of_app. left.
      apply list_elem_of_fmap in Hk as ([k' v] & -> & Hkv%elem_of_map_to_list).
      cbn. rewrite stale_part_lookup in Hkv.
      by case_bool_decide.
  - destruct (IH Hc Hk) as [? ?]. split; [|done]. apply elem_of_app. by right.
Qed.

Section sync_claims.

Variable sha1 : string → N.
Variable sha256 : string → string.

(** C1 (amended).  One run of the synchronisation on a hashmap leaves each
    secondary with the [{key: hash}] map that the primary had and still has:
    [hgetall(name, hashval=True)] returns the same map on all of them.
    This needs a batch size of at least 1, a hashmap that the backends in
    use can hold (for the files, a tree laid out as [get_sharded_path] lays
    it out; for the database, one of its collections), a primary whose
    hashes are those of the texts it hands out, texts that are JSON when
    the database is a secondary, and keys that the file backend lists
    when the file backend is a secondary.  The file backend deletes
    through the shell: when it is a secondary that holds nodes the primary
    does not have, the run also needs a system on which the two commands
    of [hdel] over the paths of those nodes, [git rm -f] and [rm -f], do
    what they say ([prunable]); paths that the shell does not take as they
    are written, or a repository that does not track them, are left out
    by that. *)
Theorem sync_converges primary secondaries name (n : Z) (fuel : nat)
    (H : gmap string string) (w : World) :
  known_backend primary → Forall known_backend secondaries →
  primary_ok sha1 sha256 (bool_decide ("mongodb" ∈ secondaries)) primary name w →
  Forall (λ s, secondary_ok sha1 s name w) secondaries →
  hgetall (backend_of sha1 sha256 primary) name true w = (Ok H, w) →
  ("file" ∈ secondaries → ∀ k, is_Some (H !! k) → file_key sha1 name k = true) →
  ("file" ∈ secondaries → prunable sha1 sha256 name H w) →
  1 ≤ n → (size (dom H) ≤ fuel)%nat →
  ∃ w',
    _sync_hashmap sha1 sha256 primary secondaries fuel name n
      (backend_of sha1 sha256 primary) w = (Ok tt, w')
    ∧ hgetall (backend_of sha1 sha256 primary) name true w' = (Ok H, w')
    ∧ Forall (λ s, hgetall (backend_of sha1 sha256 s) name true w' = (Ok H, w'))
        secondaries.
Proof.
  intros Hkp Hks Hpok Hsok Hget Hfile Hprune Hn Hfuel.
  pose proof (primary_secondary_ok _ _ _ _ _ _ Hpok) as Hpsok.
  rewrite (hgetall_spec sha1 sha256) in Hget by done. injection Hget as <-.
  destruct (sync_hashmap_spec sha1 sha256 primary secondaries name n fuel w)
    as (w' & todo & bh & tr & batches & Hrun & Hp & Hs & _); [done..|].
  exists w'. split_and!; [done| |].
  - rewrite (hgetall_spec sha1 sha256); [|done|by eapply same_part_secondary_ok].
    by rewrite (same_part_hashes _ _ _ _ _ Hp).
  - apply Forall_forall. intros s Hin. destruct (Hs s Hin) as [Hok Hview].
    rewrite (hgetall_spec sha1 sha256); [by rewrite Hview| |done].
    rewrite Forall_forall in Hks. auto.
Qed.

(** C5.  The fetch loop cuts the nodes to get into batches of [n] nodes,
    the last one of what is left: [ceil(|todo| / n)] batches, the [i]-th
    of [min(n, |todo| - i * n)] nodes.  For each batch it makes one
    multi-get on the primary, over the nodes of the batch, and then one
    multi-set on each secondary on which a node of the batch is stale by the
    hashes read from that secondary, of exactly those nodes. *)
Theorem fetch_loop_batches primary secondaries name (n : Z) (fuel : nat)
    (backend_hashes : gmap string (gmap string string)) (todo : gset string)
    (w : World) :
  let primary_hashes := hashes_of sha256 primary name w in
  let texts := texts_of primary name w in
  known_backend primary → Forall known_backend secondaries →
  primary_ok sha1 sha256 false primary name w →
  (∀ s, s ∈ secondaries →
     secondary_ok sha1 s name w ∧ is_Some (backend_hashes !! s)) →
  (∀ s k v, s ∈ secondaries → texts !! k = Some v →
     stale primary_hashes backend_hashes s k = true →
     s ≠ primary ∧ accepts sha1 s name k v) →
  (∀ k, k ∈ todo → is_Some (primary_hashes !! k)) →
  1 ≤ n → (size todo ≤ fuel)%nat →
  ∃ w' batches,
    fetch_loop sha1 sha256 primary secondaries fuel name n
      (backend_of sha1 sha256 primary) primary_hashes backend_hashes todo w
    = (Ok tt, w')
    ∧ calls w' = calls w ++ fetch_calls primary secondaries name primary_hashes
                              backend_hashes texts batches
    ∧ concat batches ≡ₚ elements todo
    ∧ Z.of_nat (length batches) = (Z.of_nat (size todo) + n - 1) / n
    ∧ ∀ i b, batches !! i = Some b →
        Z.of_nat (length b) = Z.min n (Z.of_nat (size todo) - Z.of_nat i * n).
Proof.
  intros H T Hkp Hks Hpok Hss Hstale Htodo Hn Hfuel.
  assert (H = sha256 <$> T) as H_T by by apply (hashes_of_texts sha1 sha256 false).
  destruct (fetch_loop_spec sha1 sha256 primary secondaries name false H
              backend_hashes T Hkp Hks H_T) with (n := n) (fuel := fuel)
              (todo := todo) (w := w)
    as (w' & batches & Hrun & _ & _ & Hcalls & Hperm & Hcnt & Hlens & _).
  - intros s Hs. by destruct (Hss s Hs).
  - done.
  - done.
  - done.
  - intros k Hk. rewrite <- (fmap_is_Some sha256), <- lookup_fmap, <- H_T. auto.
  - split_and!; [done|done|]. intros s Hs. by destruct (Hss s Hs).
  - by exists w', batches.
Qed.

(** C9 (amended).  On the catch-all hashmap the file backend lists the
    [*.json] files of the working directory itself without their
    extension, the two reserved documents left out even when their files
    are there; [hgetall] has no entry for them, while [hget] and
    [hexists] find them.  A run of the synchronisation whose calls go
    through names neither of them in a call to the file backend, and with
    the file backend as the primary it names neither of them in a
    transfer.  The calls go through when the backends can hold the
    hashmap and, for a file backend that has to delete nodes, when the
    system removes their files ([prunable]). *)
Theorem reserved_documents_hidden (k : string) (w : World) :
  k ∈ ["ranked_hubs_authorities"; "all_feedstocks"] →
  let file := FileLazyJsonBackend sha1 sha256 in
  (∃ keys, hkeys file "lazy_json" w = (Ok keys, w)
     ∧ (∀ key, key ∈ keys ↔
          ∃ p, is_Some (fs w !! p) ∧ os_path.has_sep p = false
               ∧ matches_json p = true ∧ (p ∉ reserved_names)
               ∧ key = key_of p ∧ p = key +:+ ".json")
     ∧ k ∉ keys)
  ∧ (∀ hashval, ∃ m, hgetall file "lazy_json" hashval w = (Ok m, w) ∧ m !! k = None)
  ∧ (∀ s, fs w !! (k +:+ ".json") = Some s →
       hget file "lazy_json" k w = (Ok s, w)
       ∧ hexists file "lazy_json" k w = (Ok true, w))
  ∧ (∀ primary secondaries n fuel,
       known_backend primary → Forall known_backend secondaries →
       primary_ok sha1 sha256 (bool_decide ("mongodb" ∈ secondaries))
         primary "lazy_json" w →
       Forall (λ s, secondary_ok sha1 s "lazy_json" w) secondaries →
       ("file" ∈ secondaries →
          ∀ key, is_Some (hashes_of sha256 primary "lazy_json" w !! key) →
                 file_key sha1 "lazy_json" key = true) →
       ("file" ∈ secondaries →
          prunable sha1 sha256 "lazy_json" (hashes_of sha256 primary "lazy_json" w) w) →
       1 ≤ n → (size (dom (hashes_of sha256 primary "lazy_json" w)) ≤ fuel)%nat →
       ∃ w' new,
         _sync_hashmap sha1 sha256 primary secondaries fuel "lazy_json" n
           (backend_of sha1 sha256 primary) w = (Ok tt, w')
         ∧ calls w' = calls w ++ new
         ∧ (∀ c, c ∈ new → c.1 = "file" → k ∉ op_keys c.2)
         ∧ (primary = "file" →
              ∀ c, c ∈ new → is_transfer c.2 = true → k ∉ op_keys c.2)).
Proof.
  intros Hk file. destruct (file_key_reserved sha1 k Hk) as [Hpath Hfk].
  pose proof (tree_ok_lazy_json sha1 (fs w)) as Hok.
  split_and!.
  - exists (key_of <$> listing "lazy_json" (fs w)). cbn [file hkeys FileLazyJsonBackend].
    split_and!; [apply file_hkeys_eq| |].
    + intros key. rewrite list_elem_of_fmap. split.
      * intros (p & -> & [Hp Hl]%elem_of_listing). exists p.
        apply listable_lazy_json in Hl as (? & ? & ? & ? & ?). by split_and!.
      * intros (p & Hp & Hsep & Hm & Hr & -> & _). exists p. split; [done|].
        apply elem_of_listing. split; [done|]. unfold listable. cbn.
        by rewrite Hsep, Hm, bool_decide_eq_true_2.
    + intros (p & Hkey & [Hp Hl]%elem_of_listing)%list_elem_of_fmap.
      apply listable_lazy_json in Hl as (_ & _ & Hr & _ & Hjson).
      apply Hr. rewrite <- Hjson, <- Hkey.
      by apply elem_of_cons in Hk as [->|[->|[]%elem_of_nil]%elem_of_cons];
        [left|right; left].
  - intros hashval. eexists. cbn [file hgetall FileLazyJsonBackend].
    split; [by apply (file_hgetall_eq sha1)|].
    by rewrite (file_view_lookup sha1), Hfk.
  - intros s Hs. cbn [file hget hexists FileLazyJsonBackend].
    rewrite file_hget_eq, file_hexists_eq, Hpath, Hs. split; [done|].
    by rewrite bool_decide_eq_true_2.
  - intros primary secondaries n fuel Hkp Hks Hpok Hsok Hfile Hprune Hn Hfuel.
    destruct (sync_hashmap_spec sha1 sha256 primary secondaries "lazy_json" n fuel w)
      as (w' & todo & bh & tr & batches & Hrun & _ & _ & Hcalls & Htr & Hperm & Htodo);
      [done..|].
    set (H := hashes_of sha256 primary "lazy_json" w) in *.
    assert (primary = "file" ∨ "file" ∈ secondaries → H !! k = None) as HHk.
    { intros Hcase. apply eq_None_not_Some. intros HS.
      assert (file_key sha1 "lazy_json" k = true) as E; [|congruence].
      destruct Hcase as [->|Hin]; [|by apply Hfile].
      by destruct (file_view_file_key sha1 _ _ _ _ Hok HS). }
    assert (∀ c, c ∈ fetch_calls primary secondaries "lazy_json" H bh
                       (texts_of primary "lazy_json" w) batches →
                 k ∈ op_keys c.2 →
                 is_Some (H !! k) ∧ (c.1 = primary ∨ c.1 ∈ secondaries)) as Hfetch.
    { intros c Hc Hin. destruct (fetch_calls_keys _ _ _ _ _ _ _ _ _ Hc Hin) as [Hb ?].
      split; [|done]. apply Htodo. apply elem_of_elements. by rewrite <- Hperm. }
    eexists w', _. split_and!; [done|exact Hcalls| |].
    + intros c Hc Hfile' Hin.
      apply elem_of_cons in Hc as [->|[Hc|Hc]%elem_of_app]; [by apply elem_of_nil in Hin| |].
      * rewrite Forall_forall in Htr. destruct (Htr c Hc) as [_ [Hop|(keys & Hop & Hkeys)]];
          rewrite Hop in Hin; cbn in Hin; [by apply elem_of_nil in Hin|].
        rewrite Forall_forall in Hkeys. destruct (Hkeys k Hin) as [_ E].
        rewrite E in Hfk by done. done.
      * destruct (Hfetch c Hc Hin) as [[h Hh] Hwho].
        rewrite HHk in Hh; [done|]. rewrite Hfile' in Hwho.
        destruct Hwho as [<-|?]; auto.
    + intros -> c Hc Htrans Hin.
      apply elem_of_cons in Hc as [->|[Hc|Hc]%elem_of_app]; [done| |].
      * rewrite Forall_forall in Htr. destruct (Htr c Hc) as [_ [Hop|(keys & Hop & _)]];
          by rewrite Hop in Htrans.
      * destruct (Hfetch c Hc Hin) as [[h Hh] _]. rewrite HHk in Hh; [done|by left].
Qed.

End sync_claims.

(** ** Checking a tree and a collection entry by entry *)

Lemma tree_ok_check sha1 name (files : gmap string string) :
  map_Forall (λ p _, listable name p = true → sharded_file sha1 name (key_of p) = p) files →
  tree_ok sha1 name files.
Proof. intros Hall p [s Hs] Hl. by apply (Hall p s). Qed.

Lemma tree_json_check name (files : gmap string string) :
  map_Forall (λ p s, listable name p = true → is_ok (rapidjson.loads s) = true) files →
  tree_json name files.
Proof. intros Hall p s Hs Hl. by apply (Hall p s). Qed.

Lemma db_ok_check sha256 name w :
  map_Forall (λ _ d, match dumps (doc_value d) with
                     | Ok s => Some (sha256 s)
                     | Raise _ => None
                     end = Some (doc_sha256 d)) (collection name w) →
  db_ok sha256 name w.
Proof.
  intros Hall k d Hd. specialize (Hall k d Hd). cbn in Hall.
  destruct (dumps (doc_value d)) as [s|]; [|done]. exists s. split; [done|congruence].
Qed.

(** ** A batch size of zero or less *)

Section no_progress.

Variable sha1 : string → N.
Variable sha256 : string → string.

Lemma hmget_nil b name w :
  known_backend b → secondary_ok sha1 b name w →
  hmget (backend_of sha1 sha256 b) name [] w = (Ok [], w).
Proof.
  intros [->| ->] Hok; cbn in *; [done|].
  unfold mongo_hmget. unfold bind at 1. rewrite assert_hashmap_eq, Hok.
  unfold _get_collection. rewrite bind_gets.
  assert (∀ l : list (string * mongo_doc), filter (λ d, d.1 ∈ []) l = []) as ->; [|done].
  induction l as [|d l IH]; [done|].
  rewrite filter_cons_False; [done|]. by intros ?%elem_of_nil.
Qed.

Lemma push_loop_empty name H bh ss w :
  (∀ s, s ∈ ss → is_Some (bh !! s)) →
  for_each (push_batch sha1 sha256 name H bh ∅) ss w = (Ok tt, w).
Proof.
  induction ss as [|s ss IH]; intros Hbh; [done|].
  cbn [for_each]. erewrite bind_ok; [apply IH; intros; apply Hbh; by right|].
  destruct (Hbh s) as [hs Hhs]; [by left|].
  unfold push_batch. rewrite Hhs. unfold bind, lift.
  by rewrite map_filter_empty, bool_decide_eq_true_2.
Qed.

(** X14.  With a batch size of zero or less each round of the fetch
    loop pops nothing, asks the primary for no node and writes nothing:
    the set of nodes to get stays as it is and the loop never ends,
    however many rounds it is given. *)
Theorem fetch_loop_no_progress p ss name n H bh (todo : gset string) :
  n ≤ 0 → todo ≠ ∅ → known_backend p →
  (∀ s, s ∈ ss → is_Some (bh !! s)) →
  ∀ fuel w, secondary_ok sha1 p name w →
    ∃ w', fetch_loop sha1 sha256 p ss fuel name n (backend_of sha1 sha256 p)
            H bh todo w = (Raise OutOfFuel, w')
          ∧ calls w' = calls w ++ replicate fuel (p, OpHmget name []).
Proof.
  intros Hn Hne Hkp Hbh. induction fuel as [|fuel IH]; intros w Hok.
  - exists w. cbn [fetch_loop]. rewrite bool_decide_eq_false_2 by done.
    by rewrite app_nil_r.
  - destruct (IH (add_call (p, OpHmget name []) w)) as (w' & Hrun & Hcalls).
    { eapply same_part_secondary_ok; [apply same_part_add_call|done]. }
    exists w'. split.
    + cbn [fetch_loop]. rewrite bool_decide_eq_false_2 by done.
      replace (Z.to_nat (Z.min (Z.of_nat (size todo)) n)) with 0%nat by lia.
      cbn [pop_n]. unfold lift at 1. unfold bind at 1. cbn [fst snd].
      erewrite bind_ok.
      2:{ unfold bind at 1, modify at 1. apply hmget_nil; [done|].
          eapply same_part_secondary_ok; [apply same_part_add_call|done]. }
      cbn [zip zip_with reverse list_to_map foldr]. rewrite reverse_nil.
      cbn [list_to_map foldr].
      erewrite bind_ok; [|by apply push_loop_empty]. exact Hrun.
    + rewrite Hcalls. cbn [calls add_call replicate]. by rewrite <- app_assoc.
Qed.

End no_progress.

(** * Further properties of the backends *)

Lemma map_each_raise_kind {S A B} (P : exn → Prop) (f : A → ST S B) l s :
  (∀ x, x ∈ l → (f x s).2 = s ∧ ∀ e, (f x s).1 = Raise e → P e) →
  (∃ x, x ∈ l ∧ is_ok (f x s).1 = false) →
  ∃ e, P e ∧ map_each f l s = (Raise e, s).
Proof.
  induction l as [|x l IH]; intros Hpure (y & Hy & Hbad); [by apply elem_of_nil in Hy|].
  cbn [map_each]. destruct (Hpure x (list_elem_of_here _ _)) as [Hx HP].
  destruct (f x s) as [[b|e] s'] eqn:Hfx; cbn in Hx; subst s'.
  - erewrite bind_ok; [|exact Hfx].
    destruct IH as (e & He & Hrun).
    { intros z Hz. apply Hpure. by right. }
    { apply elem_of_cons in Hy as [->|Hy]; [by rewrite Hfx in Hbad|eauto]. }
    exists e. split; [done|]. by erewrite bind_raise; [|exact Hrun].
  - exists e. split; [by apply HP|]. by erewrite bind_raise; [|exact Hfx].
Qed.

Lemma map_each_pure_raise {S A B} (f : A → ST S B) l s :
  (∀ x, x ∈ l → (f x s).2 = s) →
  (∃ x, x ∈ l ∧ is_ok (f x s).1 = false) →
  ∃ e, map_each f l s = (Raise e, s).
Proof.
  intros Hpure Hbad.
  destruct (map_each_raise_kind (λ _, True) f l s) as (e & _ & He); [|done|by exists e].
  intros x Hx. split; [by apply Hpure|done].
Qed.

Lemma map_each_app_raise {S A B} (f : A → ST S B) pre x post s e :
  Forall (λ y, ∃ b, f y s = (Ok b, s)) pre → f x s = (Raise e, s) →
  map_each f (pre ++ x :: post) s = (Raise e, s).
Proof.
  induction 1 as [|y pre [b Hy] _ IH]; intros Hx; cbn [app map_each].
  - by erewrite bind_raise; [|exact Hx].
  - erewrite bind_ok; [|exact Hy]. by erewrite bind_raise; [|apply IH].
Qed.

(** What [hmget] of the database reads before it answers: the texts of the
    documents whose node is asked for. *)
Lemma mongo_odata sha256 name (keys : list string) w :
  db_ok sha256 name w →
  ∃ odata : list (string * string),
    map_each (λ d : string * mongo_doc,
                let* s := lift (dumps (doc_value d.2)) in ret (d.1, s))
      (filter (λ d, d.1 ∈ keys) (map_to_list (collection name w))) w = (Ok odata, w)
    ∧ NoDup odata.*1
    ∧ ∀ k, k ∈ odata.*1 ↔ k ∈ keys ∧ is_Some (collection name w !! k).
Proof.
  intros Hdb.
  set (docs := filter (λ d : string * mongo_doc, d.1 ∈ keys)
                 (map_to_list (collection name w))).
  edestruct (map_each_Forall2 (S := World)
               (λ d : string * mongo_doc,
                  let* s := lift (dumps (doc_value d.2)) in ret (d.1, s))
               (λ d r, r.1 = d.1) docs w) as (odata & Hodata & HR).
  { apply Forall_forall. intros [k d] [_ Hkd%elem_of_map_to_list]%list_elem_of_filter.
    destruct (Hdb _ _ Hkd) as (s & Hs & _). cbn [fst snd]. unfold bind, lift, ret.
    rewrite Hs. by eexists. }
  assert (odata.*1 = docs.*1) as Hfst.
  { clear Hodata. induction HR as [|?? ?? Hk _ IH]; [done|]. cbn. by rewrite Hk, IH. }
  exists odata. split_and!; [done| |].
  - rewrite Hfst. unfold docs. apply NoDup_fmap_fst.
    + intros k d1 d2 [_ H1%elem_of_map_to_list]%list_elem_of_filter
        [_ H2%elem_of_map_to_list]%list_elem_of_filter. congruence.
    + apply NoDup_filter, NoDup_map_to_list.
  - intros k. rewrite Hfst. unfold docs. rewrite list_elem_of_fmap. split.
    + intros ([k' d] & -> & [Hk Hd%elem_of_map_to_list]%list_elem_of_filter).
      split; [done|by eexists].
    + intros [Hk [d Hd]]. exists (k, d). split; [done|].
      apply list_elem_of_filter. split; [done|by apply elem_of_map_to_list].
Qed.

(** What [hgetall] of the database reads when it is asked for the texts. *)
Lemma mongo_texts sha256 name w :
  db_ok sha256 name w →
  ∃ items : list (string * string),
    map_each (λ d : string * mongo_doc,
                let* s := lift (dumps (doc_value d.2)) in ret (d.1, s))
      (map_to_list (collection name w)) w = (Ok items, w)
    ∧ (list_to_map items : gmap string string) = texts_of "mongodb" name w.
Proof.
  intros Hdb.
  edestruct (map_each_Forall2 (S := World)
               (λ d : string * mongo_doc,
                  let* s := lift (dumps (doc_value d.2)) in ret (d.1, s))
               (λ d r, r.1 = d.1 ∧ dumps (doc_value d.2) = Ok r.2)
               (map_to_list (collection name w)) w) as (items & Hitems & HR).
  { apply Forall_forall. intros [k d] Hkd%elem_of_map_to_list.
    destruct (Hdb _ _ Hkd) as (s & Hs & _). cbn [fst snd]. unfold bind, lift, ret.
    rewrite Hs. by eexists. }
  assert (items.*1 = (map_to_list (collection name w)).*1) as Hfst.
  { clear Hitems. induction HR as [|?? ?? [Hk _] _ IH]; [done|]. cbn. by rewrite Hk, IH. }
  assert (NoDup items.*1) as Hnd by (rewrite Hfst; apply NoDup_fst_map_to_list).
  exists items. split; [done|]. apply map_eq. intros k. unfold texts_of. cbn.
  rewrite lookup_omap. destruct (collection name w !! k) as [d|] eqn:Hd; cbn.
  - apply elem_of_map_to_list in Hd.
    destruct (proj1 (list_elem_of_lookup _ _) Hd) as [i Hi].
    destruct (Forall2_lookup_l _ _ _ _ _ HR Hi) as ([k' s] & Hr & Hrk & Hrs).
    cbn in Hrk, Hrs. subst k'. rewrite Hrs.
    apply elem_of_list_to_map; [done|]. by apply list_elem_of_lookup_2 in Hr.
  - apply not_elem_of_list_to_map. rewrite Hfst.
    intros ([k' d] & -> & Hin%elem_of_map_to_list)%list_elem_of_fmap.
    cbn in Hd. congruence.
Qed.

Section backend_laws.

Variable sha1 : string → N.
Variable sha256 : string → string.

(** X1.  What [hset] of the file backend writes, [hget] reads back and
    [hexists] finds, whatever was there before; the database and the
    record of calls are untouched, and so is every node whose file is
    another file. *)
Theorem file_hset_then_hget (name key value : string) (w : World) :
  let file := FileLazyJsonBackend sha1 sha256 in
  ∃ w', hset file name key value w = (Ok tt, w')
    ∧ hget file name key w' = (Ok value, w')
    ∧ hexists file name key w' = (Ok true, w')
    ∧ cf_graph w' = cf_graph w ∧ calls w' = calls w
    ∧ ∀ name' key',
        sharded_file sha1 name' key' ≠ sharded_file sha1 name key →
        (hget file name' key' w').1 = (hget file name' key' w).1
        ∧ (hexists file name' key' w').1 = (hexists file name' key' w).1.
Proof.
  intros file. eexists. cbn [file hset hget hexists FileLazyJsonBackend].
  split; [apply file_hset_eq|].
  rewrite file_hget_eq, file_hexists_eq. cbn [fs set_fs cf_graph calls].
  rewrite lookup_insert_eq. split_and!; [done| |done|done|].
  - by rewrite bool_decide_eq_true_2 by by eexists.
  - intros name' key' Hne. rewrite !file_hget_eq, !file_hexists_eq.
    cbn [fs set_fs]. rewrite lookup_insert_ne by done.
    split; [|done]. by destruct (fs w !! sharded_file sha1 name' key').
Qed.

(** X2.  On the file backend [hget] returns exactly when [hexists] says
    yes: the file at the sharded path of the node is read; when there is
    none, [hexists] is [False] and [hget] raises [FileNotFoundError] for
    that path.  Neither changes anything. *)
Theorem file_hget_iff_hexists (name key : string) (w : World) :
  let file := FileLazyJsonBackend sha1 sha256 in
  ∃ path, get_sharded_path sha1 (node_file name key) = Ok path ∧
    match fs w !! path with
    | Some data_str =>
        hexists file name key w = (Ok true, w) ∧ hget file name key w = (Ok data_str, w)
    | None =>
        hexists file name key w = (Ok false, w)
        ∧ hget file name key w = (Raise (FileNotFoundError path), w)
    end.
Proof.
  intros file. exists (sharded_file sha1 name key).
  split; [apply get_sharded_path_sharded_file|].
  cbn [file hget hexists FileLazyJsonBackend]. rewrite file_hget_eq, file_hexists_eq.
  destruct (fs w !! sharded_file sha1 name key) as [s|] eqn:Hs.
  - by rewrite bool_decide_eq_true_2 by by eexists.
  - by rewrite bool_decide_eq_false_2 by by intros [? ?].
Qed.

(** X3.  The database keeps the parsed value and the hash of the text it
    was given: after [hset], [hget] returns the value written again by
    [dumps], which need not be the text that came in, while
    [hgetall(hashval=True)] gives the hash of the text that came in.
    The files, the record of calls and every other document stay as they
    are. *)
Theorem mongo_hset_then_hget (name key value text : string) (doc : pyval) (w : World) :
  valid_hashmap name = true →
  rapidjson.loads value = Ok doc → dumps doc = Ok text →
  let mongo := MongoDBLazyJsonBackend sha256 in
  ∃ w', hset mongo name key value w = (Ok tt, w')
    ∧ hget mongo name key w' = (Ok text, w')
    ∧ hexists mongo name key w' = (Ok true, w')
    ∧ (∃ hashes, hgetall mongo name true w' = (Ok hashes, w')
                 ∧ hashes !! key = Some (sha256 value))
    ∧ fs w' = fs w ∧ calls w' = calls w
    ∧ ∀ name' key', (name', key') ≠ (name, key) →
        collection name' w' !! key' = collection name' w !! key'.
Proof.
  intros Hv Hdoc Htext mongo. eexists.
  cbn [mongo hset hget hexists hgetall MongoDBLazyJsonBackend].
  split; [by rewrite mongo_hset_eq, Hv, Hdoc|].
  rewrite mongo_hget_eq, mongo_hexists_eq, Hv, collection_upsert, lookup_insert_eq.
  cbn [doc_value]. split_and!; [by rewrite Htext| | |done|done|].
  - by rewrite bool_decide_eq_true_2 by by eexists.
  - eexists. split; [by apply mongo_hgetall_eq|].
    by rewrite lookup_fmap, collection_upsert, lookup_insert_eq.
  - intros name' key' Hne. destruct (decide (name = name')) as [<-|Hn].
    + rewrite collection_upsert, lookup_insert_ne; [done|congruence].
    + by rewrite collection_upsert_ne.
Qed.

(** X4.  Every operation of the database backend starts with the
    assertion on the hashmap: a name that is neither one of
    [CF_TICK_GRAPH_DATA_HASHMAPS] nor ["lazy_json"] raises
    [AssertionError] and nothing is read or written. *)
Theorem mongo_rejects_unknown_hashmap (name key value : string)
    (mapping : gmap string string) (keys : list string) (hashval : bool) (w : World) :
  valid_hashmap name = false →
  let mongo := MongoDBLazyJsonBackend sha256 in
  hexists mongo name key w = (Raise AssertionError, w)
  ∧ hset mongo name key value w = (Raise AssertionError, w)
  ∧ hmset mongo name mapping w = (Raise AssertionError, w)
  ∧ hmget mongo name keys w = (Raise AssertionError, w)
  ∧ hdel mongo name keys w = (Raise AssertionError, w)
  ∧ hkeys mongo name w = (Raise AssertionError, w)
  ∧ hget mongo name key w = (Raise AssertionError, w)
  ∧ hgetall mongo name hashval w = (Raise AssertionError, w).
Proof.
  intros Hv mongo.
  assert (∀ A (k : unit → M A), bind (assert_hashmap name) k w = (Raise AssertionError, w))
    as Hguard.
  { intros A k. apply bind_raise. by rewrite assert_hashmap_eq, Hv. }
  cbn [mongo hexists hset hmset hmget hdel hkeys hget hgetall MongoDBLazyJsonBackend].
  split_and!; apply Hguard.
Qed.

(** X5.  The database backend parses every value before it writes the
    first one: [hset] of a text that is no JSON, and [hmset] of a mapping
    in which one value is no JSON, raise and leave the collection as it
    was, the good values of the mapping included. *)
Theorem mongo_hmset_validates_first (name : string) (mapping : gmap string string)
    (w : World) :
  valid_hashmap name = true →
  (∃ k v, mapping !! k = Some v ∧ is_ok (rapidjson.loads v) = false) →
  let mongo := MongoDBLazyJsonBackend sha256 in
  (∃ e, hmset mongo name mapping w = (Raise e, w))
  ∧ ∀ k v, mapping !! k = Some v → is_ok (rapidjson.loads v) = false →
      ∃ e, hset mongo name k v w = (Raise e, w).
Proof.
  intros Hv (k & v & Hkv & Hbad) mongo.
  cbn [mongo hset hmset MongoDBLazyJsonBackend]. split.
  - unfold mongo_hmset. unfold bind at 1. rewrite assert_hashmap_eq, Hv.
    edestruct (map_each_pure_raise (S := World)
                 (λ kv : string * string,
                    let* v := lift (rapidjson.loads kv.2) in
                    ret (kv.1, MongoDoc v (sha256 kv.2)))
                 (map_to_list mapping) w) as [e He].
    + intros [k' v'] _. cbn. unfold bind, lift, ret.
      by destruct (rapidjson.loads v').
    + exists (k, v). split; [by apply elem_of_map_to_list|].
      cbn. unfold bind, lift, ret. by destruct (rapidjson.loads v).
    + exists e. by erewrite bind_raise; [|exact He].
  - intros k' v' _ Hbad'. rewrite mongo_hset_eq, Hv.
    destruct (rapidjson.loads v') as [|e]; [done|]. by exists e.
Qed.

(** X6.  A node that the collection does not hold: [hexists] is [False],
    [hget] fails its assertion, [hmget] raises [KeyError] for the first
    such node it is asked for, and [hdel] of it is no error and changes
    no document. *)
Theorem mongo_missing_key (name key : string) (pre post : list string) (w : World) :
  valid_hashmap name = true → db_ok sha256 name w →
  collection name w !! key = None →
  Forall (λ k, is_Some (collection name w !! k)) pre →
  let mongo := MongoDBLazyJsonBackend sha256 in
  hexists mongo name key w = (Ok false, w)
  ∧ hget mongo name key w = (Raise AssertionError, w)
  ∧ hmget mongo name (pre ++ key :: post) w = (Raise (KeyError key), w)
  ∧ ∃ w', hdel mongo name [key] w = (Ok tt, w')
          ∧ collection name w' = collection name w ∧ fs w' = fs w.
Proof.
  intros Hv Hdb Hkey Hpre mongo.
  cbn [mongo hexists hget hmget hdel MongoDBLazyJsonBackend]. split_and!.
  - rewrite mongo_hexists_eq, Hv, Hkey.
    by rewrite bool_decide_eq_false_2 by by intros [? ?].
  - by rewrite mongo_hget_eq, Hv, Hkey.
  - unfold mongo_hmget. unfold bind at 1. rewrite assert_hashmap_eq, Hv.
    unfold _get_collection. rewrite bind_gets. fold (collection name w).
    destruct (mongo_odata sha256 name (pre ++ key :: post) w Hdb)
      as (odata & Hodata & Hnd & Hin).
    erewrite bind_ok; [|exact Hodata].
    apply map_each_app_raise.
    + rewrite Forall_forall in Hpre. apply Forall_forall. intros k Hk.
      assert (k ∈ odata.*1) as Hk'.
      { apply Hin. split; [apply elem_of_app; by left|by apply Hpre]. }
      apply list_elem_of_fmap in Hk' as ([k' s] & -> & Hks).
      exists s. unfold lift. f_equal. by apply dict_get_elem.
    + unfold lift. f_equal. apply dict_get_absent. unfold dict_mem.
      apply bool_decide_eq_false_2. intros [_ [d Hd]]%Hin. congruence.
  - destruct (mongo_hdel_spec name [key] w Hv) as (w' & Hrun & Hfs & _ & Hcoll).
    exists w'. split_and!; [done| |done]. apply map_eq. intros k. rewrite Hcoll.
    case_bool_decide as Hk; [|done].
    apply list_elem_of_singleton in Hk. by subst.
Qed.

(** X7.  The three listings of a collection agree: [hkeys] gives each
    node once, and those are the nodes that [hexists] finds;
    [hgetall] gives for each of them the text that [hget] returns, or,
    asked for hashes, the stored hash, which is the hash of that text
    when the collection was written with the texts that it returns. *)
Theorem mongo_listing_agrees (name : string) (w : World) :
  valid_hashmap name = true → db_ok sha256 name w →
  let mongo := MongoDBLazyJsonBackend sha256 in
  ∃ keys texts hashes,
    hkeys mongo name w = (Ok keys, w)
    ∧ hgetall mongo name false w = (Ok texts, w)
    ∧ hgetall mongo name true w = (Ok hashes, w)
    ∧ NoDup keys
    ∧ ∀ k, (k ∈ keys ↔ hexists mongo name k w = (Ok true, w))
         ∧ (∀ s, texts !! k = Some s ↔ hget mongo name k w = (Ok s, w))
         ∧ (∀ s, texts !! k = Some s → hashes !! k = Some (sha256 s))
         ∧ (k ∈ keys ↔ is_Some (texts !! k)).
Proof.
  intros Hv Hdb mongo. destruct (mongo_texts sha256 name w Hdb) as (items & Hitems & Hmap).
  exists (map_to_list (collection name w)).*1, (texts_of "mongodb" name w),
    (doc_sha256 <$> collection name w).
  cbn [mongo hkeys hgetall hexists hget MongoDBLazyJsonBackend].
  assert (∀ k, texts_of "mongodb" name w !! k =
               collection name w !! k ≫= λ d,
                 match dumps (doc_value d) with Ok s => Some s | Raise _ => None end)
    as Htexts by (intros k; unfold texts_of; cbn; apply lookup_omap).
  split_and!.
  - unfold mongo_hkeys, _get_collection. unfold bind at 1.
    by rewrite assert_hashmap_eq, Hv.
  - unfold mongo_hgetall, _get_collection. unfold bind at 1.
    rewrite assert_hashmap_eq, Hv, bind_gets. fold (collection name w).
    erewrite bind_ok; [|exact Hitems]. by rewrite <- Hmap.
  - by apply mongo_hgetall_eq.
  - apply NoDup_fst_map_to_list.
  - intros k. rewrite mongo_hexists_eq, mongo_hget_eq, Hv, Htexts, lookup_fmap.
    rewrite list_elem_of_fmap.
    destruct (collection name w !! k) as [d|] eqn:Hd; cbn.
    + destruct (Hdb _ _ Hd) as (s & Hs & Hsha). rewrite Hs. split_and!.
      * split; [done|].
        intros _. exists (k, d). split; [done|]. by apply elem_of_map_to_list.
      * intros s'. split; [by intros [= <-]|]. by intros [= <-].
      * intros s' [= <-]. by rewrite Hsha.
      * split; [by eexists|]. intros _. exists (k, d).
        split; [done|]. by apply elem_of_map_to_list.
    + split_and!.
      * split; [|done].
        intros ([k' d] & -> & Hin%elem_of_map_to_list). cbn in Hd. congruence.
      * intros s. split; [done|]. by intros [=].
      * done.
      * split; [|by intros [? ?]].
        intros ([k' d] & -> & Hin%elem_of_map_to_list). cbn in Hd. congruence.
Qed.

(** X8.  On a tree whose files stand at their sharded paths the listings
    of the file backend agree: [hkeys] gives each node once, each of them
    exists, and [hgetall] has exactly those nodes, each with the text that
    [hget] returns or, asked for hashes, with the hash of that text. *)
Theorem file_listing_agrees (name : string) (hashval : bool) (w : World) :
  tree_ok sha1 name (fs w) →
  let file := FileLazyJsonBackend sha1 sha256 in
  ∃ keys m,
    hkeys file name w = (Ok keys, w)
    ∧ hgetall file name hashval w = (Ok m, w)
    ∧ NoDup keys
    ∧ ∀ k, (k ∈ keys ↔ is_Some (m !! k))
         ∧ (k ∈ keys → hexists file name k w = (Ok true, w))
         ∧ ∀ s, m !! k = Some s ↔
                k ∈ keys ∧ ∃ t, hget file name k w = (Ok t, w)
                                ∧ s = if hashval then sha256 t else t.
Proof.
  intros Hok file. set (f := λ s : string, if hashval then sha256 s else s).
  exists (key_of <$> listing name (fs w)), (file_view f name (fs w)).
  cbn [file hkeys hgetall hexists hget FileLazyJsonBackend].
  assert (∀ k, k ∈ key_of <$> listing name (fs w) ↔
               file_key sha1 name k = true
               ∧ is_Some (fs w !! sharded_file sha1 name k)) as Hkeys.
  { intros k. rewrite list_elem_of_fmap. split.
    - intros (p & -> & Hp). destruct (listed_file_key sha1 _ _ _ Hok Hp) as [Hfk Hs].
      rewrite Hs. split; [done|]. by apply elem_of_listing in Hp as [? _].
    - intros [Hfk Hs]. exists (sharded_file sha1 name k).
      apply file_key_spec in Hfk as [Hl Hk]. split; [done|].
      by apply elem_of_listing. }
  split_and!; [apply file_hkeys_eq|by apply (file_hgetall_eq sha1)
              |by apply (NoDup_listing_keys sha1)|].
  intros k. rewrite Hkeys, (file_view_lookup sha1), file_hexists_eq by done.
  destruct (file_key sha1 name k) eqn:Hfk.
  - rewrite fmap_is_Some. split_and!; [naive_solver| |].
    + intros [_ Hs]. by rewrite bool_decide_eq_true_2.
    + intros s. rewrite Hkeys, Hfk, file_hget_eq.
      destruct (fs w !! sharded_file sha1 name k) as [t|]; cbn.
      * split; [intros [= <-]; split; [by split; [|eexists]|by exists t]|].
        by intros (_ & t' & [= <-] & ->).
      * split; [done|]. by intros ([_ [? ?]] & _).
  - split_and!; [|by intros [? _]|].
    + split; [by intros [? _]|by intros [? ?]].
    + intros s. rewrite Hkeys, Hfk. split; [done|]. by intros ([? _] & _).
Qed.

(** X9.  [hgetall] of the file backend reads each listed node at its
    sharded path: a [*.json] file that lies below the hashmap at another
    place, with no file at the sharded path of its name, is listed by
    [hkeys] and makes [hgetall] raise [FileNotFoundError]. *)
Theorem file_hgetall_stray_file (name p : string) (hashval : bool) (w : World) :
  is_Some (fs w !! p) → listable name p = true →
  fs w !! sharded_file sha1 name (key_of p) = None →
  let file := FileLazyJsonBackend sha1 sha256 in
  (∃ keys, hkeys file name w = (Ok keys, w) ∧ key_of p ∈ keys)
  ∧ ∃ path, hgetall file name hashval w = (Raise (FileNotFoundError path), w).
Proof.
  intros Hp Hl Hnone file. cbn [file hkeys hgetall FileLazyJsonBackend].
  assert (key_of p ∈ key_of <$> listing name (fs w)) as Hin.
  { apply list_elem_of_fmap_2. by apply elem_of_listing. }
  split; [eexists; split; [apply file_hkeys_eq|done]|].
  unfold file_hgetall. erewrite bind_ok; [|apply file_hkeys_eq].
  edestruct (map_each_raise_kind (S := World)
               (λ e, ∃ path, e = FileNotFoundError path)
               (λ key, let* data_str := file_hget sha1 name key in
                       ret (key, if hashval then sha256 data_str else data_str))
               (key_of <$> listing name (fs w)) w) as (e & [path ->] & Hrun).
  - intros k _. unfold bind. rewrite file_hget_eq.
    destruct (fs w !! sharded_file sha1 name k); cbn; [done|].
    split; [done|]. intros e [= <-]. by eexists.
  - exists (key_of p). split; [done|]. unfold bind. by rewrite file_hget_eq, Hnone.
  - exists path. by erewrite bind_raise; [|exact Hrun].
Qed.

End backend_laws.

(** * Further properties of the layout of the files *)

Lemma append_inv_tail (a b t : string) : a +:+ t = b +:+ t → a = b.
Proof.
  revert b. induction a as [|c a IH]; intros [|d b] E.
  - done.
  - apply (f_equal String.length) in E. rewrite append_nil_l, append_cons in E.
    cbn [String.length] in E. rewrite append_length in E. lia.
  - apply (f_equal String.length) in E. rewrite append_nil_l, append_cons in E.
    cbn [String.length] in E. rewrite append_length in E. lia.
  - rewrite !append_cons in E. injection E as -> E. f_equal. by apply IH.
Qed.

Lemma append_sep_inj (a b r r' : string) :
  os_path.has_sep a = false → os_path.has_sep b = false →
  a +:+ String "/" r = b +:+ String "/" r' → a = b ∧ r = r'.
Proof.
  revert b. induction a as [|c a IH]; intros [|d b] Ha Hb E.
  - rewrite !append_nil_l in E. by injection E as ->.
  - rewrite append_nil_l, append_cons in E. injection E as <- _.
    cbn in Hb. done.
  - rewrite append_nil_l, append_cons in E. injection E as -> _.
    cbn in Ha. done.
  - rewrite !append_cons in E. injection E as -> E.
    cbn in Ha, Hb. apply orb_false_iff in Ha as [_ Ha], Hb as [_ Hb].
    destruct (IH b Ha Hb E) as [-> ->]. done.
Qed.

Lemma has_sep_endswith_sep s : os_path.has_sep s = false → os_path.endswith_sep s = false.
Proof.
  induction s as [|c s IH]; [done|]. cbn. intros [Hc Hs]%orb_false_iff.
  destruct s; [done|]. by apply IH.
Qed.

Lemma slashed_shards h0 h1 h2 h3 h4 f :
  slashed [str1 h0; str1 h1; str1 h2; str1 h3; str1 h4; f] =
  String "/" (String h0 (String "/" (String h1 (String "/"
    (String h2 (String "/" (String h3 (String "/" (String h4 (String "/" f)))))))))).
Proof. cbn [slashed]. rewrite append_nil_r. reflexivity. Qed.

(** X10.  Two nodes never share a file: for hashmap names and keys that
    hold no separator, the sharded path tells the hashmap and the key, so
    writing one node cannot overwrite another. *)
Theorem sharded_paths_distinct (sha1 : string → N) (name1 key1 name2 key2 : string) :
  os_path.has_sep name1 = false → os_path.has_sep name2 = false →
  name1 ≠ "" → name2 ≠ "" →
  os_path.has_sep key1 = false → os_path.has_sep key2 = false →
  get_sharded_path sha1 (node_file name1 key1)
  = get_sharded_path sha1 (node_file name2 key2) →
  name1 = name2 ∧ key1 = key2.
Proof.
  intros Hn1 Hn2 He1 He2 Hk1 Hk2.
  assert (∀ name key, os_path.has_sep name = false → name ≠ "" →
            os_path.has_sep key = false → name ≠ "lazy_json" →
            ∃ h0 h1 h2 h3 h4,
              get_sharded_path sha1 (node_file name key) =
                Ok (name +:+ String "/" (String h0 (String "/" (String h1 (String "/"
                      (String h2 (String "/" (String h3 (String "/" (String h4
                         (String "/" (key +:+ ".json"))))))))))))) as Hshard.
  { intros name key Hn He Hk Hl.
    destruct (hexdigest_first5 40 (sha1 (key +:+ ".json")))
      as (h0 & h1 & h2 & h3 & h4 & Hhx & Hhex); [lia|].
    exists h0, h1, h2, h3, h4.
    rewrite (get_sharded_path_sharded sha1 name key h0 h1 h2 h3 h4);
      [|done|by apply has_sep_endswith_sep|done|done|done].
    rewrite slashed_shards. done. }
  destruct (decide (name1 = "lazy_json")) as [->|Hl1];
    destruct (decide (name2 = "lazy_json")) as [->|Hl2].
  - rewrite !get_sharded_path_catch_all by done. intros [= E].
    split; [done|]. by apply (append_inv_tail _ _ ".json").
  - rewrite get_sharded_path_catch_all by done.
    destruct (Hshard name2 key2) as (h0 & h1 & h2 & h3 & h4 & ->); [done..|].
    intros [= E]. apply (f_equal os_path.has_sep) in E.
    rewrite has_sep_json, os_path_facts.has_sep_app in E by done.
    cbn in E. by rewrite orb_true_r in E.
  - rewrite (get_sharded_path_catch_all sha1 key2) by done.
    destruct (Hshard name1 key1) as (h0 & h1 & h2 & h3 & h4 & ->); [done..|].
    intros [= E]. apply (f_equal os_path.has_sep) in E.
    rewrite has_sep_json, os_path_facts.has_sep_app in E by done.
    cbn in E. by rewrite orb_true_r in E.
  - destruct (Hshard name1 key1) as (a0 & a1 & a2 & a3 & a4 & ->); [done..|].
    destruct (Hshard name2 key2) as (b0 & b1 & b2 & b3 & b4 & ->); [done..|].
    intros [= E]. apply append_sep_inj in E as [-> E]; [|done..].
    injection E as _ _ _ _ _ E. split; [done|]. by apply (append_inv_tail _ _ ".json").
Qed.

(** * Further properties of [LazyJson] *)

Lemma str_take_app s t : str_take (String.length s) (s +:+ t) = s.
Proof.
  induction s as [|c s IH]; [by destruct t|].
  rewrite append_cons. cbn [String.length str_take]. by rewrite IH.
Qed.

Lemma str_drop_end_app s t : str_drop_end (String.length t) (s +:+ t) = s.
Proof.
  unfold str_drop_end. rewrite append_length.
  replace (String.length s + String.length t - String.length t)%nat
    with (String.length s) by lia.
  apply str_take_app.
Qed.

Lemma empty_document_eq : empty_document = Ok "{}".
Proof. reflexivity. Qed.

Lemma bind_self_get {LJ W A B} (f : LJ → A) (k : A → ST (LJ * W) B) self w :
  bind (gets (λ s : LJ * W, f s.1)) k (self, w) = k (f self) (self, w).
Proof. reflexivity. Qed.

Lemma bind_self_set {LJ W B} (f : LJ → LJ) (k : unit → ST (LJ * W) B) self w :
  bind (modify (λ s : LJ * W, (f s.1, s.2))) k (self, w) = k tt (f self, w).
Proof. reflexivity. Qed.

Lemma bind_world_ok {A B} (m : M A) (k : A → Method B) self w a w' :
  m w = (Ok a, w') → bind (world m) k (self, w) = k a (self, w').
Proof. intros H. unfold bind, world. cbn [fst snd]. by rewrite H. Qed.

Lemma bind_world_raise {A B} (m : M A) (k : A → Method B) self w e w' :
  m w = (Raise e, w') → bind (world m) k (self, w) = (Raise e, (self, w')).
Proof. intros H. unfold bind, world. cbn [fst snd]. by rewrite H. Qed.

Lemma world_run {A} (m : M A) self w r w' :
  m w = (r, w') → world m (self, w) = (r, (self, w')).
Proof. intros H. unfold world. cbn [fst snd]. by rewrite H. Qed.

Lemma bind_lift_ok {S A B} (a : A) (k : A → ST S B) s : bind (lift (Ok a)) k s = k a s.
Proof. reflexivity. Qed.

Section handle_facts.

Variable sha1 : string → N.
Variable sha256 : string → string.

(** X11.  The constructor reads the hashmap and the node off the file
    name: the directory and the file name without [.json], or the
    catch-all hashmap for a file name without a directory; the handle is
    unloaded and in no edit scope.  Either way the document of the handle
    is the file at the sharded path of the file name. *)
Theorem new_LazyJson_names (name key : string) :
  os_path.has_sep key = false →
  (name ≠ "" → os_path.endswith_sep name = false →
   new_LazyJson (node_file name key)
   = mkLazyJson (node_file name key) None None false name key None)
  ∧ new_LazyJson (key +:+ ".json")
    = mkLazyJson (key +:+ ".json") None None false "lazy_json" key None
  ∧ get_sharded_path sha1
      (node_file (hashmap (new_LazyJson (key +:+ ".json")))
                 (node (new_LazyJson (key +:+ ".json"))))
    = Ok (key +:+ ".json").
Proof.
  intros Hk.
  assert (new_LazyJson (key +:+ ".json")
          = mkLazyJson (key +:+ ".json") None None false "lazy_json" key None) as Hflat.
  { unfold new_LazyJson, os_path.split.
    rewrite os_path_facts.rsplit_no_sep by by apply has_sep_json.
    cbn. f_equal. apply (str_drop_end_app key ".json"). }
  split_and!; [|done|].
  - intros Hne Hend. unfold new_LazyJson.
    change (node_file name key) with (name +:+ String "/" (key +:+ ".json")).
    rewrite os_path_facts.split_node_file by (by try apply has_sep_json).
    destruct (String.eqb_spec name "") as [|_]; [done|]. cbn [fst snd].
    replace (0 <? String.length name)%nat with true
      by (symmetry; apply Nat.ltb_lt; destruct name; [done|cbn; lia]).
    f_equal. apply (str_drop_end_app key ".json").
  - rewrite Hflat. cbn [hashmap node]. by apply get_sharded_path_catch_all.
Qed.

Lemma file_hsetnx_eq name key value w :
  hsetnx (FileLazyJsonBackend sha1 sha256) name key value w =
    match fs w !! sharded_file sha1 name key with
    | Some _ => (Ok false, w)
    | None =>
        (Ok true, set_fs (λ files, <[sharded_file sha1 name key := value]> files) w)
    end.
Proof.
  unfold hsetnx. cbn [hexists hset FileLazyJsonBackend]. unfold bind.
  rewrite file_hexists_eq.
  destruct (fs w !! sharded_file sha1 name key) as [s|] eqn:Hs.
  - by rewrite bool_decide_eq_true_2 by by eexists.
  - rewrite bool_decide_eq_false_2 by by intros [? ?]. by rewrite file_hset_eq.
Qed.

(** X12.  With the file backend as the primary the constructor makes
    sure that the document has a file: one call of [hsetnx], which writes
    the empty document [{}] when there is no file and leaves a file that
    is there as it is.  With another primary the constructor touches
    nothing. *)
Theorem LazyJson_init_keeps_file (primary file_name : string) (w : World) :
  let self := new_LazyJson file_name in
  let path := sharded_file sha1 (hashmap self) (node self) in
  let call := ("file", OpHsetnx (hashmap self) (node self) "{}") in
  (primary = "file" →
   LazyJson_init sha1 sha256 primary file_name w
   = (Ok self,
      match fs w !! path with
      | Some _ => add_call call w
      | None => set_fs (λ files, <[path := "{}"]> files) (add_call call w)
      end))
  ∧ (primary ≠ "file" → LazyJson_init sha1 sha256 primary file_name w = (Ok self, w)).
Proof.
  intros self path call. split.
  - intros ->. unfold LazyJson_init. fold self.
    cbn [String.eqb Ascii.eqb Bool.eqb]. rewrite empty_document_eq.
    unfold bind, lift, ret.
    rewrite (invoke_known sha1 sha256) by by left. fold call.
    change (backend_of sha1 sha256 "file") with (FileLazyJsonBackend sha1 sha256).
    rewrite file_hsetnx_eq. cbn [fs add_call]. fold path.
    by destruct (fs w !! path).
  - intros Hne%String.eqb_neq. unfold LazyJson_init. by rewrite Hne.
Qed.

Lemma loads_in_world_plain primary data_str j v w :
  rapidjson.parse data_str = Ok j → lazy_inits j = [] →
  decode_with object_hook j = Ok v →
  loads_in_world sha1 sha256 primary data_str w = (Ok v, w).
Proof.
  intros Hj Hinits Hv. unfold loads_in_world, bind, lift.
  rewrite Hj, Hinits. cbn [for_each]. unfold ret. by rewrite Hv.
Qed.

Lemma load_cached (primary : string) (self : LazyJson) (w : World)
    (data_str : string) (j : json) (v : pyval) :
  _data self = None →
  fs w !! sharded_file sha1 (hashmap self) (node self) = Some data_str →
  rapidjson.parse data_str = Ok j → lazy_inits j = [] →
  decode_with object_hook j = Ok v →
  _load sha1 sha256 primary (self, w)
  = (Ok tt, (set_data (Some v) (set_data_hash_at_load (Some (sha256 data_str)) self),
             add_call ("file", OpHget (hashmap self) (node self))
               (add_call ("file", OpHexists (hashmap self) (node self)) w))).
Proof.
  intros Hdata Hfile Hj Hinits Hv.
  unfold _load, self_get, self_set. rewrite bind_self_get, Hdata, !bind_self_get.
  erewrite bind_world_ok.
  2:{ rewrite (invoke_known sha1 sha256) by by left.
      cbn [backend_of String.eqb Ascii.eqb Bool.eqb hexists FileLazyJsonBackend].
      rewrite file_hexists_eq. cbn [fs add_call]. rewrite Hfile.
      by rewrite bool_decide_eq_true_2 by by eexists. }
  cbv iota. erewrite bind_ok.
  2:{ eapply world_run.
      rewrite (invoke_known sha1 sha256) by by left.
      cbn [backend_of String.eqb Ascii.eqb Bool.eqb hget FileLazyJsonBackend].
      rewrite file_hget_eq. cbn [fs add_call]. by rewrite Hfile. }
  rewrite bind_self_set. erewrite bind_world_ok; [|by eapply loads_in_world_plain].
  reflexivity.
Qed.






End handle_facts.

Lemma parse_empty_document : rapidjson.parse "{}" = Ok (JObj []).
Proof. by vm_compute. Qed.

Lemma loads_empty_document : rapidjson.loads "{}" = Ok (PDict []).
Proof. by vm_compute. Qed.

Lemma dumps_empty_dict : dumps (PDict []) = Ok "{}".
Proof. by vm_compute. Qed.

Lemma collection_add_call name c w : collection name (add_call c w) = collection name w.
Proof. reflexivity. Qed.

Lemma collection_set_fs name f w : collection name (set_fs f w) = collection name w.
Proof. reflexivity. Qed.

Section load_facts.

Variable sha1 : string → N.
Variable sha256 : string → string.

Lemma loads_in_world_empty primary w :
  loads_in_world sha1 sha256 primary "{}" w = (Ok (PDict []), w).
Proof. by apply (loads_in_world_plain sha1 sha256 primary "{}" (JObj [])). Qed.

(** X15.  The first read of a document that neither the cache nor the
    primary holds creates it: [_load] stores the empty document [{}] in
    the primary with [hsetnx], reads it back, copies it to the file cache
    when the primary is the database, and the handle then holds the empty
    dictionary with the hash of [{}] as its baseline. *)
Theorem load_creates_missing_document (self : LazyJson) (w : World) :
  let name := hashmap self in
  let key := node self in
  let path := sharded_file sha1 name key in
  let self' := set_data (Some (PDict [])) (set_data_hash_at_load (Some (sha256 "{}")) self) in
  _data self = None → _override_backends self = None →
  fs w !! path = None →
  (∃ w', _load sha1 sha256 "file" (self, w) = (Ok tt, (self', w'))
     ∧ fs w' = <[path := "{}"]> (fs w) ∧ cf_graph w' = cf_graph w
     ∧ calls w' = calls w ++ [("file", OpHexists name key);
                              ("file", OpHsetnx name key "{}");
                              ("file", OpHget name key)])
  ∧ (valid_hashmap name = true → collection name w !! key = None →
     ∃ w', _load sha1 sha256 "mongodb" (self, w) = (Ok tt, (self', w'))
       ∧ fs w' = <[path := "{}"]> (fs w)
       ∧ collection name w' = <[key := MongoDoc (PDict []) (sha256 "{}")]> (collection name w)
       ∧ calls w' = calls w ++ [("file", OpHexists name key);
                                ("mongodb", OpHsetnx name key "{}");
                                ("mongodb", OpHget name key);
                                ("file", OpHset name key "{}")]).
Proof.
  intros name key path self' Hdata Hover Hfile. split.
  - eexists. split.
    + unfold _load, self_get, self_set. rewrite bind_self_get, Hdata, !bind_self_get.
      fold name key.
      erewrite bind_world_ok.
      2:{ rewrite (invoke_known sha1 sha256) by by left.
          cbn [backend_of String.eqb Ascii.eqb Bool.eqb hexists FileLazyJsonBackend].
          rewrite file_hexists_eq. cbn [fs add_call]. fold path. rewrite Hfile.
          by rewrite bool_decide_eq_false_2 by by intros [? ?]. }
      cbv iota. erewrite bind_ok.
      2:{ rewrite bind_self_get, Hover. rewrite empty_document_eq.
          unfold ret at 1. unfold bind at 1. unfold lift at 1. unfold bind at 1.
          erewrite bind_world_ok.
          2:{ rewrite (invoke_known sha1 sha256) by by left.
              cbn [backend_of String.eqb Ascii.eqb Bool.eqb].
              rewrite file_hsetnx_eq. cbn [fs add_call]. fold path. by rewrite Hfile. }
          erewrite bind_world_ok.
          2:{ rewrite (invoke_known sha1 sha256) by by left.
              cbn [backend_of String.eqb Ascii.eqb Bool.eqb hget FileLazyJsonBackend].
              rewrite file_hget_eq. cbn [fs add_call set_fs]. fold path.
              by rewrite lookup_insert_eq. }
          cbn [String.eqb Ascii.eqb Bool.eqb negb]. reflexivity. }
      rewrite bind_self_set. erewrite bind_world_ok; [|apply loads_in_world_empty].
      reflexivity.
    + cbn [snd calls add_call set_fs fs cf_graph]. split_and!; [done..|].
      by rewrite <- !app_assoc.
  - intros Hv Hkey. eexists. split.
    + unfold _load, self_get, self_set. rewrite bind_self_get, Hdata, !bind_self_get.
      fold name key.
      erewrite bind_world_ok.
      2:{ rewrite (invoke_known sha1 sha256) by by left.
          cbn [backend_of String.eqb Ascii.eqb Bool.eqb hexists FileLazyJsonBackend].
          rewrite file_hexists_eq. cbn [fs add_call]. fold path. rewrite Hfile.
          by rewrite bool_decide_eq_false_2 by by intros [? ?]. }
      cbv iota. erewrite bind_ok.
      2:{ rewrite bind_self_get, Hover. rewrite empty_document_eq.
          unfold ret at 1. unfold bind at 1. unfold lift at 1. unfold bind at 1.
          erewrite bind_world_ok.
          2:{ rewrite (invoke_known sha1 sha256) by by right.
              cbn [backend_of String.eqb Ascii.eqb Bool.eqb].
              unfold hsetnx. cbn [hexists hset MongoDBLazyJsonBackend].
              unfold bind at 1. rewrite mongo_hexists_eq, Hv.
              rewrite !collection_add_call, Hkey. rewrite bool_decide_eq_false_2 by by intros [? ?].
              unfold bind at 1. rewrite mongo_hset_eq, Hv, loads_empty_document.
              reflexivity. }
          erewrite bind_world_ok.
          2:{ rewrite (invoke_known sha1 sha256) by by right.
              cbn [backend_of String.eqb Ascii.eqb Bool.eqb hget MongoDBLazyJsonBackend].
              rewrite mongo_hget_eq, Hv.
              rewrite collection_add_call, collection_upsert, lookup_insert_eq. cbn [doc_value].
              rewrite dumps_empty_dict. reflexivity. }
          cbn [String.eqb Ascii.eqb Bool.eqb negb].
          erewrite bind_world_ok.
          2:{ apply invoke_file_hset. }
          reflexivity. }
      rewrite bind_self_set. erewrite bind_world_ok; [|apply loads_in_world_empty].
      reflexivity.
    + cbn [snd]. split_and!.
      * done.
      * by rewrite collection_set_fs, !collection_add_call, collection_upsert,
          !collection_add_call.
      * cbn [calls add_call set_fs upsert set_cf_graph]. by rewrite <- !app_assoc.
Qed.


(** X17.  Under an empty override there is no backend to read from: on a
    document that the cache does not hold, [_load] raises [IndexError]
    after it has asked the file backend, and the handle stays unloaded;
    nothing is written. *)
Theorem load_empty_override_raises (primary : string) (self : LazyJson) (w : World) :
  _data self = None → _override_backends self = Some [] →
  fs w !! sharded_file sha1 (hashmap self) (node self) = None →
  _load sha1 sha256 primary (self, w)
  = (Raise IndexError, (self, add_call ("file", OpHexists (hashmap self) (node self)) w)).
Proof.
  intros Hdata Hover Hfile.
  unfold _load, self_get, self_set. rewrite bind_self_get, Hdata, !bind_self_get.
  erewrite bind_world_ok.
  2:{ rewrite (invoke_known sha1 sha256) by by left.
      cbn [backend_of String.eqb Ascii.eqb Bool.eqb hexists FileLazyJsonBackend].
      rewrite file_hexists_eq. cbn [fs add_call]. rewrite Hfile.
      by rewrite bool_decide_eq_false_2 by by intros [? ?]. }
  cbv iota. apply bind_raise. rewrite bind_self_get, Hover. reflexivity.
Qed.

End load_facts.

(** * Edit scopes *)

Lemma dict_set_elem {V} k (v : V) d : (k, v) ∈ dict_set k v d.
Proof.
  induction d as [|[k' v'] d IH]; cbn; [by left|].
  destruct (String.eqb k k'); [by left|by right].
Qed.

Lemma dict_get_sort_items {V} k (v : V) l :
  NoDup l.*1 → (k, v) ∈ l → dict_get k (sort_items l) = Ok v.
Proof.
  intros Hnd Hin. apply dict_get_elem.
  - by rewrite sort_items_keys_perm.
  - by rewrite sort_items_perm.
Qed.

Section scope_facts.

Variable sha1 : string → N.
Variable sha256 : string → string.
Variable primary : string.
Variable secondaries : list string.

(** One run of [_dump] on a loaded document whose value serialises. *)
Lemma dump_run (self : LazyJson) (w : World) (data : pyval) (data_str : string)
    (purge force : bool) :
  _data self = Some data → dumps data = Ok data_str →
  Forall known_backend (active_backends primary secondaries self) →
  ("mongodb" ∈ active_backends primary secondaries self →
   valid_hashmap (hashmap self) = true) →
  let curr_hash := sha256 data_str in
  let dirty := bool_decide (Some curr_hash ≠ _data_hash_at_load self) || force in
  let flushed := if dirty then set_data_hash_at_load (Some curr_hash) self else self in
  let self' :=
    if purge then set_data_hash_at_load None (set_data None flushed) else flushed in
  let write := OpHset (hashmap self) (node self) data_str in
  ∃ w',
    _dump sha1 sha256 primary secondaries purge force (self, w) = (Ok tt, (self', w')) ∧
    (dirty = false → w' = w) ∧
    (dirty = true →
     calls w' = calls w ++ ("file", write) ::
       ((λ b, (b, write)) <$>
          filter (λ b, b ≠ "file") (active_backends primary secondaries self)) ∧
     fs w' = <[sharded_file sha1 (hashmap self) (node self) := data_str]> (fs w) ∧
     ("mongodb" ∈ active_backends primary secondaries self →
      ∃ doc, rapidjson.loads data_str = Ok doc ∧
        collection (hashmap self) w' !! node self = Some (MongoDoc doc curr_hash))).
Proof.
  intros Hdata Hdumps Hknown Hvalid curr_hash dirty flushed self' write.
  destruct (loads_of_dumps _ _ Hdumps) as [doc Hdoc].
  unfold _dump.
  rewrite (bind_ok _ _ _ _ _ (load_loaded sha1 sha256 primary _ _ _ Hdata)).
  rewrite (bind_ok _ _ _ _ _ (loaded_data_eq _ _ _ Hdata)).
  rewrite Hdumps.
  rewrite (bind_ok (lift (Ok data_str)) _ _ data_str (self, w)) by done.
  rewrite (bind_ok (self_get _data_hash_at_load) _ _ (_data_hash_at_load self) (self, w))
    by done.
  fold curr_hash. fold dirty. destruct dirty eqn:Hd.
  - set (w1 := set_fs (λ files, <[sharded_file sha1 (hashmap self) (node self) := data_str]> files)
                 (add_call ("file", write) w)).
    destruct (dump_loop sha1 sha256 (hashmap self) (node self) data_str doc flushed
                (active_backends primary secondaries self) w1 Hknown Hvalid Hdoc)
      as (w' & Hloop & Hcalls & Hfs & Hdb).
    exists w'. split_and!; [|done|].
    + erewrite bind_ok; [|erewrite bind_ok; [|reflexivity]].
      2:{ cbn [fst snd].
          rewrite (bind_ok (self_get hashmap) _ _ (hashmap self) (flushed, w)) by done.
          rewrite (bind_ok (self_get node) _ _ (node self) (flushed, w)) by done.
          erewrite bind_ok.
          2:{ unfold world. cbn [fst snd]. rewrite invoke_file_hset. reflexivity. }
          rewrite (bind_ok (self_get _override_backends) _ _
                     (_override_backends self) (flushed, w1)) by done.
          exact Hloop. }
      by destruct purge.
    + intros _. split_and!.
      * rewrite Hcalls. unfold w1. cbn. by rewrite <- app_assoc.
      * by rewrite Hfs.
      * intros Hin. exists doc. split; [done|]. unfold collection at 1.
        rewrite Hdb, bool_decide_eq_true_2 by done.
        rewrite lookup_insert_eq. cbn [from_option id]. apply lookup_insert_eq.
  - exists w. split_and!; [|done|done].
    rewrite (bind_ok (ret tt) _ _ tt (self, w)) by done. by destruct purge.
Qed.


(** X19.  When the value a scope leaves behind cannot be serialised, the
    exit raises the error of [dumps] in place of whatever the body
    returned or raised, writes nothing, and does not reach the line that
    leaves the scope: the handle keeps the value and stays in the edit
    scope. *)
Theorem edit_scope_failed_flush {A} (body : Method A) (self self1 : LazyJson)
    (w w1 : World) (r : result A) (data : pyval) (e : exn) :
  body (set_in_context true self, w) = (r, (self1, w1)) →
  _data self1 = Some data → dumps data = Raise e →
  edit_scope sha1 sha256 primary secondaries body (self, w) = (Raise e, (self1, w1)).
Proof.
  intros Hbody Hdata Hdumps.
  assert (_dump sha1 sha256 primary secondaries true false (self1, w1)
          = (Raise e, (self1, w1))) as Hrun.
  { unfold _dump.
    rewrite (bind_ok _ _ _ _ _ (load_loaded sha1 sha256 primary _ _ _ Hdata)).
    rewrite (bind_ok _ _ _ _ _ (loaded_data_eq _ _ _ Hdata)).
    rewrite Hdumps. reflexivity. }
  unfold edit_scope, __enter__, self_set. rewrite bind_self_set, Hbody.
  unfold __exit__. destruct r as [a|e'].
  - apply bind_raise. by apply bind_raise.
  - apply bind_raise. by apply bind_raise.
Qed.

(** X20.  What an edit scope assigns is what a later read finds.  On a
    document that the cache holds as a dictionary, the scope
    [with lzj: lzj[key] = value] ends with the value purged from memory,
    and [lzj[key]] afterwards reads the document again and returns the
    value, in the form it has after a trip through JSON (dictionaries by
    sorted key, sets sorted).  This needs a dictionary that serialises
    after the assignment and holds no handle, and a hash that tells the
    new text from the old one. *)
Theorem edit_then_read (self : LazyJson) (w : World) (text : string) (j : json)
    (d : list (string * pyval)) (key : string) (value : pyval) :
  let path := sharded_file sha1 (hashmap self) (node self) in
  let data' := PDict (dict_set key value d) in
  _data self = None → fs w !! path = Some text →
  rapidjson.parse text = Ok j → lazy_inits j = [] →
  decode_with object_hook j = Ok (PDict d) →
  doc_ok data' → lazy_inits (tree data') = [] →
  (∀ s, dumps data' = Ok s → sha256 s = sha256 text → s = text) →
  Forall known_backend (active_backends primary secondaries self) →
  ("mongodb" ∈ active_backends primary secondaries self →
   valid_hashmap (hashmap self) = true) →
  ∃ self' w',
    edit_scope sha1 sha256 primary secondaries
      (__setitem__ sha1 sha256 primary key value) (self, w) = (Ok tt, (self', w')) ∧
    _data self' = None ∧ _in_context self' = false ∧
    ∃ self'' w'',
      __getitem__ sha1 sha256 primary key (self', w') = (Ok (canon value), (self'', w'')) ∧
      fs w'' = fs w' ∧ cf_graph w'' = cf_graph w'.
Proof.
  intros path data' Hdata Hfile Hj Hinits Hdec Hok Hinits' Hhash Hknown Hvalid.
  set (s1 := rapidjson.dumps (tree data')).
  assert (dumps data' = Ok s1) as Hdumps by (unfold dumps; by rewrite encode_tree).
  set (self0 := set_in_context true self).
  set (self1 := set_data (Some data')
                  (set_data (Some (PDict d))
                     (set_data_hash_at_load (Some (sha256 text)) self0))).
  set (w1 := add_call ("file", OpHget (hashmap self) (node self))
               (add_call ("file", OpHexists (hashmap self) (node self)) w)).
  assert (__setitem__ sha1 sha256 primary key value (self0, w) = (Ok tt, (self1, w1)))
    as Hbody.
  { unfold __setitem__, self_get. rewrite bind_self_get.
    cbn [self0 set_in_context _in_context assert]. unfold ret at 1. unfold bind at 1.
    erewrite bind_ok; [|by apply (load_cached sha1 sha256 primary self0 w text j (PDict d))].
    erewrite bind_ok; [|by apply loaded_data_eq]. reflexivity. }
  destruct (dump_run self1 w1 data' s1 true false eq_refl Hdumps Hknown Hvalid)
    as (w' & Hrun & Hclean & Hdirty).
  rewrite orb_false_r in Hrun, Hclean, Hdirty.
  set (dirty := bool_decide (Some (sha256 s1) ≠ _data_hash_at_load self1)) in *.
  assert (fs w' !! path = Some s1) as Hfile'.
  { destruct dirty eqn:Hd.
    - destruct (Hdirty eq_refl) as (_ & -> & _). apply lookup_insert_eq.
    - rewrite (Hclean eq_refl). cbn [w1 fs add_call].
      apply bool_decide_eq_false in Hd. apply dec_stable in Hd.
      injection Hd as Hd. by rewrite (Hhash s1 Hdumps Hd). }
  set (self' := set_in_context false
                  (set_data_hash_at_load None
                     (set_data None
                        (if dirty then set_data_hash_at_load (Some (sha256 s1)) self1
                         else self1)))).
  assert (hashmap self' = hashmap self ∧ node self' = node self) as [Hhm Hnd]
    by (unfold self'; by destruct dirty).
  exists self', w'. split.
  { unfold edit_scope, __enter__, self_set. rewrite bind_self_set. fold self0.
    rewrite Hbody. unfold __exit__.
    erewrite bind_ok; [reflexivity|]. erewrite bind_ok; [|exact Hrun]. reflexivity. }
  split_and!; [reflexivity..|].
  eexists _, _. split.
  - unfold __getitem__.
    erewrite bind_ok.
    2:{ apply (load_cached sha1 sha256 primary self' w' s1 (tree data') (canon data'));
          [reflexivity|by rewrite Hhm, Hnd|apply rapidjson_facts.parse_dumps|done|
           by apply decode_tree]. }
    erewrite bind_ok; [|by apply loaded_data_eq].
    unfold lift. cbn [canon data' py_getitem].
    rewrite (dict_get_sort_items key (canon value)); [reflexivity| |].
    + rewrite fmap_fst_preserved by done. by apply doc_ok_dict in Hok as (? & _).
    + apply (list_elem_of_fmap_2 (λ kv, (kv.1, canon kv.2)) _ (key, value)).
      apply dict_set_elem.
  - by cbn [fs cf_graph add_call].
Qed.


End scope_facts.

(** * Backends that agree already *)

Section in_sync.

Variable sha1 : string → N.
Variable sha256 : string → string.

Lemma scan_in_sync name (H : gmap string string) : ∀ ss
    (acc : gset string * gmap string (gmap string string)) w,
  acc.1 = ∅ → Forall known_backend ss →
  (∀ s, s ∈ ss → secondary_ok sha1 s name w ∧ hashes_of sha256 s name w = H) →
  ∃ bh w',
    fold_each (scan_secondary sha1 sha256 name H) ss acc w = (Ok (∅, bh), w') ∧
    calls w' = calls w ++ ((λ s, (s, OpHgetall name true)) <$> ss) ∧
    fs w' = fs w ∧ cf_graph w' = cf_graph w.
Proof.
  induction ss as [|s ss IH]; intros [todo bh] w Hacc Hks Hss; cbn [fst] in Hacc.
  - subst todo. exists bh, w. cbn [fold_each fmap list_fmap].
    by rewrite app_nil_r.
  - apply Forall_cons in Hks as [Hk Hks].
    set (c := (s, OpHgetall name true)).
    destruct (Hss s) as [Hok HH]; [by left|].
    assert (hashes_of sha256 s name (add_call c w) = H) as HH'
      by (rewrite <- HH; apply same_part_hashes, same_part_add_call).
    destruct (IH (∅, <[s := H]> bh) (add_call c w)) as (bh' & w' & Hrun & Hcalls & Hfs & Hdb);
      [done|done| |].
    { intros s' Hs'. destruct (Hss s') as [Hok' HH'']; [by right|]. split.
      - eapply same_part_secondary_ok; [apply same_part_add_call|done].
      - rewrite <- HH''. apply same_part_hashes, same_part_add_call. }
    exists bh', w'. split_and!; [|by rewrite Hcalls; cbn; rewrite <- app_assoc|done|done].
    cbn [fold_each]. erewrite bind_ok; [exact Hrun|].
    unfold scan_secondary. erewrite bind_ok.
    2:{ rewrite (invoke_known sha1 sha256) by done. fold c.
        apply hgetall_spec; [done|].
        eapply same_part_secondary_ok; [apply same_part_add_call|done]. }
    rewrite HH'. cbn zeta.
    rewrite bool_decide_eq_true_2 by set_solver.
    assert ((∅ : gset string) ∪ filter (λ n, out_of_sync H H n) (dom H) = ∅) as Hempty.
    { apply leibniz_equiv. intros k. split; [|set_solver].
      intros [Hk'|[Ho Hin%elem_of_dom]%elem_of_filter]%elem_of_union; [done|].
      rewrite (out_of_sync_same H k Hin) in Ho. done. }
    unfold bind, ret. cbn [fst snd]. subst todo. by rewrite Hempty.
Qed.

Lemma same_part_of_eq b w w' : fs w' = fs w → cf_graph w' = cf_graph w → same_part b w w'.
Proof. intros. unfold same_part. by destruct (String.eqb b "file"). Qed.

Lemma sync_hashmap_in_sync primary secondaries name (n : Z) (fuel : nat) (w : World) :
  known_backend primary → Forall known_backend secondaries →
  (∀ s, s ∈ primary :: secondaries →
     secondary_ok sha1 s name w
     ∧ hashes_of sha256 s name w = hashes_of sha256 primary name w) →
  ∃ w',
    _sync_hashmap sha1 sha256 primary secondaries fuel name n
      (backend_of sha1 sha256 primary) w = (Ok tt, w')
    ∧ calls w' = calls w ++ ((λ s, (s, OpHgetall name true)) <$> primary :: secondaries)
    ∧ fs w' = fs w ∧ cf_graph w' = cf_graph w.
Proof.
  intros Hkp Hks Hall.
  set (H := hashes_of sha256 primary name w) in *.
  set (c0 := (primary, OpHgetall name true)).
  destruct (Hall primary) as [Hpok _]; [by left|].
  destruct (scan_in_sync name H secondaries (∅, ∅) (add_call c0 w))
    as (bh & w' & Hscan & Hcalls & Hfs & Hdb); [done|done| |].
  { intros s Hs. destruct (Hall s) as [Hok HH]; [by right|]. split.
    - eapply same_part_secondary_ok; [apply same_part_add_call|done].
    - rewrite <- HH. apply same_part_hashes, same_part_add_call. }
  exists w'. split_and!; [|by rewrite Hcalls; cbn; rewrite <- app_assoc|done|done].
  unfold _sync_hashmap. erewrite bind_ok.
  2:{ unfold bind at 1, modify at 1. fold c0. apply hgetall_spec; [done|].
      eapply same_part_secondary_ok; [apply same_part_add_call|done]. }
  rewrite (same_part_hashes sha256 _ _ _ _ (same_part_add_call primary c0 w)). fold H.
  erewrite bind_ok; [|exact Hscan]. cbn [fst snd]. apply fetch_loop_empty.
Qed.

(** X22.  When every secondary already returns the [{key: hash}] map of
    the primary, the synchronisation of the hashmap only reads: one
    [hgetall] of hashes on the primary and one on each secondary, in
    order, and no file and no document is touched.  This holds for every
    batch size, and the loop that fetches has nothing to fetch. *)
Theorem sync_in_sync_only_reads primary secondaries name (n : Z) (fuel : nat)
    (H : gmap string string) (w : World) :
  known_backend primary → Forall known_backend secondaries →
  Forall (λ s, secondary_ok sha1 s name w
               ∧ hgetall (backend_of sha1 sha256 s) name true w = (Ok H, w))
    (primary :: secondaries) →
  ∃ w',
    _sync_hashmap sha1 sha256 primary secondaries fuel name n
      (backend_of sha1 sha256 primary) w = (Ok tt, w')
    ∧ calls w' = calls w ++ ((λ s, (s, OpHgetall name true)) <$> primary :: secondaries)
    ∧ fs w' = fs w ∧ cf_graph w' = cf_graph w.
Proof.
  intros Hkp Hks Hall.
  assert (∀ s, s ∈ primary :: secondaries →
            secondary_ok sha1 s name w ∧ hashes_of sha256 s name w = H) as Hall'.
  { rewrite Forall_forall in Hall. intros s Hs. destruct (Hall s Hs) as [Hok Hget].
    split; [done|].
    rewrite (hgetall_spec sha1 sha256) in Hget; [by injection Hget|
      rewrite Forall_forall in Hks; apply elem_of_cons in Hs as [->|Hs]; auto|done]. }
  apply sync_hashmap_in_sync; [done|done|].
  intros s Hs. destruct (Hall' s Hs) as [Hok ->].
  destruct (Hall' primary) as [_ ->]; [by left|done].
Qed.

(** X26.  The synchronisation of all the hashmaps.  With the primary as
    the only backend it does nothing at all.  With secondaries that agree
    with the primary on every hashmap it walks the hashmaps in its order,
    [lazy_json] first, reads the hashes of each from every backend, and
    writes nothing. *)
Theorem full_sync_in_sync primary secondaries (batch_size : Z) (fuel : nat) (w : World) :
  let hashmaps := ordered_collections ++ rest_of_the_collections in
  (secondaries = [] →
   sync_lazy_json_across_backends sha1 sha256 primary secondaries fuel batch_size w
   = (Ok tt, w))
  ∧ (secondaries ≠ [] →
     known_backend primary → Forall known_backend secondaries →
     (∀ name s, name ∈ hashmaps → s ∈ primary :: secondaries →
        secondary_ok sha1 s name w
        ∧ hgetall (backend_of sha1 sha256 s) name true w
          = hgetall (backend_of sha1 sha256 primary) name true w) →
     ∃ w',
       sync_lazy_json_across_backends sha1 sha256 primary secondaries fuel batch_size w
       = (Ok tt, w')
       ∧ calls w' = calls w ++
           concat ((λ name, (λ s, (s, OpHgetall name true)) <$> primary :: secondaries)
                     <$> hashmaps)
       ∧ fs w' = fs w ∧ cf_graph w' = cf_graph w).
Proof.
  intros hashmaps. split.
  - intros ->. reflexivity.
  - intros Hne Hkp Hks Hall.
    assert (∀ name s, name ∈ hashmaps → s ∈ primary :: secondaries →
              secondary_ok sha1 s name w
              ∧ hashes_of sha256 s name w = hashes_of sha256 primary name w) as Hall'.
    { intros name s Hn Hs. destruct (Hall name s Hn Hs) as [Hok Hget].
      destruct (Hall name primary Hn) as [Hpok _]; [by left|].
      split; [done|].
      rewrite !(hgetall_spec sha1 sha256) in Hget; [by injection Hget|done..|
        rewrite Forall_forall in Hks; apply elem_of_cons in Hs as [->|Hs]; auto|done]. }
    clear Hall.
    assert (∀ names w1, (∀ name, name ∈ names → name ∈ hashmaps) →
              fs w1 = fs w → cf_graph w1 = cf_graph w →
              ∃ w', for_each (λ hashmap,
                      _sync_hashmap sha1 sha256 primary secondaries fuel hashmap batch_size
                        (backend_of sha1 sha256 primary)) names w1 = (Ok tt, w')
                ∧ calls w' = calls w1 ++
                    concat ((λ name, (λ s, (s, OpHgetall name true)) <$> primary :: secondaries)
                              <$> names)
                ∧ fs w' = fs w ∧ cf_graph w' = cf_graph w) as Hloop.
    { induction names as [|name names IH]; intros w1 Hin Hfs Hdb.
      - exists w1. cbn. by rewrite app_nil_r.
      - destruct (sync_hashmap_in_sync primary secondaries name batch_size fuel w1)
          as (w2 & Hrun & Hcalls & Hfs2 & Hdb2); [done|done| |].
        { intros s Hs. destruct (Hall' name s) as [Hok HH]; [apply Hin; by left|done|].
          split.
          - eapply same_part_secondary_ok; [by apply same_part_of_eq|done].
          - rewrite !(same_part_hashes sha256 _ name w w1) by by apply same_part_of_eq.
            done. }
        destruct (IH w2) as (w' & Hrun' & Hcalls' & Hfs' & Hdb');
          [intros; apply Hin; by right|congruence|congruence|].
        exists w'. split_and!; [|by rewrite Hcalls', Hcalls; cbn; rewrite <- app_assoc|done|done].
        cbn [for_each]. erewrite bind_ok; [exact Hrun'|exact Hrun]. }
    destruct (Hloop hashmaps w) as (w' & Hrun & Hrest); [done..|].
    exists w'. split; [|done].
    unfold sync_lazy_json_across_backends, CF_TICK_GRAPH_DATA_BACKENDS.
    destruct secondaries as [|s0 ss]; [done|]. cbn [length Nat.ltb Nat.leb].
    erewrite bind_ok; [exact Hrun|].
    unfold LAZY_JSON_BACKENDS, backend_of. by destruct Hkp as [->| ->].
Qed.

End in_sync.

(** * Further laws of the two backends *)

Section more_backend_laws.

Variable sha1 : string → N.
Variable sha256 : string → string.

(** X24.  [hdel] of the database backend removes the documents of the
    nodes it is given and no other: afterwards [hexists] is [False] for
    each of them, every other document is as it was, and the files are
    untouched.  A node that has no document, or that comes twice in the
    list, is no error. *)
Theorem mongo_hdel_removes_exactly (name : string) (keys : list string) (w : World) :
  valid_hashmap name = true →
  let mongo := MongoDBLazyJsonBackend sha256 in
  ∃ w', hdel mongo name keys w = (Ok tt, w')
    ∧ (∀ k, k ∈ keys → hexists mongo name k w' = (Ok false, w'))
    ∧ (∀ k, k ∉ keys → collection name w' !! k = collection name w !! k)
    ∧ fs w' = fs w ∧ calls w' = calls w.
Proof.
  intros Hv mongo.
  destruct (mongo_hdel_spec name keys w Hv) as (w' & Hrun & Hfs & Hcalls & Hview).
  exists w'. split_and!; [done| | |done|done].
  - intros k Hk. cbn [mongo hexists MongoDBLazyJsonBackend].
    rewrite mongo_hexists_eq, Hv, Hview, (bool_decide_eq_true_2 (k ∈ keys)) by done.
    by rewrite bool_decide_eq_false_2 by by intros [? ?].
  - intros k Hk. by rewrite Hview, bool_decide_eq_false_2.
Qed.

(** X25.  [hmset] is [hset] of every item at once, on either backend:
    the [{key: hash}] map that [hgetall] returns afterwards is the one it
    returned before with, for every key of the mapping, the hash of the
    text given for it.  The mapping must hold an item, and what the
    backend can take: keys that the file backend lists, texts that are
    JSON for the database. *)
Theorem hmset_then_hgetall (b name : string) (mapping : gmap string string)
    (H : gmap string string) (w : World) :
  known_backend b → secondary_ok sha1 b name w → mapping ≠ ∅ →
  (∀ k v, mapping !! k = Some v → accepts sha1 b name k v) →
  hgetall (backend_of sha1 sha256 b) name true w = (Ok H, w) →
  ∃ w' H',
    hmset (backend_of sha1 sha256 b) name mapping w = (Ok tt, w')
    ∧ hgetall (backend_of sha1 sha256 b) name true w' = (Ok H', w')
    ∧ ∀ k, H' !! k = match mapping !! k with
                     | Some v => Some (sha256 v)
                     | None => H !! k
                     end.
Proof.
  intros Hk Hok Hne Hacc Hget.
  rewrite (hgetall_spec sha1 sha256) in Hget by done. injection Hget as <-.
  destruct (hmset_spec sha1 sha256 b name mapping w Hk Hok Hne Hacc)
    as (w' & Hrun & Hok' & _ & _ & Hview).
  exists w', (hashes_of sha256 b name w'). split_and!; [done| |done].
  by apply hgetall_spec.
Qed.

End more_backend_laws.

(** * Worked examples

    The theorems above at concrete inputs, with the stand-in digests. *)

(** The layout of two files. *)
Lemma get_sharded_path_layout_example :
  get_sharded_path demo_sha1 (node_file "lazy_json" "graph") = Ok "graph.json" ∧
  get_sharded_path demo_sha1 (node_file "pr_json" "a") = Ok "pr_json/f/3/d/c/b/a.json".
Proof.
  destruct (get_sharded_path_layout demo_sha1 "pr_json" "a" eq_refl eq_refl)
    as (_ & Hshard & _).
  destruct (get_sharded_path_layout demo_sha1 "pr_json" "graph" eq_refl eq_refl)
    as (Hflat & _ & _).
  split; [exact Hflat|].
  destruct Hshard as (h0 & h1 & h2 & h3 & h4 & Hhx & _ & ->); [done|].
  vm_compute in Hhx. by injection Hhx as <- <- <- <- <-.
Defined.

Lemma canonical_text_empty : canonical_text "{}".
Proof. exists (PDict []). by vm_compute. Qed.

(** [hsetnx] twice on the database. *)
Lemma hsetnx_keeps_first_example :
  ∃ w1,
    hsetnx demo_mongo "pr_json" "a" "{}" empty_world = (Ok true, w1) ∧
    hget demo_mongo "pr_json" "a" w1 = (Ok "{}", w1) ∧
    hsetnx demo_mongo "pr_json" "a" "[]" w1 = (Ok false, w1).
Proof.
  apply (hsetnx_keeps_first demo_sha1 demo_sha256 "mongodb" demo_mongo
           "pr_json" "a" "{}" "[]" empty_world).
  - reflexivity.
  - intros _. exact canonical_text_empty.
  - reflexivity.
Defined.

(** A document with nested objects, an array, a handle and a set. *)
Lemma dumps_loads_roundtrip_example :
  ∃ s v',
    dumps sample_doc = Ok s ∧ loads s = Ok v' ∧ py_equiv sample_doc v' ∧
    dumps v' = Ok s ∧ s = rapidjson.write 0 (tree sample_doc) "" ∧
    keys_sorted (tree sample_doc) ∧
    (∀ elts, sample_doc = PSet elts →
       tree sample_doc = JObj [("__set__", JBool true);
                               ("elements", JArr (atom_tree <$> sorted_elts elts))]
       ∧ py_sorted (sorted_elts elts) = Ok (sorted_elts elts)).
Proof. apply (dumps_loads_roundtrip sample_doc). reflexivity. Defined.

(** The tagged object of a set, read back. *)
Lemma object_hook_dispatch_example :
  let kvs := [("__set__", JBool false); ("elements", JArr [JStr "b"; JStr "a"])] in
  let dct := [("__set__", PBool false); ("elements", PList [PStr "b"; PStr "a"])] in
  loads (rapidjson.dumps (JObj kvs)) = object_hook dct ∧
  object_hook dct = Ok (PSet [PStr "b"; PStr "a"]).
Proof.
  intros kvs dct.
  destruct (object_hook_dispatch kvs dct eq_refl) as (Hloads & _ & Hset & _).
  split; [exact Hloads|].
  destruct (Hset eq_refl eq_refl) as (_ & _ & Hlist).
  apply (Hlist [PStr "b"; PStr "a"]); [reflexivity|by repeat constructor|].
  apply (bool_decide_unpack _). by vm_compute.
Defined.

(** Mutation outside and inside an edit scope. *)
Lemma mutation_needs_edit_scope_example :
  (__setitem__ demo_sha1 demo_sha256 "file" "y" (PInt 2) (demo_doc, empty_world)
     = (Raise AssertionError, (demo_doc, empty_world)) ∧
   __delitem__ demo_sha1 demo_sha256 "file" "y" (demo_doc, empty_world)
     = (Raise AssertionError, (demo_doc, empty_world)) ∧
   clear demo_sha1 demo_sha256 "file" (demo_doc, empty_world)
     = (Raise AssertionError, (demo_doc, empty_world))) ∧
  (__enter__ >> __setitem__ demo_sha1 demo_sha256 "file" "y" (PInt 2)) (demo_doc, empty_world)
    = (Ok tt, (set_data (Some (PDict [("x", PInt 1); ("y", PInt 2)]))
                 (set_in_context true demo_doc), empty_world)).
Proof.
  destruct (mutation_needs_edit_scope demo_sha1 demo_sha256 "file" demo_doc
              (set_in_context true demo_doc) empty_world empty_world
              "y" (PInt 2) [("x", PInt 1)] eq_refl eq_refl eq_refl)
    as (Hout & Hset & _).
  split; [exact Hout | exact Hset].
Defined.



(** The files as the primary and the database as the secondary: the old
    version of [a] is replaced, [b] is added and [z] is deleted.  Then the
    other way round, on a system without a repository whose [rm] removes
    the file of [b]. *)
Lemma sync_converges_example :
  (let H := hashes_of demo_sha256 "file" "pr_json" sync_world in
   ∃ w',
     _sync_hashmap demo_sha1 demo_sha256 "file" ["mongodb"] 2 "pr_json" 5000
       demo_file sync_world = (Ok tt, w')
     ∧ hgetall demo_file "pr_json" true w' = (Ok H, w')
     ∧ Forall (λ s, hgetall (backend_of demo_sha1 demo_sha256 s) "pr_json" true w'
                    = (Ok H, w')) ["mongodb"])
  ∧ (let H := hashes_of demo_sha256 "mongodb" "pr_json" sync_world in
     ∃ w',
       _sync_hashmap demo_sha1 demo_sha256 "mongodb" ["file"] 2 "pr_json" 5000
         demo_mongo sync_world = (Ok tt, w')
       ∧ hgetall demo_mongo "pr_json" true w' = (Ok H, w')
       ∧ Forall (λ s, hgetall (backend_of demo_sha1 demo_sha256 s) "pr_json" true w'
                      = (Ok H, w')) ["file"]).
Proof.
  split.
  - apply (sync_converges demo_sha1 demo_sha256 "file" ["mongodb"] "pr_json" 5000 2
             (hashes_of demo_sha256 "file" "pr_json" sync_world) sync_world).
    + by left.
    + apply Forall_cons_2; [by right|constructor].
    + split.
      * apply tree_ok_check. apply (bool_decide_unpack _). by vm_compute.
      * intros _. apply tree_json_check. apply (bool_decide_unpack _). by vm_compute.
    + apply Forall_cons_2; [reflexivity|constructor].
    + by vm_compute.
    + intros Hin. apply list_elem_of_singleton in Hin. discriminate Hin.
    + intros Hin. apply list_elem_of_singleton in Hin. discriminate Hin.
    + lia.
    + vm_compute. lia.
  - apply (sync_converges demo_sha1 demo_sha256 "mongodb" ["file"] "pr_json" 5000 2
             (hashes_of demo_sha256 "mongodb" "pr_json" sync_world) sync_world).
    + by right.
    + apply Forall_cons_2; [by left|constructor].
    + split; [reflexivity|].
      apply db_ok_check. apply (bool_decide_unpack _). vm_compute. exact I.
    + apply Forall_cons_2; [|constructor].
      apply tree_ok_check. apply (bool_decide_unpack _). by vm_compute.
    + by vm_compute.
    + intros _ k [h Hk].
      assert (map_Forall (λ k _, file_key demo_sha1 "pr_json" k = true)
                (hashes_of demo_sha256 "mongodb" "pr_json" sync_world)) as Hall
        by (apply (bool_decide_unpack _); vm_compute; exact I).
      exact (Hall k h Hk).
    + intros _ _.
      exists 128, "", "fatal: not a git repository (or any of the parent directories): .git",
        [], "", "", [("pr_json/c/1/4/9/4/b.json", None)].
      split_and!; vm_compute; reflexivity.
    + lia.
    + vm_compute. lia.
Defined.

(** C1 as the claim has it fails for a key that the file backend does not
    list: the database is the primary and holds [all_feedstocks] in the
    catch-all hashmap; after the run the file is written, and the
    [{key: hash}] map of the file backend is still empty. *)
Lemma sync_reserved_key_counterexample :
  ∃ w' H,
    _sync_hashmap demo_sha1 demo_sha256 "mongodb" ["file"] 2 "lazy_json" 5000
      demo_mongo reserved_world = (Ok tt, w')
    ∧ hgetall demo_mongo "lazy_json" true w' = (Ok H, w')
    ∧ H !! "all_feedstocks" = Some (demo_sha256 "{}")
    ∧ hgetall demo_file "lazy_json" true w' = (Ok ∅, w').
Proof.
  exists (_sync_hashmap demo_sha1 demo_sha256 "mongodb" ["file"] 2 "lazy_json" 5000
            demo_mongo reserved_world).2.
  exists {["all_feedstocks" := demo_sha256 "{}"]}.
  split_and!; vm_compute; reflexivity.
Qed.

(** Five stale nodes in batches of two. *)
Lemma fetch_loop_batches_example :
  let H := hashes_of demo_sha256 "mongodb" "pr_json" batch_world in
  ∃ w' batches,
    fetch_loop demo_sha1 demo_sha256 "mongodb" ["file"] 5 "pr_json" 2 demo_mongo
      H {["file" := ∅]} (list_to_set ["k1"; "k2"; "k3"; "k4"; "k5"]) batch_world
    = (Ok tt, w')
    ∧ calls w' = fetch_calls "mongodb" ["file"] "pr_json" H {["file" := ∅]}
                   (texts_of "mongodb" "pr_json" batch_world) batches
    ∧ length <$> batches = [2; 2; 1]%nat.
Proof.
  intros H.
  set (todo := list_to_set ["k1"; "k2"; "k3"; "k4"; "k5"] : gset string).
  destruct (fetch_loop_batches demo_sha1 demo_sha256 "mongodb" ["file"] "pr_json"
              2 5 {["file" := ∅]} todo batch_world)
    as (w' & batches & Hrun & Hcalls & _ & Hcnt & Hlens).
  - by right.
  - apply Forall_cons_2; [by left|constructor].
  - split; [reflexivity|].
    apply db_ok_check. apply (bool_decide_unpack _). by vm_compute.
  - intros s Hs. apply list_elem_of_singleton in Hs. subst s. split.
    + apply tree_ok_check. apply (bool_decide_unpack _). by vm_compute.
    + by eexists.
  - intros s k v Hs Hk _. apply list_elem_of_singleton in Hs. subst s.
    split; [done|].
    assert (map_Forall (λ k _, file_key demo_sha1 "pr_json" k = true)
              (texts_of "mongodb" "pr_json" batch_world)) as Hall
      by (apply (bool_decide_unpack _); by vm_compute).
    exact (Hall k v Hk).
  - intros k Hk. apply elem_of_list_to_set in Hk.
    assert (Forall (λ k, is_Some (hashes_of demo_sha256 "mongodb" "pr_json" batch_world !! k))
              ["k1"; "k2"; "k3"; "k4"; "k5"]) as Hall
      by (apply (bool_decide_unpack _); by vm_compute).
    rewrite Forall_forall in Hall. by apply Hall.
  - lia.
  - vm_compute. lia.
  - assert (size todo = 5%nat) as Hsz by by vm_compute.
    rewrite Hsz in Hcnt, Hlens.
    change ((Z.of_nat 5 + 2 - 1) `div` 2) with 3 in Hcnt.
    exists w', batches. split_and!; [exact Hrun|exact Hcalls|].
    destruct batches as [|b0 [|b1 [|b2 [|b3 batches]]]]; cbn in Hcnt; try lia.
    pose proof (Hlens 0%nat b0 eq_refl) as H0.
    pose proof (Hlens 1%nat b1 eq_refl) as H1.
    pose proof (Hlens 2%nat b2 eq_refl) as H2.
    cbn. repeat f_equal; lia.
Defined.

(** The reserved document [all_feedstocks] next to the document [graph],
    and a run of the synchronisation with the files as the primary. *)
Lemma reserved_documents_hidden_example :
  (∃ keys, hkeys demo_file "lazy_json" reserved_world = (Ok keys, reserved_world)
     ∧ "all_feedstocks" ∉ keys)
  ∧ hget demo_file "lazy_json" "all_feedstocks" reserved_world = (Ok "[]", reserved_world)
  ∧ hexists demo_file "lazy_json" "all_feedstocks" reserved_world = (Ok true, reserved_world)
  ∧ ∃ w' new,
      _sync_hashmap demo_sha1 demo_sha256 "file" ["mongodb"] 2 "lazy_json" 5000
        demo_file reserved_world = (Ok tt, w')
      ∧ calls w' = calls reserved_world ++ new
      ∧ (∀ c, c ∈ new → is_transfer c.2 = true → "all_feedstocks" ∉ op_keys c.2).
Proof.
  destruct (reserved_documents_hidden demo_sha1 demo_sha256 "all_feedstocks"
              reserved_world) as ((keys & Hkeys & _ & Hout) & _ & Hget & Hsync).
  { right. left. }
  assert (fs reserved_world !! ("all_feedstocks" +:+ ".json") = Some "[]") as Hfile
    by (vm_compute; reflexivity).
  destruct (Hget "[]" Hfile) as [Hhget Hhexists].
  destruct (Hsync "file" ["mongodb"] 5000 2%nat) as (w' & new & Hrun & Hcalls & _ & Htrans).
  - by left.
  - apply Forall_cons_2; [by right|constructor].
  - split.
    + apply tree_ok_check. apply (bool_decide_unpack _). by vm_compute.
    + intros _. apply tree_json_check. apply (bool_decide_unpack _). by vm_compute.
  - apply Forall_cons_2; [reflexivity|constructor].
  - intros Hin. apply list_elem_of_singleton in Hin. discriminate Hin.
  - intros Hin. apply list_elem_of_singleton in Hin. discriminate Hin.
  - lia.
  - vm_compute. lia.
  - unfold demo_file. split; [exists keys; split; [exact Hkeys|exact Hout]|].
    split; [exact Hhget|]. split; [exact Hhexists|].
    exists w', new. split; [exact Hrun|]. split; [exact Hcalls|].
    apply Htrans. reflexivity.
Defined.

(** C9 as the claim has it fails on both sides of the synchronisation.
    With the files as the primary, the key [all_feedstocks] of the database
    is deleted, for the primary does not list it.  With the database as
    the primary, that key is read from the database and written to the
    file backend, over the reserved document. *)
Lemma sync_names_reserved_key_counterexample :
  hget demo_file "lazy_json" "all_feedstocks" reserved_world = (Ok "[]", reserved_world)
  ∧ hexists demo_mongo "lazy_json" "all_feedstocks" reserved_world
    = (Ok true, reserved_world)
  ∧ (∃ w',
       _sync_hashmap demo_sha1 demo_sha256 "file" ["mongodb"] 2 "lazy_json" 5000
         demo_file reserved_world = (Ok tt, w')
       ∧ ("mongodb", OpHdel "lazy_json" ["all_feedstocks"]) ∈ calls w'
       ∧ hexists demo_mongo "lazy_json" "all_feedstocks" w' = (Ok false, w'))
  ∧ (∃ w',
       _sync_hashmap demo_sha1 demo_sha256 "mongodb" ["file"] 2 "lazy_json" 5000
         demo_mongo reserved_world = (Ok tt, w')
       ∧ ("mongodb", OpHmget "lazy_json" ["all_feedstocks"]) ∈ calls w'
       ∧ (∃ m, ("file", OpHmset "lazy_json" m) ∈ calls w'
               ∧ m !! "all_feedstocks" = Some "{}")
       ∧ hget demo_file "lazy_json" "all_feedstocks" w' = (Ok "{}", w')).
Proof.
  split_and!; [vm_compute; reflexivity|vm_compute; reflexivity| |].
  - exists (_sync_hashmap demo_sha1 demo_sha256 "file" ["mongodb"] 2 "lazy_json" 5000
              demo_file reserved_world).2.
    split_and!; [vm_compute; reflexivity| |vm_compute; reflexivity].
    apply (list_elem_of_lookup_2 _ 2%nat). vm_compute. reflexivity.
  - exists (_sync_hashmap demo_sha1 demo_sha256 "mongodb" ["file"] 2 "lazy_json" 5000
              demo_mongo reserved_world).2.
    split_and!; [vm_compute; reflexivity| | |vm_compute; reflexivity].
    + apply (list_elem_of_lookup_2 _ 3%nat). vm_compute. reflexivity.
    + exists {["all_feedstocks" := "{}"]}. split; [|vm_compute; reflexivity].
      apply (list_elem_of_lookup_2 _ 4%nat). vm_compute. reflexivity.
Qed.

(** A text that is not in the form [dumps] writes, stored in the database
    and read back. *)
Lemma mongo_hset_then_hget_example :
  ∃ w',
    hset (MongoDBLazyJsonBackend demo_sha256) "pr_json" "a" "[1]" empty_world = (Ok tt, w')
    ∧ hget (MongoDBLazyJsonBackend demo_sha256) "pr_json" "a" w'
      = (Ok (rapidjson.dumps (JArr [JInt 1])), w')
    ∧ (∃ hashes, hgetall (MongoDBLazyJsonBackend demo_sha256) "pr_json" true w'
                 = (Ok hashes, w')
                 ∧ hashes !! "a" = Some (demo_sha256 "[1]")).
Proof.
  destruct (mongo_hset_then_hget demo_sha256 "pr_json" "a" "[1]"
              (rapidjson.dumps (JArr [JInt 1])) (PList [PInt 1]) empty_world)
    as (w' & Hset & Hget & _ & Hall & _).
  - reflexivity.
  - vm_compute. reflexivity.
  - vm_compute. reflexivity.
  - exists w'. split; [exact Hset|]. split; [exact Hget|exact Hall].
Defined.

(** A name that is no collection of the database. *)
Lemma mongo_rejects_unknown_hashmap_example :
  hget (MongoDBLazyJsonBackend demo_sha256) "feedstocks" "a" sync_world
  = (Raise AssertionError, sync_world)
  ∧ hset (MongoDBLazyJsonBackend demo_sha256) "feedstocks" "a" "{}" sync_world
    = (Raise AssertionError, sync_world).
Proof.
  destruct (mongo_rejects_unknown_hashmap demo_sha256 "feedstocks" "a" "{}" ∅ [] false
              sync_world) as (_ & Hset & _ & _ & _ & _ & Hget & _).
  - reflexivity.
  - split; [exact Hget|exact Hset].
Defined.

(** A mapping with a good text and a text that stops short. *)
Lemma mongo_hmset_validates_first_example :
  ∃ e, hmset (MongoDBLazyJsonBackend demo_sha256) "pr_json"
         {["a" := "{}"; "b" := "{"]} sync_world = (Raise e, sync_world).
Proof.
  destruct (mongo_hmset_validates_first demo_sha256 "pr_json"
              {["a" := "{}"; "b" := "{"]} sync_world) as [Hmset _].
  - reflexivity.
  - exists "b", "{". split; vm_compute; reflexivity.
  - exact Hmset.
Defined.

Lemma db_ok_sync_world : db_ok demo_sha256 "pr_json" sync_world.
Proof. apply db_ok_check. apply (bool_decide_unpack _). vm_compute. exact I. Qed.

(** The node [q], which the collection of [sync_world] does not hold, asked
    for after the node [a], which it holds. *)
Lemma mongo_missing_key_example :
  hget (MongoDBLazyJsonBackend demo_sha256) "pr_json" "q" sync_world
  = (Raise AssertionError, sync_world)
  ∧ hmget (MongoDBLazyJsonBackend demo_sha256) "pr_json" ["a"; "q"] sync_world
    = (Raise (KeyError "q"), sync_world).
Proof.
  destruct (mongo_missing_key demo_sha256 "pr_json" "q" ["a"] [] sync_world)
    as (_ & Hget & Hmget & _).
  - reflexivity.
  - exact db_ok_sync_world.
  - vm_compute. reflexivity.
  - apply Forall_cons_2; [|constructor]. apply (bool_decide_unpack _). vm_compute. exact I.
  - split; [exact Hget|exact Hmget].
Defined.

(** The collection of [sync_world]. *)
Lemma mongo_listing_agrees_example :
  ∃ keys texts hashes,
    hkeys (MongoDBLazyJsonBackend demo_sha256) "pr_json" sync_world = (Ok keys, sync_world)
    ∧ hgetall (MongoDBLazyJsonBackend demo_sha256) "pr_json" false sync_world
      = (Ok texts, sync_world)
    ∧ hgetall (MongoDBLazyJsonBackend demo_sha256) "pr_json" true sync_world
      = (Ok hashes, sync_world)
    ∧ NoDup keys
    ∧ ∀ k s, texts !! k = Some s → hashes !! k = Some (demo_sha256 s).
Proof.
  destruct (mongo_listing_agrees demo_sha256 "pr_json" sync_world)
    as (keys & texts & hashes & Hkeys & Htexts & Hhashes & Hnd & Hall).
  - reflexivity.
  - exact db_ok_sync_world.
  - exists keys, texts, hashes. split; [exact Hkeys|]. split; [exact Htexts|].
    split; [exact Hhashes|]. split; [exact Hnd|].
    intros k s. destruct (Hall k) as (_ & _ & Hsha & _). apply Hsha.
Defined.

Lemma tree_ok_sync_world : tree_ok demo_sha1 "pr_json" (fs sync_world).
Proof. apply tree_ok_check. apply (bool_decide_unpack _). vm_compute. exact I. Qed.

(** The files of [sync_world]. *)
Lemma file_listing_agrees_example :
  ∃ keys m,
    hkeys (FileLazyJsonBackend demo_sha1 demo_sha256) "pr_json" sync_world
    = (Ok keys, sync_world)
    ∧ hgetall (FileLazyJsonBackend demo_sha1 demo_sha256) "pr_json" true sync_world
      = (Ok m, sync_world)
    ∧ NoDup keys ∧ ∀ k, k ∈ keys ↔ is_Some (m !! k).
Proof.
  destruct (file_listing_agrees demo_sha1 demo_sha256 "pr_json" true sync_world)
    as (keys & m & Hkeys & Hall & Hnd & Hagree).
  - exact tree_ok_sync_world.
  - exists keys, m. split; [exact Hkeys|]. split; [exact Hall|]. split; [exact Hnd|].
    intros k. by destruct (Hagree k) as [? _].
Defined.

(** The file [pr_json/x.json] of [stray_world]. *)
Lemma file_hgetall_stray_file_example :
  (∃ keys, hkeys (FileLazyJsonBackend demo_sha1 demo_sha256) "pr_json" stray_world
           = (Ok keys, stray_world) ∧ "x" ∈ keys)
  ∧ ∃ path, hgetall (FileLazyJsonBackend demo_sha1 demo_sha256) "pr_json" false stray_world
            = (Raise (FileNotFoundError path), stray_world).
Proof.
  apply (file_hgetall_stray_file demo_sha1 demo_sha256 "pr_json" "pr_json/x.json" false
           stray_world).
  - exists "{}". vm_compute. reflexivity.
  - vm_compute. reflexivity.
  - vm_compute. reflexivity.
Defined.

(** The hypotheses hold of a node and itself. *)
Lemma sharded_paths_distinct_example : "pr_json" = "pr_json" ∧ "a" = "a".
Proof.
  apply (sharded_paths_distinct demo_sha1 "pr_json" "a" "pr_json" "a");
    first [reflexivity | discriminate].
Defined.

(** The handles of [pr_json/a.json] and of [graph.json]. *)
Lemma new_LazyJson_names_example :
  new_LazyJson "pr_json/a.json"
  = mkLazyJson "pr_json/a.json" None None false "pr_json" "a" None
  ∧ new_LazyJson "graph.json"
    = mkLazyJson "graph.json" None None false "lazy_json" "graph" None.
Proof.
  destruct (new_LazyJson_names demo_sha1 "pr_json" "a") as (Hdir & _ & _);
    [reflexivity|].
  destruct (new_LazyJson_names demo_sha1 "pr_json" "graph") as (_ & Hflat & _);
    [reflexivity|].
  split; [apply Hdir; [discriminate|reflexivity]|exact Hflat].
Defined.

(** A handle on a node that has no file, and on one that has. *)
Lemma LazyJson_init_keeps_file_example :
  (∃ w', LazyJson_init demo_sha1 demo_sha256 "file" "pr_json/q.json" sync_world
         = (Ok (new_LazyJson "pr_json/q.json"), w')
         ∧ hget demo_file "pr_json" "q" w' = (Ok "{}", w'))
  ∧ (∃ w', LazyJson_init demo_sha1 demo_sha256 "file" "pr_json/b.json" sync_world
           = (Ok (new_LazyJson "pr_json/b.json"), w')
           ∧ hget demo_file "pr_json" "b" w' = (Ok "[1]", w'))
  ∧ LazyJson_init demo_sha1 demo_sha256 "mongodb" "pr_json/q.json" sync_world
    = (Ok (new_LazyJson "pr_json/q.json"), sync_world).
Proof.
  destruct (LazyJson_init_keeps_file demo_sha1 demo_sha256 "file" "pr_json/q.json"
              sync_world) as [Hq _].
  destruct (LazyJson_init_keeps_file demo_sha1 demo_sha256 "file" "pr_json/b.json"
              sync_world) as [Hb _].
  destruct (LazyJson_init_keeps_file demo_sha1 demo_sha256 "mongodb" "pr_json/q.json"
              sync_world) as [_ Hm].
  split_and!.
  - eexists. split; [apply Hq; reflexivity|]. vm_compute. reflexivity.
  - eexists. split; [apply Hb; reflexivity|]. vm_compute. reflexivity.
  - apply Hm. discriminate.
Defined.


(** Three rounds of the fetch loop with a batch size of zero. *)
Lemma fetch_loop_no_progress_example :
  ∃ w',
    fetch_loop demo_sha1 demo_sha256 "file" ["mongodb"] 3 "pr_json" 0 demo_file
      ∅ {["mongodb" := ∅]} {["a"]} sync_world = (Raise OutOfFuel, w')
    ∧ calls w' = calls sync_world ++ replicate 3 ("file", OpHmget "pr_json" []).
Proof.
  apply (fetch_loop_no_progress demo_sha1 demo_sha256 "file" ["mongodb"] "pr_json" 0
           ∅ {["mongodb" := ∅]} {["a"]}).
  - lia.
  - apply (bool_decide_unpack _). vm_compute. exact I.
  - by left.
  - intros s Hs. apply list_elem_of_singleton in Hs. subst s. exists ∅. reflexivity.
  - exact tree_ok_sync_world.
Defined.

(** The first read of [pr_json/q], which nobody holds. *)
Lemma load_creates_missing_document_example :
  (∃ w', _load demo_sha1 demo_sha256 "file" (new_LazyJson "pr_json/q.json", sync_world)
         = (Ok tt, (set_data (Some (PDict []))
                      (set_data_hash_at_load (Some (demo_sha256 "{}"))
                         (new_LazyJson "pr_json/q.json")), w'))
         ∧ hget demo_file "pr_json" "q" w' = (Ok "{}", w'))
  ∧ (∃ w', _load demo_sha1 demo_sha256 "mongodb" (new_LazyJson "pr_json/q.json", sync_world)
           = (Ok tt, (set_data (Some (PDict []))
                        (set_data_hash_at_load (Some (demo_sha256 "{}"))
                           (new_LazyJson "pr_json/q.json")), w'))
           ∧ hget demo_file "pr_json" "q" w' = (Ok "{}", w')
           ∧ hget demo_mongo "pr_json" "q" w' = (Ok "{}", w')).
Proof.
  destruct (load_creates_missing_document demo_sha1 demo_sha256
              (new_LazyJson "pr_json/q.json") sync_world) as [Hfile Hmongo].
  - reflexivity.
  - reflexivity.
  - vm_compute. reflexivity.
  - split.
    + destruct Hfile as (w' & Hrun & Hfs & _).
      exists w'. split; [exact Hrun|].
      unfold demo_file. cbn [hget FileLazyJsonBackend]. rewrite file_hget_eq, Hfs.
      rewrite lookup_insert_eq. reflexivity.
    + destruct Hmongo as (w' & Hrun & Hfs & Hdb & _).
      * reflexivity.
      * vm_compute. reflexivity.
      * exists w'. split; [exact Hrun|]. split.
        -- unfold demo_file. cbn [hget FileLazyJsonBackend]. rewrite file_hget_eq, Hfs.
           rewrite lookup_insert_eq. reflexivity.
        -- unfold demo_mongo. cbn [hget MongoDBLazyJsonBackend].
           rewrite mongo_hget_eq.
           change (collection "pr_json" w')
             with (collection (hashmap (new_LazyJson "pr_json/q.json")) w').
           rewrite Hdb, lookup_insert_eq. reflexivity.
Defined.


(** A handle under an empty override, on a node that has no file. *)
Lemma load_empty_override_raises_example :
  ∃ s', _load demo_sha1 demo_sha256 "file"
          (set_override_backends (Some []) (new_LazyJson "pr_json/q.json"), sync_world)
        = (Raise IndexError, s').
Proof.
  eexists.
  apply (load_empty_override_raises demo_sha1 demo_sha256 "file"
           (set_override_backends (Some []) (new_LazyJson "pr_json/q.json")) sync_world);
    vm_compute; reflexivity.
Defined.


(** A scope whose body assigns a set that [sorted] cannot order. *)
Lemma edit_scope_failed_flush_example :
  ∃ e self' w',
    edit_scope demo_sha1 demo_sha256 "file" []
      (__setitem__ demo_sha1 demo_sha256 "file" "s" (PSet [PInt 1; PStr "a"]))
      (demo_doc, empty_world)
    = (Raise e, (self', w'))
    ∧ _in_context self' = true ∧ is_Some (_data self') ∧ fs w' = ∅.
Proof.
  eexists _, _, _. split.
  - apply (edit_scope_failed_flush demo_sha1 demo_sha256 "file" []
             (__setitem__ demo_sha1 demo_sha256 "file" "s" (PSet [PInt 1; PStr "a"]))
             demo_doc
             (set_data (Some (PDict [("x", PInt 1); ("s", PSet [PInt 1; PStr "a"])]))
                (set_in_context true demo_doc))
             empty_world empty_world (Ok tt)
             (PDict [("x", PInt 1); ("s", PSet [PInt 1; PStr "a"])])).
    + vm_compute. reflexivity.
    + reflexivity.
    + vm_compute. reflexivity.
  - split; [reflexivity|]. split; [eexists; reflexivity|reflexivity].
Defined.

(** [with lzj: lzj["y"] = 2] on the document [pr_json/a] of [sync_world],
    then [lzj["y"]]. *)
Lemma edit_then_read_example :
  ∃ self' w',
    edit_scope demo_sha1 demo_sha256 "file" ["mongodb"]
      (__setitem__ demo_sha1 demo_sha256 "file" "y" (PInt 2))
      (new_LazyJson "pr_json/a.json", sync_world) = (Ok tt, (self', w'))
    ∧ _data self' = None
    ∧ ∃ self'' w'',
        __getitem__ demo_sha1 demo_sha256 "file" "y" (self', w')
        = (Ok (PInt 2), (self'', w'')).
Proof.
  destruct (edit_then_read demo_sha1 demo_sha256 "file" ["mongodb"]
              (new_LazyJson "pr_json/a.json") sync_world "{}" (JObj []) [] "y" (PInt 2))
    as (self' & w' & Hrun & Hdata & _ & self'' & w'' & Hget & _).
  - reflexivity.
  - vm_compute. reflexivity.
  - vm_compute. reflexivity.
  - reflexivity.
  - reflexivity.
  - reflexivity.
  - vm_compute. reflexivity.
  - intros s Hs Hh. vm_compute in Hs. injection Hs as <-. vm_compute in Hh.
    discriminate Hh.
  - apply Forall_cons_2; [by left|]. apply Forall_cons_2; [by right|constructor].
  - intros _. reflexivity.
  - exists self', w'. split; [exact Hrun|]. split; [exact Hdata|].
    exists self'', w''. exact Hget.
Defined.


Lemma tree_ok_agreed_world : tree_ok demo_sha1 "pr_json" (fs agreed_world).
Proof. apply tree_ok_check. apply (bool_decide_unpack _). vm_compute. exact I. Qed.

(** The hashmap [pr_json] of [agreed_world], with no round allowed to the
    fetch loop and a batch size of zero. *)
Lemma sync_in_sync_only_reads_example :
  ∃ w',
    _sync_hashmap demo_sha1 demo_sha256 "file" ["mongodb"] 0 "pr_json" 0 demo_file
      agreed_world = (Ok tt, w')
    ∧ calls w' = calls agreed_world ++ [("file", OpHgetall "pr_json" true);
                                       ("mongodb", OpHgetall "pr_json" true)]
    ∧ fs w' = fs agreed_world ∧ cf_graph w' = cf_graph agreed_world.
Proof.
  apply (sync_in_sync_only_reads demo_sha1 demo_sha256 "file" ["mongodb"] "pr_json" 0 0
           {["a" := demo_sha256 "{}"]} agreed_world).
  - by left.
  - apply Forall_cons_2; [by right|constructor].
  - apply Forall_cons_2; [|apply Forall_cons_2; [|constructor]].
    + split; [exact tree_ok_agreed_world|]. vm_compute. reflexivity.
    + split; [reflexivity|]. vm_compute. reflexivity.
Defined.

(** [hdel] of a node that is there, twice, and of one that is not. *)
Lemma mongo_hdel_removes_exactly_example :
  ∃ w', hdel demo_mongo "pr_json" ["a"; "q"; "a"] sync_world = (Ok tt, w')
    ∧ hexists demo_mongo "pr_json" "a" w' = (Ok false, w')
    ∧ collection "pr_json" w' !! "z" = collection "pr_json" sync_world !! "z".
Proof.
  destruct (mongo_hdel_removes_exactly demo_sha256 "pr_json" ["a"; "q"; "a"] sync_world)
    as (w' & Hrun & Hgone & Hkept & _).
  - reflexivity.
  - exists w'. split; [exact Hrun|]. split.
    + apply Hgone. apply list_elem_of_here.
    + apply Hkept. apply (bool_decide_unpack _). vm_compute. exact I.
Defined.

(** Two items written at once to the collection of [sync_world]. *)
Lemma hmset_then_hgetall_example :
  ∃ w' H',
    hmset demo_mongo "pr_json" {["a" := "{}"; "c" := "[2]"]} sync_world = (Ok tt, w')
    ∧ hgetall demo_mongo "pr_json" true w' = (Ok H', w')
    ∧ H' !! "a" = Some (demo_sha256 "{}") ∧ H' !! "c" = Some (demo_sha256 "[2]")
    ∧ H' !! "z" = Some (demo_sha256 "{}").
Proof.
  destruct (hmset_then_hgetall demo_sha1 demo_sha256 "mongodb" "pr_json"
              {["a" := "{}"; "c" := "[2]"]}
              {["a" := demo_sha256 "[]"; "z" := demo_sha256 "{}"]}
              sync_world) as (w' & H' & Hrun & Hget & Hview).
  - by right.
  - reflexivity.
  - apply (bool_decide_unpack _). vm_compute. exact I.
  - intros k v Hkv. unfold accepts. cbn [String.eqb Ascii.eqb Bool.eqb].
    apply lookup_insert_Some in Hkv as [[_ <-]|[_ Hkv]]; [vm_compute; reflexivity|].
    apply lookup_singleton_Some in Hkv as [_ <-]. vm_compute. reflexivity.
  - vm_compute. reflexivity.
  - exists w', H'. split; [exact Hrun|]. split; [exact Hget|].
    split; [|split]; rewrite Hview; vm_compute; reflexivity.
Defined.

(** The synchronisation of all the hashmaps of [agreed_world], with the
    files alone and with the database beside them. *)
Lemma full_sync_in_sync_example :
  sync_lazy_json_across_backends demo_sha1 demo_sha256 "file" [] 0 5000 agreed_world
  = (Ok tt, agreed_world)
  ∧ ∃ w',
      sync_lazy_json_across_backends demo_sha1 demo_sha256 "file" ["mongodb"] 0 5000
        agreed_world = (Ok tt, w')
      ∧ fs w' = fs agreed_world ∧ cf_graph w' = cf_graph agreed_world
      ∧ calls w' = calls agreed_world ++
          concat ((λ name, [("file", OpHgetall name true); ("mongodb", OpHgetall name true)])
                    <$> ordered_collections ++ rest_of_the_collections).
Proof.
  destruct (full_sync_in_sync demo_sha1 demo_sha256 "file" [] 5000 0 agreed_world)
    as [Hone _].
  destruct (full_sync_in_sync demo_sha1 demo_sha256 "file" ["mongodb"] 5000 0 agreed_world)
    as [_ Htwo].
  split; [apply Hone; reflexivity|].
  destruct Htwo as (w' & Hrun & Hcalls & Hfs & Hdb).
  - discriminate.
  - by left.
  - apply Forall_cons_2; [by right|constructor].
  - assert (Forall (λ name, ∀ s, s ∈ ["file"; "mongodb"] →
                      secondary_ok demo_sha1 s name agreed_world
                      ∧ hgetall (backend_of demo_sha1 demo_sha256 s) name true agreed_world
                        = hgetall (backend_of demo_sha1 demo_sha256 "file") name true
                            agreed_world)
              (ordered_collections ++ rest_of_the_collections)) as Hall.
    { let l := eval vm_compute in (ordered_collections ++ rest_of_the_collections) in
      change (ordered_collections ++ rest_of_the_collections) with l.
      repeat (apply Forall_cons_2;
        [intros s Hs; apply elem_of_cons in Hs as [->|Hs];
           [|apply list_elem_of_singleton in Hs as ->];
           (split; [first [reflexivity
                          |apply tree_ok_check, (bool_decide_unpack _); vm_compute; exact I]
                   |vm_compute; reflexivity])|]).
      constructor. }
    intros name s Hname Hs. exact (proj1 (Forall_forall _ _) Hall name Hname s Hs).
  - exists w'. split; [exact Hrun|]. split; [exact Hfs|]. split; [exact Hdb|exact Hcalls].
Defined.
